(** * Pseudoku: a shallow embedding of the puzzle validator, the field-element
    sampler, the proof codec, the proof life cycle and the OAuth callback.

    Part 1 transcribes the TypeScript functions of the repository, one
    module per source file; the comment in front of a definition names the
    function or the statement it stands for.  Part 2 holds the predicates
    and sample values of the statements, Part 3 the lemmas and theorems.

    JavaScript numbers that the code only uses as integers are [Z] (cell
    values, bytes, BigInt) or [nat] (loop indices); a [Uint8Array] is a
    [list Z] whose elements lie in [0, 256); strings are [string], with the
    code units below 256 as characters; a [Set] is a [gset];
    [sessionStorage] is a [gmap string string].  An [async] method of the
    game runs to its next [await] and stops there; it goes on when the
    awaited promise settles, which is an event of its own, and the
    listeners of the page are live in between.  [handleCallback], whose one
    [await] comes after its last access to the storage, takes the answer of
    the exchange as a parameter. *)

From Stdlib Require Import ZArith List String Ascii Bool Lia Permutation.
From Stdlib Require Import DecimalString DecimalZ DecimalNat.
From Stdlib Require Import HexadecimalString HexadecimalZ.
From stdpp Require Import base gmap strings list.

Local Open Scope string_scope.

(** * Part 1: the code

    ** JavaScript primitives used by the sources *)

Module JS.

(** [`${n}`] for a non-negative integer index. *)
Definition showNat (n : nat) : string :=
  DecimalString.NilEmpty.string_of_uint (Nat.to_uint n).

(** A [for (let i = lo; i < lo + n; i++)] loop whose body may [return]:
    the first iteration that returns ends the loop. *)
Fixpoint for_return {A} (body : nat -> option A) (idx : list nat) : option A :=
  match idx with
  | [] => None
  | i :: rest =>
      match body i with
      | Some r => Some r
      | None => for_return body rest
      end
  end.

(** A [Uint8Array] element. *)
Definition u8 (b : Z) : Prop := (0 <= b < 256)%Z.

(** [n.toString(16)] for a non-negative integer: the shortest lower-case
    hexadecimal numeral. *)
Definition toString16 (n : Z) : string :=
  HexadecimalString.NilEmpty.string_of_uint (N.to_hex_uint (Z.to_N n)).

(** [x.toString()] for a BigInt: the decimal numeral, with a minus sign
    for a negative value. *)
Definition BigInt_toString (x : Z) : string :=
  DecimalString.NilEmpty.string_of_int (Z.to_int x).

(** [BigInt(s)] for a decimal numeral [s] ([None] where it throws). *)
Definition BigInt_ofString (s : string) : option Z :=
  option_map Z.of_int (DecimalString.NilEmpty.int_of_string s).

Fixpoint repeatChar (c : ascii) (n : nat) : string :=
  match n with
  | O => ""
  | S n' => String c (repeatChar c n')
  end.

(** [s.padStart(target, c)] for a one-character filler. *)
Definition padStart (target : nat) (c : ascii) (s : string) : string :=
  repeatChar c (target - String.length s) ++ s.

(** [parts.join('')] *)
Definition join (parts : list string) : string := String.concat "" parts.

(** [s.slice(start, end)]; [None] for an omitted [end].  A negative index
    counts from the end of the string, and both are clamped to it. *)
Definition slice (s : string) (start : Z) (stop : option Z) : string :=
  let len := Z.of_nat (String.length s) in
  let clamp k := if (k <? 0)%Z then Z.max (len + k) 0 else Z.min k len in
  let from := clamp start in
  let to := match stop with Some e => clamp e | None => len end in
  substring (Z.to_nat from) (Z.to_nat (to - from)) s.

(** White space as [\s] and [trim] see it, for the code units below 256:
    tab, line feed, vertical tab, form feed, carriage return, space and
    the no-break space. *)
Definition isWhiteSpace (c : ascii) : bool :=
  existsb (Nat.eqb (nat_of_ascii c)) [9; 10; 11; 12; 13; 32; 160].

(** The characters [.] does not match: line feed and carriage return. *)
Definition isLineTerminator (c : ascii) : bool :=
  existsb (Nat.eqb (nat_of_ascii c)) [10; 13].

Fixpoint trimStart (s : string) : string :=
  match s with
  | "" => ""
  | String c rest => if isWhiteSpace c then trimStart rest else s
  end.

Fixpoint trimEnd (s : string) : string :=
  match s with
  | "" => ""
  | String c rest =>
      match trimEnd rest with
      | "" => if isWhiteSpace c then "" else String c ""
      | kept => String c kept
      end
  end.

(** [s.trim()] *)
Definition trim (s : string) : string := trimEnd (trimStart s).

(** [s.replace(/^0x/, "")] *)
Definition strip0x (s : string) : string :=
  match s with
  | String "0" (String "x" rest) => rest
  | _ => s
  end.

(** [s.replace(/\s/g, "")] *)
Fixpoint removeWhiteSpace (s : string) : string :=
  match s with
  | "" => ""
  | String c rest =>
      if isWhiteSpace c then removeWhiteSpace rest
      else String c (removeWhiteSpace rest)
  end.

(** The value of a hexadecimal digit, either case. *)
Definition hexDigitValue (c : ascii) : option Z :=
  let n := nat_of_ascii c in
  if (48 <=? n)%nat && (n <=? 57)%nat then Some (Z.of_nat (n - 48))
  else if (97 <=? n)%nat && (n <=? 102)%nat then Some (Z.of_nat (n - 87))
  else if (65 <=? n)%nat && (n <=? 70)%nat then Some (Z.of_nat (n - 55))
  else None.

Definition isHexDigit (c : ascii) : bool :=
  match hexDigitValue c with Some _ => true | None => false end.

Fixpoint allHex (s : string) : bool :=
  match s with
  | "" => true
  | String c rest => isHexDigit c && allHex rest
  end.

(** [/^[0-9a-fA-F]+$/.test(s)] *)
Definition testHex (s : string) : bool :=
  match s with
  | "" => false
  | _ => allHex s
  end.

(** [s.match(/.{1,2}/g)]: the successive greedy matches of one or two
    characters other than line terminators ([None] is [null], when
    nothing matches). *)
Fixpoint matchPairs_list (s : string) : list string :=
  match s with
  | "" => []
  | String c rest =>
      if isLineTerminator c then matchPairs_list rest
      else match rest with
           | "" => [String c ""]
           | String d rest' =>
               if isLineTerminator d then String c "" :: matchPairs_list rest'
               else String c (String d "") :: matchPairs_list rest'
           end
  end.

Definition matchPairs (s : string) : option (list string) :=
  match matchPairs_list s with
  | [] => None
  | ms => Some ms
  end.

(** [parseInt(s, 16)] for a string without sign, prefix or leading white
    space: the value of the longest prefix of hexadecimal digits, [None]
    (NaN) when the first character is not one. *)
Fixpoint parseHexPrefix (acc : Z) (s : string) : Z :=
  match s with
  | "" => acc
  | String c rest =>
      match hexDigitValue c with
      | Some d => parseHexPrefix (acc * 16 + d) rest
      | None => acc
      end
  end.

Definition parseInt16 (s : string) : option Z :=
  match s with
  | "" => None
  | String c rest =>
      match hexDigitValue c with
      | Some d => Some (parseHexPrefix d rest)
      | None => None
      end
  end.

(** [new Uint8Array(values)]: NaN is stored as 0 and a number modulo 256. *)
Definition Uint8Array_from (values : list (option Z)) : list Z :=
  map (fun v => match v with Some n => (n mod 256)%Z | None => 0%Z end) values.

(** [`${n}`] and [n.toString()] for an integer (of less than 22 digits,
    where JavaScript still writes every digit): the decimal numeral, with a
    minus sign for a negative value. *)
Definition showInt (n : Z) : string :=
  DecimalString.NilEmpty.string_of_int (Z.to_int n).

(** [Number.MAX_SAFE_INTEGER], which is [2^53 - 1], and
    [Number.isSafeInteger] on a whole number: up to there a double holds
    every whole number exactly. *)
Definition MAX_SAFE_INTEGER : Z := 9007199254740991.

Definition isSafeInteger (n : Z) : bool :=
  (- MAX_SAFE_INTEGER <=? n)%Z && (n <=? MAX_SAFE_INTEGER)%Z.

(** The characters [encodeURIComponent] leaves as they are. *)
Definition isUnreserved (c : ascii) : bool :=
  let n := nat_of_ascii c in
  ((48 <=? n)%nat && (n <=? 57)%nat) || ((65 <=? n)%nat && (n <=? 90)%nat)
  || ((97 <=? n)%nat && (n <=? 122)%nat)
  || existsb (Ascii.eqb c) (list_ascii_of_string "-_.!~*'()").

Definition upperHexDigit (d : nat) : ascii :=
  ascii_of_nat (if (d <? 10)%nat then 48 + d else 55 + d).

(** [%XX] for one byte. *)
Definition percentByte (n : nat) : string :=
  String "%" (String (upperHexDigit (n / 16)) (String (upperHexDigit (n mod 16)) "")).

(** [encodeURIComponent(s)] for code units below 256: a character that is
    not left alone becomes the escapes of its UTF-8 bytes, one byte below
    128 and two from there on. *)
Fixpoint encodeURIComponent (s : string) : string :=
  match s with
  | "" => ""
  | String c rest =>
      let n := nat_of_ascii c in
      (if isUnreserved c then String c ""
       else if (n <? 128)%nat then percentByte n
       else percentByte (192 + n / 64) ++ percentByte (128 + n mod 64))
      ++ encodeURIComponent rest
  end.

End JS.

(** ** src/utils/sudokuValidator.ts *)

Module SudokuValidator.
Import JS.

(** [type SudokuGrid = number[][]].  Every grid of the program is 9 x 9
    and every index the loops produce is below 9; [cell] is [grid[i][j]]
    for such grids (the default is never read on a 9 x 9 grid). *)
Abbreviation SudokuGrid := (list (list Z)).

Definition gridRow (grid : SudokuGrid) (i : nat) : list Z := nth i grid [].

Definition cell (grid : SudokuGrid) (i j : nat) : Z := nth j (gridRow grid i) 0%Z.

(** [grid[row][col] = v] for indices inside the grid. *)
Definition setCell (grid : SudokuGrid) (row col : nat) (v : Z) : SudokuGrid :=
  <[row := <[col := v]> (gridRow grid row)]> grid.

Record ValidationResult := { valid : bool; error : option string }.

(** [hasAllDigits]: the loop over [arr] with the [seen] set. *)
Fixpoint hasAllDigits_from (seen : gset Z) (arr : list Z) : bool :=
  match arr with
  | [] => bool_decide (size seen = 9)
  | val :: rest =>
      if (val <? 1)%Z || (val >? 9)%Z || bool_decide (val ∈ seen)
      then false
      else hasAllDigits_from (seen ∪ {[val]}) rest
  end.

Definition hasAllDigits (arr : list Z) : bool := hasAllDigits_from ∅ arr.

(** [getColumn] *)
Definition getColumn (grid : SudokuGrid) (col : nat) : list Z :=
  map (fun i => cell grid i col) (seq 0 9).

(** [getBox] *)
Definition getBox (grid : SudokuGrid) (boxNum : nat) : list Z :=
  let boxRow := (boxNum / 3) * 3 in
  let boxCol := (boxNum mod 3) * 3 in
  flat_map (fun i => map (fun j => cell grid (boxRow + i) (boxCol + j)) (seq 0 3))
           (seq 0 3).

Definition fail (msg : string) : ValidationResult :=
  {| valid := false; error := Some msg |}.

(** The body of the first double loop of [isValid]. *)
Definition cellError (grid : SudokuGrid) (i j : nat) : option string :=
  if (cell grid i j =? 0)%Z then
    Some ("Cell at row " ++ showNat (i + 1) ++ ", column " ++ showNat (j + 1)
          ++ " is empty")
  else if (cell grid i j <? 1)%Z || (cell grid i j >? 9)%Z then
    Some ("Invalid value at row " ++ showNat (i + 1) ++ ", column "
          ++ showNat (j + 1))
  else None.

Definition rowError (grid : SudokuGrid) (i : nat) : option string :=
  if negb (hasAllDigits (gridRow grid i)) then
    Some ("Row " ++ showNat (i + 1) ++ " contains duplicate values")
  else None.

Definition columnError (grid : SudokuGrid) (j : nat) : option string :=
  if negb (hasAllDigits (getColumn grid j)) then
    Some ("Column " ++ showNat (j + 1) ++ " contains duplicate values")
  else None.

Definition boxError (grid : SudokuGrid) (boxNum : nat) : option string :=
  if negb (hasAllDigits (getBox grid boxNum)) then
    let boxRow := boxNum / 3 + 1 in
    let boxCol := boxNum mod 3 + 1 in
    Some ("Box at position (" ++ showNat boxRow ++ ", " ++ showNat boxCol
          ++ ") contains duplicate values")
  else None.

(** [isValid] *)
Definition isValid (grid : SudokuGrid) : ValidationResult :=
  match for_return (fun i => for_return (cellError grid i) (seq 0 9)) (seq 0 9) with
  | Some msg => fail msg
  | None =>
  match for_return (rowError grid) (seq 0 9) with
  | Some msg => fail msg
  | None =>
  match for_return (columnError grid) (seq 0 9) with
  | Some msg => fail msg
  | None =>
  match for_return (boxError grid) (seq 0 9) with
  | Some msg => fail msg
  | None => {| valid := true; error := None |}
  end end end end.

Inductive ConflictType := RowConflict | ColumnConflict | BoxConflict.

Record Conflict := { type : ConflictType; position : nat }.

(** [getConflicts].  Each of the three scans pushes at most one conflict:
    the row and column loops [break] after the push and the box loop
    returns after it, which is also the end of the function. *)
Definition getConflicts (grid : SudokuGrid) (row col : nat) (value : Z)
  : list Conflict :=
  let rowHit :=
    existsb (fun j => negb (j =? col)%nat && (cell grid row j =? value)%Z) (seq 0 9) in
  let colHit :=
    existsb (fun i => negb (i =? row)%nat && (cell grid i col =? value)%Z) (seq 0 9) in
  let boxRow := (row / 3) * 3 in
  let boxCol := (col / 3) * 3 in
  let boxHit :=
    existsb (fun i =>
      existsb (fun j =>
        negb (i =? row)%nat && negb (j =? col)%nat && (cell grid i j =? value)%Z)
        (seq boxCol 3))
      (seq boxRow 3) in
  let boxNum := (row / 3) * 3 + col / 3 in
  (if rowHit then [ {| type := RowConflict; position := row |} ] else [])
  ++ (if colHit then [ {| type := ColumnConflict; position := col |} ] else [])
  ++ (if boxHit then [ {| type := BoxConflict; position := boxNum |} ] else []).

(** [matchesChallenge] *)
Definition matchesChallenge (solution challenge : SudokuGrid) : bool :=
  forallb (fun i =>
    forallb (fun j =>
      negb (negb (cell challenge i j =? 0)%Z
            && negb (cell solution i j =? cell challenge i j)%Z))
      (seq 0 9))
    (seq 0 9).

(** [countFilledCells] *)
Definition countFilledCells (grid : SudokuGrid) : nat :=
  fold_left (fun count i =>
    fold_left (fun count j =>
      if negb (cell grid i j =? 0)%Z then S count else count)
      (seq 0 9) count)
    (seq 0 9) 0.

(** [getEmptyCells] *)
Definition getEmptyCells (grid : SudokuGrid) : list (nat * nat) :=
  flat_map (fun i =>
    flat_map (fun j => if (cell grid i j =? 0)%Z then [(i, j)] else [])
      (seq 0 9))
    (seq 0 9).

End SudokuValidator.

(** ** src/constants/index.ts *)

Module Constants.

(** [CHALLENGE_PUZZLES.default] *)
Definition CHALLENGE_PUZZLE_default : SudokuValidator.SudokuGrid :=
  [ [5; 3; 0; 0; 7; 0; 0; 0; 0];
    [6; 0; 0; 1; 9; 5; 0; 0; 0];
    [0; 9; 8; 0; 0; 0; 0; 6; 0];
    [8; 0; 0; 0; 6; 0; 0; 0; 3];
    [4; 0; 0; 8; 0; 3; 0; 0; 1];
    [7; 0; 0; 0; 2; 0; 0; 0; 6];
    [0; 6; 0; 0; 0; 0; 2; 8; 0];
    [0; 0; 0; 4; 1; 9; 0; 0; 5];
    [0; 0; 0; 0; 8; 0; 0; 7; 9] ]%Z.

End Constants.

(** ** src/types/index.d.ts *)

Module ProofData.
Record t := { proof : list Z; publicInputs : list string }.
End ProofData.

Module ProofDataExport.
Record t := {
  challengeId : string;
  proof : string;
  publicInputs : list string;
  timeInMs : Z;
  timestamp : string
}.
End ProofDataExport.

(** ** src/utils/proofUtils.ts *)

Module ProofUtils.
Import JS.

Definition MODULUS : Z :=
  21888242871839275222246405745257275088548364400416034343698204186575808495617%Z.

(** [bytes[0] &= 0x3f] *)
Definition maskTopBits (bytes : list Z) : list Z :=
  match bytes with
  | [] => []
  | b0 :: rest => Z.land b0 0x3f :: rest
  end.

(** [for (i ...) x = (x << 8n) | BigInt(bytes[i])], from [x = 0n]. *)
Definition bigEndian (bytes : list Z) : Z :=
  fold_left (fun x b => Z.lor (Z.shiftl x 8) b) bytes 0%Z.

Definition candidate (bytes : list Z) : Z := bigEndian (maskTopBits bytes).

(** The [for (;;)] loop of [generateFieldElement].  [draws] lists what the
    successive calls of [crypto.getRandomValues(bytes)] put in [bytes];
    the loop ends at the first draw whose candidate is below [MODULUS] and
    hands back the draws it did not use.  [None]: every listed draw was
    rejected, and the loop goes on drawing. *)
Fixpoint sampleLoop (draws : list (list Z)) : option (Z * list (list Z)) :=
  match draws with
  | [] => None
  | bytes :: later =>
      let x := candidate bytes in
      if (x <? MODULUS)%Z then Some (x, later) else sampleLoop later
  end.

(** [generateFieldElement] *)
Definition generateFieldElement (draws : list (list Z))
  : option (string * list (list Z)) :=
  match sampleLoop draws with
  | Some (rand, later) => Some (BigInt_toString rand, later)
  | None => None
  end.

(** [b => b.toString(16).padStart(2, '0')] *)
Definition hexByte (b : Z) : string := padStart 2 "0" (toString16 b).

(** [Array.from(bytes).map(hexByte).join('')] *)
Definition toHex (bytes : list Z) : string := join (map hexByte bytes).

(** [hashProof] *)
Definition hashProof (proof : list Z) : string :=
  let proofStr := toHex (firstn 32 proof) in
  slice proofStr 0 (Some 8%Z) ++ "..." ++ slice proofStr (-8) None.

(** [prepareProofExport]; [now] is [new Date().toISOString()]. *)
Definition prepareProofExport (proof : ProofData.t) (challengeId : string)
    (timeInMs : Z) (now : string) : ProofDataExport.t :=
  let proofHex := toHex (ProofData.proof proof) in
  {| ProofDataExport.challengeId := challengeId;
     ProofDataExport.proof := proofHex;
     ProofDataExport.publicInputs := ProofData.publicInputs proof;
     ProofDataExport.timeInMs := timeInMs;
     ProofDataExport.timestamp := now |}.

(** [formatFieldElement] *)
Definition formatFieldElement (fieldElement : string) : string :=
  slice fieldElement 0 (Some 10%Z) ++ "..." ++ slice fieldElement (-8) None.

(** [fieldElementToString]: [None] where [BigInt] throws. *)
Definition fieldElementToString (fieldElement : string) : option string :=
  match BigInt_ofString fieldElement with
  | Some x => Some (BigInt_toString x)
  | None => None
  end.

(** [formatTime] for a whole number of milliseconds among the safe
    integers.  The source computes on doubles; on this range the rounded
    quotient of a whole number by 1000 or by 60 is less than 1/1000 away
    from the exact one and so has the same [Math.floor], which is [/] here,
    [%] is [Z.rem], and the numbers are printed with all their digits.
    [None] is not an outcome of the code: it marks the arguments this
    definition does not describe, those beyond the safe integers. *)
Definition formatTime (milliseconds : Z) : option string :=
  if isSafeInteger milliseconds then
    let totalSeconds := (milliseconds / 1000)%Z in
    let minutes := (totalSeconds / 60)%Z in
    let seconds := Z.rem totalSeconds 60 in
    if (minutes >? 0)%Z
    then Some (showInt minutes ++ "m " ++ showInt seconds ++ "s")
    else Some (showInt seconds ++ "s")
  else None.

End ProofUtils.

(** ** worker.ts: class [PseudokuGame] *)

Module PseudokuGame.
Import JS SudokuValidator.

Definition CHALLENGE_PUZZLE : SudokuGrid := Constants.CHALLENGE_PUZZLE_default.

Record CircuitInputs := {
  solution : string * SudokuGrid;
  challenge : string * SudokuGrid
}.

(** The external prover ([Noir.execute], [UltraHonkBackend.generateProof],
    [UltraHonkBackend.verifyProof]).  A call either throws (left, with the
    message of the error) or returns (right). *)
Record Prover := {
  execute : CircuitInputs -> string + list Z;
  proverGenerateProof : list Z -> string + ProofData.t;
  verifyProof : ProofData.t -> string + bool
}.

(** The calls made to the prover, by the place they are made at:
    [noir.execute], [backend.generateProof] and [backend.verifyProof] in
    [generateProof], and [backend.verifyProof] in [performVerification]. *)
Inductive ProverCall :=
| CallExecute (inputs : CircuitInputs)
| CallGenerateProof (witness : list Z)
| CallVerifyProof (proofData : ProofData.t)
| CallVerifySubmitted (proofData : ProofData.t).

(** Where an invocation of an [async] method waits: the three [await]s of
    [generateProof], with what was handed to the prover, and the [await]
    of [performVerification]. *)
Inductive Await :=
| AwaitExecute (inputs : CircuitInputs)
| AwaitGenerateProof (witness : list Z)
| AwaitVerifyProof (proofData : ProofData.t)
| AwaitVerification (proofData : ProofData.t).

Inductive StatusType := info | success | error | loading.

(** The fields of the game object, the parts of the page the methods
    below write ([#status], the [disabled] flag of [#generateProofBtn],
    [#proofHash], [#verifyResult]), the invocations of [generateProof] and
    [performVerification] that wait at an [await], oldest first, and the
    calls made to the prover so far, oldest first.  [noir] and [backend]
    say whether the field is non-null. *)
Record Game := {
  grid : SudokuGrid;
  timerInterval : bool;
  elapsedTime : Z;
  fieldElement : string;
  proof : option ProofData.t;
  proofTime : option Z;
  gistUrl : option string;
  noir : bool;
  backend : bool;
  generateProofBtnDisabled : bool;
  status : option (string * StatusType);
  proofHashText : option string;
  verifyResult : option (string * bool);
  pending : list Await;
  proverCalls : list ProverCall
}.

Definition showStatus (message : string) (type : StatusType) (g : Game) : Game :=
  {| grid := grid g; timerInterval := timerInterval g;
     elapsedTime := elapsedTime g; fieldElement := fieldElement g;
     proof := proof g; proofTime := proofTime g; gistUrl := gistUrl g;
     noir := noir g; backend := backend g;
     generateProofBtnDisabled := generateProofBtnDisabled g;
     status := Some (message, type); proofHashText := proofHashText g;
     verifyResult := verifyResult g; pending := pending g;
     proverCalls := proverCalls g |}.

Definition setDisabled (d : bool) (g : Game) : Game :=
  {| grid := grid g; timerInterval := timerInterval g;
     elapsedTime := elapsedTime g; fieldElement := fieldElement g;
     proof := proof g; proofTime := proofTime g; gistUrl := gistUrl g;
     noir := noir g; backend := backend g;
     generateProofBtnDisabled := d;
     status := status g; proofHashText := proofHashText g;
     verifyResult := verifyResult g; pending := pending g;
     proverCalls := proverCalls g |}.

Definition setGrid (gr : SudokuGrid) (g : Game) : Game :=
  {| grid := gr; timerInterval := timerInterval g;
     elapsedTime := elapsedTime g; fieldElement := fieldElement g;
     proof := proof g; proofTime := proofTime g; gistUrl := gistUrl g;
     noir := noir g; backend := backend g;
     generateProofBtnDisabled := generateProofBtnDisabled g;
     status := status g; proofHashText := proofHashText g;
     verifyResult := verifyResult g; pending := pending g;
     proverCalls := proverCalls g |}.

Definition setTimer (running : bool) (g : Game) : Game :=
  {| grid := grid g; timerInterval := running;
     elapsedTime := elapsedTime g; fieldElement := fieldElement g;
     proof := proof g; proofTime := proofTime g; gistUrl := gistUrl g;
     noir := noir g; backend := backend g;
     generateProofBtnDisabled := generateProofBtnDisabled g;
     status := status g; proofHashText := proofHashText g;
     verifyResult := verifyResult g; pending := pending g;
     proverCalls := proverCalls g |}.

Definition called (c : ProverCall) (g : Game) : Game :=
  {| grid := grid g; timerInterval := timerInterval g;
     elapsedTime := elapsedTime g; fieldElement := fieldElement g;
     proof := proof g; proofTime := proofTime g; gistUrl := gistUrl g;
     noir := noir g; backend := backend g;
     generateProofBtnDisabled := generateProofBtnDisabled g;
     status := status g; proofHashText := proofHashText g;
     verifyResult := verifyResult g; pending := pending g;
     proverCalls := proverCalls g ++ [c] |}.

(** The invocation stops at an [await] and joins those that wait. *)
Definition suspend (a : Await) (g : Game) : Game :=
  {| grid := grid g; timerInterval := timerInterval g;
     elapsedTime := elapsedTime g; fieldElement := fieldElement g;
     proof := proof g; proofTime := proofTime g; gistUrl := gistUrl g;
     noir := noir g; backend := backend g;
     generateProofBtnDisabled := generateProofBtnDisabled g;
     status := status g; proofHashText := proofHashText g;
     verifyResult := verifyResult g; pending := pending g ++ [a];
     proverCalls := proverCalls g |}.

Definition setPending (waiting : list Await) (g : Game) : Game :=
  {| grid := grid g; timerInterval := timerInterval g;
     elapsedTime := elapsedTime g; fieldElement := fieldElement g;
     proof := proof g; proofTime := proofTime g; gistUrl := gistUrl g;
     noir := noir g; backend := backend g;
     generateProofBtnDisabled := generateProofBtnDisabled g;
     status := status g; proofHashText := proofHashText g;
     verifyResult := verifyResult g; pending := waiting;
     proverCalls := proverCalls g |}.

(** [updateTimer], the callback of the interval that [startTimer] sets and
    [stopTimer] clears; [elapsed] is [Date.now() - this.startTime].  The
    text of [#timer] is not part of the state. *)
Definition updateTimer (elapsed : Z) (g : Game) : Game :=
  {| grid := grid g; timerInterval := timerInterval g;
     elapsedTime := elapsed; fieldElement := fieldElement g;
     proof := proof g; proofTime := proofTime g; gistUrl := gistUrl g;
     noir := noir g; backend := backend g;
     generateProofBtnDisabled := generateProofBtnDisabled g;
     status := status g; proofHashText := proofHashText g;
     verifyResult := verifyResult g; pending := pending g;
     proverCalls := proverCalls g |}.

(** [showVerifyResult] *)
Definition showVerifyResult (message : string) (isSuccess : bool) (g : Game)
  : Game :=
  {| grid := grid g; timerInterval := timerInterval g;
     elapsedTime := elapsedTime g; fieldElement := fieldElement g;
     proof := proof g; proofTime := proofTime g; gistUrl := gistUrl g;
     noir := noir g; backend := backend g;
     generateProofBtnDisabled := generateProofBtnDisabled g;
     status := status g; proofHashText := proofHashText g;
     verifyResult := Some (message, isSuccess); pending := pending g;
     proverCalls := proverCalls g |}.

(** [this.proof = proofData; this.proofTime = this.elapsedTime] and the
    text of [#proofHash]. *)
Definition keepProof (proofData : ProofData.t) (hash : string) (g : Game) : Game :=
  {| grid := grid g; timerInterval := timerInterval g;
     elapsedTime := elapsedTime g; fieldElement := fieldElement g;
     proof := Some proofData; proofTime := Some (elapsedTime g);
     gistUrl := gistUrl g; noir := noir g; backend := backend g;
     generateProofBtnDisabled := generateProofBtnDisabled g;
     status := status g;
     proofHashText := Some ("Proof Hash: " ++ hash);
     verifyResult := verifyResult g; pending := pending g;
     proverCalls := proverCalls g |}.

(** [/^[1-9]$/.test(value)] *)
Definition isDigit1to9 (value : string) : bool :=
  match value with
  | String c "" => (49 <=? nat_of_ascii c)%nat && (nat_of_ascii c <=? 57)%nat
  | _ => false
  end.

(** [handleCellInput]: [value] is the text of the cell at [(row, col)].
    The classes it puts on the cell are not part of the state. *)
Definition handleCellInput (row col : nat) (value : string) (g : Game) : Game :=
  if negb (value =? "") && negb (isDigit1to9 value) then g
  else
    let v := if (value =? "") then 0%Z
             else match value with
                  | String c _ => Z.of_nat (nat_of_ascii c - 48)
                  | "" => 0%Z
                  end in
    setGrid (setCell (grid g) row col v) g.

(** [checkSolution] *)
Definition checkSolution (g : Game) : bool * Game :=
  let gr := grid g in
  match
    for_return (fun i =>
      for_return (fun j =>
        if (cell gr i j =? 0)%Z then Some "Please fill in all cells" else None)
        (seq 0 9)) (seq 0 9)
  with
  | Some msg => (false, showStatus msg error g)
  | None =>
  match
    for_return (fun i =>
      if negb (hasAllDigits (gridRow gr i))
      then Some ("Row " ++ showNat (i + 1) ++ " is incorrect") else None)
      (seq 0 9)
  with
  | Some msg => (false, showStatus msg error g)
  | None =>
  match
    for_return (fun j =>
      if negb (hasAllDigits (getColumn gr j))
      then Some ("Column " ++ showNat (j + 1) ++ " is incorrect") else None)
      (seq 0 9)
  with
  | Some msg => (false, showStatus msg error g)
  | None =>
  match
    for_return (fun boxNum =>
      if negb (hasAllDigits (getBox gr boxNum))
      then Some ("Box " ++ showNat (boxNum + 1) ++ " is incorrect") else None)
      (seq 0 9)
  with
  | Some msg => (false, showStatus msg error g)
  | None =>
      (true,
       setDisabled false
         (showStatus "Solution is correct! You can now generate a proof."
            success (setTimer false g)))
  end end end end.

(** [hashProof] of the game class. *)
Definition hashProof (proof : list Z) : string :=
  let proofStr := ProofUtils.toHex (firstn 32 proof) in
  "0x" ++ slice proofStr 0 (Some 6%Z) ++ "..." ++ slice proofStr (-6) None.

Definition proofError (message : string) (g : Game) : Game :=
  showStatus ("Error generating proof: " ++ message) error g.

(** [generateProof] is [async]: a call runs to the first [await] and
    returns; the rest runs when the awaited promise settles, and the
    listeners of the page stay live in between.  This is the part before
    the first [await]: the guard, the status, the button, the inputs and
    the call of [noir.execute], given the grid as it is at the call.  A
    [BigInt] that throws is caught at once, without an [await]. *)
Definition generateProof (g : Game) : Game :=
  if negb (noir g) || negb (backend g) then
    showStatus "Proof system not initialized. Please refresh the page." error g
  else
    let g := showStatus "Generating proof... This may take a moment." loading g in
    let g := setDisabled true g in
    match BigInt_ofString (fieldElement g) with
    | None =>
        setDisabled false
          (proofError ("Cannot convert " ++ fieldElement g ++ " to a BigInt") g)
    | Some fieldValue =>
        let inputs :=
          {| solution := (BigInt_toString fieldValue, grid g);
             challenge := (BigInt_toString fieldValue, CHALLENGE_PUZZLE) |} in
        suspend (AwaitExecute inputs) (called (CallExecute inputs) g)
    end.

(** An invocation that waits at [a] goes on once the promise has settled:
    a rejected promise throws at the [await] and, in [generateProof], goes
    to the [catch] and then to the last statement, which enables the
    button; a fulfilled one goes to the next call and the next [await], or
    to the end of the method.  The state it goes on in is the state of that
    moment, not the one it was called in.  (The check mark and the cross
    of the two last messages are written in UTF-8.) *)
Definition resume (P : Prover) (a : Await) (g : Game) : Game :=
  match a with
  | AwaitExecute inputs =>
      match execute P inputs with
      | inl message => setDisabled false (proofError message g)
      | inr witness =>
          suspend (AwaitGenerateProof witness)
            (called (CallGenerateProof witness) g)
      end
  | AwaitGenerateProof witness =>
      match proverGenerateProof P witness with
      | inl message => setDisabled false (proofError message g)
      | inr proofData =>
          suspend (AwaitVerifyProof proofData)
            (called (CallVerifyProof proofData) g)
      end
  | AwaitVerifyProof proofData =>
      setDisabled false
        match verifyProof P proofData with
        | inl message => proofError message g
        | inr true =>
            showStatus "Proof generated and verified successfully!" success
              (keepProof proofData (hashProof (ProofData.proof proofData)) g)
        | inr false =>
            showStatus "Proof verification failed. Please try again." error g
        end
  | AwaitVerification proofData =>
      match verifyProof P proofData with
      | inl message => showVerifyResult ("Error: " ++ message) false g
      | inr true => showVerifyResult "✓ Valid proof!" true g
      | inr false => showVerifyResult "✗ Invalid proof" false g
      end
  end.

(** [reset]; [confirmed] is the answer to the [confirm] dialog and
    [newFieldElement] what [generateFieldElement] returns. *)
Definition reset (confirmed : bool) (newFieldElement : string) (g : Game) : Game :=
  if confirmed then
    showStatus "Game reset. Good luck!" info
      {| grid := CHALLENGE_PUZZLE; timerInterval := true;
         elapsedTime := elapsedTime g; fieldElement := newFieldElement;
         proof := None; proofTime := proofTime g; gistUrl := None;
         noir := noir g; backend := backend g;
         generateProofBtnDisabled := true;
         status := status g; proofHashText := proofHashText g;
         verifyResult := verifyResult g; pending := pending g;
         proverCalls := proverCalls g |}
  else g.

(** [giveHint] *)
Definition giveHint (g : Game) : Game :=
  if forallb (fun i => forallb (fun j => negb (cell (grid g) i j =? 0)%Z) (seq 0 9))
       (seq 0 9)
  then showStatus "No empty cells to fill!" info g
  else showStatus "Hint: Try using the process of elimination for empty cells."
         info g.

(** [performVerification] up to its call of [backend.verifyProof]:
    either a message is shown and the method returns, or the backend is
    asked to verify the reconstructed proof.  [parseArray] is
    [JSON.parse] followed by the [Array.isArray] test ([None] when either
    fails). *)
Inductive Verification :=
| Shown (message : string)
| Submitted (proof : ProofData.t).

Definition cleanProofHex (proofHexInput : string) : string :=
  removeWhiteSpace (strip0x (trim proofHexInput)).

Definition performVerification (parseArray : string -> option (list string))
    (backend : bool) (publicInputsInput proofHexInput : string) : Verification :=
  if (publicInputsInput =? "") || (proofHexInput =? "") then
    Shown "Please enter both public inputs and proof hex"
  else
    match parseArray publicInputsInput with
    | None => Shown "Invalid public inputs format. Expected JSON array of strings."
    | Some publicInputs =>
        let clean := cleanProofHex proofHexInput in
        if negb (testHex clean) || negb (String.length clean mod 2 =? 0)%nat then
          Shown "Invalid proof hex format"
        else
          match matchPairs clean with
          | None => Shown "Error: Cannot read properties of null (reading 'map')"
          | Some pairs =>
              let proofArray := Uint8Array_from (map parseInt16 pairs) in
              if negb backend then Shown "Proof system not initialized"
              else Submitted {| ProofData.proof := proofArray;
                                ProofData.publicInputs := publicInputs |}
          end
    end.

(** The part of [performVerification] after the texts are read: a message
    is shown, or [backend.verifyProof] is called and the method waits for
    its answer.  [parsed] is what [JSON.parse] and the [Array.isArray] test
    make of [publicInputsInput]. *)
Definition submitVerification (publicInputsInput : string)
    (parsed : option (list string)) (proofHexInput : string) (g : Game) : Game :=
  match performVerification (fun _ => parsed) (backend g)
          publicInputsInput proofHexInput with
  | Shown message => showVerifyResult message false g
  | Submitted proofData =>
      suspend (AwaitVerification proofData)
        (called (CallVerifySubmitted proofData) g)
  end.

(** What happens to the game: the listeners of [setupEventListeners] that
    read or write the grid, the proof or the button or that call the
    prover, the ticks of the timer and the settling of an awaited promise.
    A disabled button does not fire its click listener, and a cleared
    interval does not tick.  [ClickVerify] carries the two texts of the
    dialog and the parsed public inputs; [Settle k] is the moment the
    promise that the [k]-th waiting invocation awaits settles.  The
    listeners for the gist, for sharing and for copying are not part of it:
    of the fields above they write [gistUrl] and [status] only. *)
Inductive Event :=
| CellInput (row col : nat) (value : string)
| ClickCheck
| ClickGenerateProof
| ClickReset (confirmed : bool) (newFieldElement : string)
| ClickHint
| ClickVerify (publicInputsInput : string) (parsed : option (list string))
    (proofHexInput : string)
| Settle (k : nat)
| Tick (elapsed : Z).

Definition dispatch (P : Prover) (e : Event) (g : Game) : Game :=
  match e with
  | CellInput row col value => handleCellInput row col value g
  | ClickCheck => snd (checkSolution g)
  | ClickGenerateProof =>
      if generateProofBtnDisabled g then g else generateProof g
  | ClickReset confirmed fe => reset confirmed fe g
  | ClickHint => giveHint g
  | ClickVerify publicInputsInput parsed proofHexInput =>
      submitVerification publicInputsInput parsed proofHexInput g
  | Settle k =>
      match pending g !! k with
      | Some a => resume P a (setPending (delete k (pending g)) g)
      | None => g
      end
  | Tick elapsed => if timerInterval g then updateTimer elapsed g else g
  end.

Definition run (P : Prover) (events : list Event) (g : Game) : Game :=
  fold_left (fun g e => dispatch P e g) events g.

(** [getConflicts] of the game class, on [this.grid]. *)
Definition getConflicts (g : Game) (row col : nat) (value : Z) : list string :=
  let rowHit :=
    existsb (fun j => negb (j =? col)%nat && (cell (grid g) row j =? value)%Z)
      (seq 0 9) in
  let colHit :=
    existsb (fun i => negb (i =? row)%nat && (cell (grid g) i col =? value)%Z)
      (seq 0 9) in
  let boxRow := (row / 3) * 3 in
  let boxCol := (col / 3) * 3 in
  let boxHit :=
    existsb (fun i =>
      existsb (fun j =>
        negb (i =? row)%nat && negb (j =? col)%nat
        && (cell (grid g) i j =? value)%Z)
        (seq boxCol 3))
      (seq boxRow 3) in
  (if rowHit then ["Row " ++ showNat (row + 1)] else [])
  ++ (if colHit then ["Column " ++ showNat (col + 1)] else [])
  ++ (if boxHit then ["Box"] else []).

(** [this.fixedCells] as [initializeGame] fills it:
    [fixedCells[i][j] = CHALLENGE_PUZZLE[i][j] !== 0].  [renderGrid] makes
    the inputs of these cells read-only. *)
Definition fixedCells : list (list bool) :=
  map (fun i => map (fun j => negb (cell CHALLENGE_PUZZLE i j =? 0)%Z) (seq 0 9))
      (seq 0 9).

(** The [keydown] listener on a focused cell: the cell that has the focus
    after the key.  Keys other than the five leave it where it is. *)
Definition nextCell (key : string) (row col : nat) : nat * nat :=
  if key =? "ArrowUp" then (Nat.max 0 (row - 1), col)
  else if key =? "ArrowDown" then (Nat.min 8 (row + 1), col)
  else if key =? "ArrowLeft" then (row, Nat.max 0 (col - 1))
  else if key =? "ArrowRight" then (row, Nat.min 8 (col + 1))
  else if key =? "Enter" then
    if (col <? 8)%nat then (row, col + 1)
    else if (row <? 8)%nat then (row + 1, 0)
    else (row, col)
  else (row, col).

End PseudokuGame.

(** ** src/utils/githubOauth.ts *)

Module GitHubOAuth.

Record Request := { url : string; code : string; state : string }.

(** What [fetch] and [response.json()] give: the request fails, or a
    response arrives with its [ok] flag and, when its body parses, the
    [access_token] of the body. *)
Inductive FetchResult :=
| NetworkError
| Response (ok : bool) (body : option (option string)).

(** The browser around the call: session storage, the configured
    [OAUTH_API_ENDPOINT] and the requests sent so far, oldest first. *)
Record Browser := {
  sessionStorage : gmap string string;
  OAUTH_API_ENDPOINT : option string;
  requests : list Request
}.

(** How the promise of an async method settles. *)
Inductive Settled (A : Type) :=
| Fulfilled (value : A)
| Rejected (message : string).
Arguments Fulfilled {A} value.
Arguments Rejected {A} message.

Definition removeItem (key : string) (w : Browser) : Browser :=
  {| sessionStorage := delete key (sessionStorage w);
     OAUTH_API_ENDPOINT := OAUTH_API_ENDPOINT w;
     requests := requests w |}.

Definition sent (r : Request) (w : Browser) : Browser :=
  {| sessionStorage := sessionStorage w;
     OAUTH_API_ENDPOINT := OAUTH_API_ENDPOINT w;
     requests := requests w ++ [r] |}.

(** [handleCallback] *)
Definition handleCallback (fetch : Request -> FetchResult)
    (code state : string) (w : Browser) : Settled (option string) * Browser :=
  let savedState := sessionStorage w !! "oauth_state" in
  if negb (bool_decide (Some state = savedState)) then
    (Rejected "Invalid OAuth state", w)
  else
    let w := removeItem "oauth_state" w in
    match OAUTH_API_ENDPOINT w with
    | None | Some "" =>
        (Rejected "Backend server not configured for OAuth", w)
    | Some backendUrl =>
        let request := {| url := backendUrl ++ "/auth/github/callback";
                          code := code; state := state |} in
        let w := sent request w in
        match fetch request with
        | NetworkError => (Fulfilled None, w)
        | Response false _ => (Fulfilled None, w)
        | Response true None => (Fulfilled None, w)
        | Response true (Some token) => (Fulfilled token, w)
        end
    end.

(** [generateState]; [randomBytes] is what [crypto.getRandomValues] puts
    in the 16-byte array. *)
Definition generateState (randomBytes : list Z) : string :=
  JS.join (map (fun byte => JS.padStart 2 "0" (JS.toString16 byte)) randomBytes).

(** [initiateOAuth]: the browser after the state is stored, and the address
    [window.location.href] is set to.  [origin] is
    [window.location.origin]. *)
Definition initiateOAuth (origin clientId : string) (randomBytes : list Z)
    (w : Browser) : Browser * string :=
  let redirectUri := JS.encodeURIComponent (origin ++ "/callback") in
  let scope := JS.encodeURIComponent "gist" in
  let state := generateState randomBytes in
  let w := {| sessionStorage := <["oauth_state" := state]> (sessionStorage w);
              OAUTH_API_ENDPOINT := OAUTH_API_ENDPOINT w;
              requests := requests w |} in
  (w, "https://github.com/login/oauth/authorize" ++ "?client_id=" ++ clientId
      ++ "&redirect_uri=" ++ redirectUri ++ "&scope=" ++ scope
      ++ "&state=" ++ state).

End GitHubOAuth.

(** * Part 2: the vocabulary of the statements

    Nothing below is code of the repository: these are the predicates, the
    specification-side definitions and the sample values the theorems of
    Part 3 are stated with. *)

Import JS SudokuValidator ProofUtils.

(** ** Grids *)

Definition is9x9 (grid : SudokuGrid) : Prop :=
  length grid = 9 /\ Forall (fun r : list Z => length r = 9) grid.

(** A solution of the default challenge. *)
Definition solvedGrid : SudokuGrid :=
  [ [5; 3; 4; 6; 7; 8; 9; 1; 2];
    [6; 7; 2; 1; 9; 5; 3; 4; 8];
    [1; 9; 8; 3; 4; 2; 5; 6; 7];
    [8; 5; 9; 7; 6; 1; 4; 2; 3];
    [4; 2; 6; 8; 5; 3; 7; 9; 1];
    [7; 1; 3; 9; 2; 4; 8; 5; 6];
    [9; 6; 1; 5; 3; 7; 2; 8; 4];
    [2; 8; 7; 4; 1; 9; 6; 3; 5];
    [3; 4; 5; 2; 8; 6; 1; 7; 9] ]%Z.

(** The cells of the 3 x 3 box that holds [(row, col)]. *)
Definition inBoxOf (row col i j : nat) : Prop :=
  i / 3 = row / 3 /\ j / 3 = col / 3.

(** The box scan of [getConflicts], on its own. *)
Definition boxHit (grid : SudokuGrid) (row col : nat) (value : Z) : bool :=
  existsb (fun i =>
    existsb (fun j =>
      negb (i =? row)%nat && negb (j =? col)%nat && (cell grid i j =? value)%Z)
      (seq (col / 3 * 3) 3))
    (seq (row / 3 * 3) 3).

Definition inRange19 (v : Z) : Prop := (1 <= v <= 9)%Z.

(** ** The scan order of the consistency check, as the specification words
    it *)

Inductive ScanCheck :=
| CellCheck (i j : nat)
| RowCheck (i : nat)
| ColumnCheck (j : nat)
| BoxCheck (b : nat).

(** Row-major cells, then rows 0..8, then columns 0..8, then boxes 0..8. *)
Definition scanOrder : list ScanCheck :=
  flat_map (fun i => map (CellCheck i) (seq 0 9)) (seq 0 9)
  ++ map RowCheck (seq 0 9)
  ++ map ColumnCheck (seq 0 9)
  ++ map BoxCheck (seq 0 9).

Definition digits19 : list Z := [1; 2; 3; 4; 5; 6; 7; 8; 9]%Z.

(** The values contain each of 1..9 exactly once. *)
Definition eachDigitOnce (vals : list Z) : bool :=
  forallb (fun d => (count_occ Z.eq_dec vals d =? 1)%nat) digits19.

(** Box [b] has its top-left cell at [(b / 3 * 3, b mod 3 * 3)]. *)
Definition boxCells (b : nat) : list (nat * nat) :=
  flat_map (fun di => map (fun dj => (b / 3 * 3 + di, b mod 3 * 3 + dj)) (seq 0 3))
           (seq 0 3).

(** Whether a check of the scan order fails on the grid. *)
Definition violated (grid : SudokuGrid) (c : ScanCheck) : bool :=
  match c with
  | CellCheck i j =>
      (cell grid i j =? 0)%Z || (cell grid i j <? 1)%Z || (cell grid i j >? 9)%Z
  | RowCheck i => negb (eachDigitOnce (map (fun j => cell grid i j) (seq 0 9)))
  | ColumnCheck j => negb (eachDigitOnce (map (fun i => cell grid i j) (seq 0 9)))
  | BoxCheck b => negb (eachDigitOnce (map (fun p => cell grid (fst p) (snd p))
                                          (boxCells b)))
  end.

(** The message of a violated check. *)
Definition describe (grid : SudokuGrid) (c : ScanCheck) : string :=
  match c with
  | CellCheck i j =>
      if (cell grid i j =? 0)%Z
      then "Cell at row " ++ showNat (i + 1) ++ ", column " ++ showNat (j + 1)
           ++ " is empty"
      else "Invalid value at row " ++ showNat (i + 1) ++ ", column "
           ++ showNat (j + 1)
  | RowCheck i => "Row " ++ showNat (i + 1) ++ " contains duplicate values"
  | ColumnCheck j => "Column " ++ showNat (j + 1) ++ " contains duplicate values"
  | BoxCheck b =>
      "Box at position (" ++ showNat (b / 3 + 1) ++ ", " ++ showNat (b mod 3 + 1)
      ++ ") contains duplicate values"
  end.

Definition firstViolation (grid : SudokuGrid) : option ScanCheck :=
  List.find (violated grid) scanOrder.

Definition report (grid : SudokuGrid) (v : option ScanCheck) : ValidationResult :=
  match v with
  | Some c => {| valid := false; error := Some (describe grid c) |}
  | None => {| valid := true; error := None |}
  end.

(** ** Random draws *)

(** What [new Uint8Array(32)] holds after [crypto.getRandomValues]. *)
Definition wellFormedDraw (bytes : list Z) : Prop :=
  length bytes = 32%nat /\ Forall u8 bytes.

(** ** Hexadecimal strings *)

Definition isLowerHex (c : ascii) : bool :=
  let n := nat_of_ascii c in
  ((48 <=? n)%nat && (n <=? 57)%nat) || ((97 <=? n)%nat && (n <=? 102)%nat).

Fixpoint lowerHexString (s : string) : bool :=
  match s with
  | "" => true
  | String c rest => isLowerHex c && lowerHexString rest
  end.

(** The check run on each of the 256 bytes: two lower-case digits that
    [parseInt] reads back. *)
Definition hexByte_ok (b : Z) : bool :=
  match hexByte b with
  | String c1 (String c2 "") =>
      isLowerHex c1 && isLowerHex c2
      && match parseInt16 (hexByte b) with
         | Some v => (v =? b)%Z
         | None => false
         end
  | _ => false
  end.

(** ** Sample values *)

Definition sampleArtifact : ProofData.t :=
  {| ProofData.proof := [0; 10; 255; 16]%Z; ProofData.publicInputs := ["7"; "12"] |}.

Definition emptyArtifact : ProofData.t :=
  {| ProofData.proof := []; ProofData.publicInputs := ["7"; "12"] |}.

(** The bytes 0, 1, ..., 31 followed by [last]. *)
Definition proofEndingIn (last : Z) : list Z :=
  (map Z.of_nat (seq 0 32) ++ [last])%list.

(** A browser that waits for the callback of a flow started with state
    [5f2a], and a backend that answers every exchange with a token. *)
Definition pendingBrowser : GitHubOAuth.Browser :=
  {| GitHubOAuth.sessionStorage := {[ "oauth_state" := "5f2a" ]};
     GitHubOAuth.OAUTH_API_ENDPOINT := Some "https://backend.example";
     GitHubOAuth.requests := [] |}.

Definition tokenBackend (r : GitHubOAuth.Request) : GitHubOAuth.FetchResult :=
  GitHubOAuth.Response true (Some (Some "gho_token")).

(** A prover whose circuit execution fails. *)
Definition failingProver : PseudokuGame.Prover :=
  {| PseudokuGame.execute := fun _ => inl "Cannot satisfy constraint";
     PseudokuGame.proverGenerateProof := fun _ => inl "unreachable";
     PseudokuGame.verifyProof := fun _ => inl "unreachable" |}.

(** The game once the prover is initialised, before any reset. *)
Definition startedGame (grid : SudokuGrid) : PseudokuGame.Game :=
  {| PseudokuGame.grid := grid; PseudokuGame.timerInterval := true;
     PseudokuGame.elapsedTime := 0; PseudokuGame.fieldElement := "42";
     PseudokuGame.proof := None; PseudokuGame.proofTime := None;
     PseudokuGame.gistUrl := None; PseudokuGame.noir := true;
     PseudokuGame.backend := true;
     PseudokuGame.generateProofBtnDisabled := true;
     PseudokuGame.status := None; PseudokuGame.proofHashText := None;
     PseudokuGame.verifyResult := None; PseudokuGame.pending := [];
     PseudokuGame.proverCalls := [] |}.

(** ** Rows, columns, boxes and peers *)

Definition rowValues (grid : SudokuGrid) (k : nat) : list Z :=
  map (fun j => cell grid k j) (seq 0 9).

Definition columnValues (grid : SudokuGrid) (k : nat) : list Z :=
  map (fun i => cell grid i k) (seq 0 9).

Definition boxValues (grid : SudokuGrid) (k : nat) : list Z :=
  map (fun p => cell grid (fst p) (snd p)) (boxCells k).

(** The other cells of the row, of the column and of the box of
    [(row, col)]. *)
Definition peer (row col i j : nat) : Prop :=
  i < 9 /\ j < 9 /\ (i, j) <> (row, col)
  /\ (i = row \/ j = col \/ inBoxOf row col i j).

(** The row scan and the column scan of [getConflicts], on their own. *)
Definition rowHit (grid : SudokuGrid) (row col : nat) (value : Z) : bool :=
  existsb (fun j => negb (j =? col)%nat && (cell grid row j =? value)%Z) (seq 0 9).

Definition colHit (grid : SudokuGrid) (row col : nat) (value : Z) : bool :=
  existsb (fun i => negb (i =? row)%nat && (cell grid i col =? value)%Z) (seq 0 9).

(** No cell holds the value of one of its peers. *)
Definition distinctPeers (grid : SudokuGrid) : Prop :=
  forall row col i j, row < 9 -> col < 9 -> peer row col i j ->
    cell grid i j <> cell grid row col.

(** ** States and traces of the game *)

(** A prover that accepts whatever it is given. *)
Definition acceptingProver : PseudokuGame.Prover :=
  {| PseudokuGame.execute := fun _ => inr [1; 2; 3]%Z;
     PseudokuGame.proverGenerateProof := fun witness =>
       inr {| ProofData.proof := (witness ++ [4])%Z%list;
              ProofData.publicInputs := ["42"] |};
     PseudokuGame.verifyProof := fun _ => inr true |}.

Definition cellsIn09 (grid : SudokuGrid) : Prop :=
  forall i j, i < 9 -> j < 9 -> (0 <= cell grid i j <= 9)%Z.

(** The stored proof, if any, is one the verifier accepts. *)
Definition storedProofVerified (P : PseudokuGame.Prover) (g : PseudokuGame.Game)
  : Prop :=
  forall proofData, PseudokuGame.proof g = Some proofData ->
    PseudokuGame.verifyProof P proofData = inr true.

(** Every input event comes from a cell of the grid. *)
Definition inputsInGrid (events : list PseudokuGame.Event) : Prop :=
  Forall (fun e =>
    match e with
    | PseudokuGame.CellInput row col _ => row < 9 /\ col < 9
    | _ => True
    end) events.

(** Every input event comes from a cell that is not a fixed cell. *)
Definition inputsInFreeCells (events : list PseudokuGame.Event) : Prop :=
  Forall (fun e =>
    match e with
    | PseudokuGame.CellInput row col _ =>
        row < 9 /\ col < 9
        /\ nth col (nth row PseudokuGame.fixedCells []) true = false
    | _ => True
    end) events.

(** ** Decoding hexadecimal text *)

(** [c.toLowerCase()] for a letter A..Z, other characters unchanged. *)
Definition lowerChar (c : ascii) : ascii :=
  let n := nat_of_ascii c in
  if (65 <=? n)%nat && (n <=? 90)%nat then ascii_of_nat (n + 32) else c.

Fixpoint toLowerCase (s : string) : string :=
  match s with
  | "" => ""
  | String c rest => String (lowerChar c) (toLowerCase rest)
  end.

(** The 22 hexadecimal digits. *)
Definition hexChars : list ascii := list_ascii_of_string "0123456789abcdefABCDEF".

(** The check run on each pair of hexadecimal digits: the pair is read as a
    byte, and the byte is written back as the same two digits in lower
    case. *)
Definition hexPair_ok (c d : ascii) : bool :=
  negb (isLineTerminator c) && negb (isLineTerminator d)
  && match parseInt16 (String c (String d "")) with
     | Some v =>
         (0 <=? v)%Z && (v <? 256)%Z
         && (hexByte v =? String (lowerChar c) (String (lowerChar d) ""))
     | None => false
     end.

(** What [performVerification] makes of a cleaned text. *)
Definition decodeHex (clean : string) : list Z :=
  Uint8Array_from (map parseInt16 (matchPairs_list clean)).

(** ** The order of the calls to the prover *)

(** Every occurrence of the call [c] in the log comes after a call that
    [justifies] it. *)
Definition comesAfter (log : list PseudokuGame.ProverCall)
    (c : PseudokuGame.ProverCall)
    (justifies : PseudokuGame.ProverCall -> Prop) : Prop :=
  forall before after, log = (before ++ c :: after)%list ->
    exists earlier, In earlier before /\ justifies earlier.

(** In [generateProof], [backend.generateProof] is called on a witness
    that an earlier [noir.execute] returned, and [backend.verifyProof] on a
    proof that an earlier [backend.generateProof] returned. *)
Definition inOrder (P : PseudokuGame.Prover)
    (log : list PseudokuGame.ProverCall) : Prop :=
  (forall witness,
     comesAfter log (PseudokuGame.CallGenerateProof witness)
       (fun c => exists inputs,
          c = PseudokuGame.CallExecute inputs
          /\ PseudokuGame.execute P inputs = inr witness))
  /\ (forall proofData,
       comesAfter log (PseudokuGame.CallVerifyProof proofData)
         (fun c => exists witness,
            c = PseudokuGame.CallGenerateProof witness
            /\ PseudokuGame.proverGenerateProof P witness = inr proofData)).

Definition isExecute (c : PseudokuGame.ProverCall) : bool :=
  match c with PseudokuGame.CallExecute _ => true | _ => false end.

Definition isGenerateProof (c : PseudokuGame.ProverCall) : bool :=
  match c with PseudokuGame.CallGenerateProof _ => true | _ => false end.

Definition isVerifyProof (c : PseudokuGame.ProverCall) : bool :=
  match c with PseudokuGame.CallVerifyProof _ => true | _ => false end.

Definition waitsForExecute (a : PseudokuGame.Await) : bool :=
  match a with PseudokuGame.AwaitExecute _ => true | _ => false end.

Definition waitsForGenerateProof (a : PseudokuGame.Await) : bool :=
  match a with PseudokuGame.AwaitGenerateProof _ => true | _ => false end.

(** How many elements of a list are of a kind. *)
Definition count {A : Type} (kind : A -> bool) (l : list A) : nat :=
  length (List.filter kind l).

(** What the order of the calls rests on: the log is in order, an
    invocation that waits for [execute] or [backend.generateProof] has
    made that call, and each call of a step answers to one call of the step
    before that no other step has used. *)
Definition callsConsistent (P : PseudokuGame.Prover) (g : PseudokuGame.Game)
  : Prop :=
  inOrder P (PseudokuGame.proverCalls g)
  /\ (forall inputs,
       In (PseudokuGame.AwaitExecute inputs) (PseudokuGame.pending g) ->
       In (PseudokuGame.CallExecute inputs) (PseudokuGame.proverCalls g))
  /\ (forall witness,
       In (PseudokuGame.AwaitGenerateProof witness) (PseudokuGame.pending g) ->
       In (PseudokuGame.CallGenerateProof witness) (PseudokuGame.proverCalls g))
  /\ count isGenerateProof (PseudokuGame.proverCalls g)
     + count waitsForExecute (PseudokuGame.pending g)
     <= count isExecute (PseudokuGame.proverCalls g)
  /\ count isVerifyProof (PseudokuGame.proverCalls g)
     + count waitsForGenerateProof (PseudokuGame.pending g)
     <= count isGenerateProof (PseudokuGame.proverCalls g).

(** * Part 3: properties *)

(** ** The embedding on concrete inputs *)

Example isValid_solvedGrid :
  isValid solvedGrid = {| valid := true; error := None |}.
Proof. vm_compute. reflexivity. Qed.

Example isValid_challenge :
  isValid Constants.CHALLENGE_PUZZLE_default
  = {| valid := false; error := Some "Cell at row 1, column 3 is empty" |}.
Proof. vm_compute. reflexivity. Qed.

Example isValid_duplicate_in_row :
  isValid (setCell solvedGrid 0 2 3)
  = {| valid := false; error := Some "Row 1 contains duplicate values" |}.
Proof. vm_compute. reflexivity. Qed.

Example isValid_out_of_range :
  isValid (setCell (setCell solvedGrid 4 4 12) 7 0 0)
  = {| valid := false; error := Some "Invalid value at row 5, column 5" |}.
Proof. vm_compute. reflexivity. Qed.

Example getConflicts_box_only :
  getConflicts Constants.CHALLENGE_PUZZLE_default 1 1 8
  = [ {| type := BoxConflict; position := 0 |} ].
Proof. vm_compute. reflexivity. Qed.

Example toHex_bytes : toHex [0; 10; 255; 16]%Z = "000aff10".
Proof. vm_compute. reflexivity. Qed.

Example hashProof_short : ProofUtils.hashProof [0; 1; 2]%Z = "000102...000102".
Proof. vm_compute. reflexivity. Qed.

Example generateFieldElement_redraws :
  (MODULUS <=? candidate (repeat 255 32))%Z = true
  /\ generateFieldElement [repeat 255%Z 32; repeat 7%Z 32; repeat 1%Z 32]
     = Some ("3178606371220444580254889784552217078325058402586211561867463090413301597959",
             [repeat 1%Z 32]).
Proof. split; vm_compute; reflexivity. Qed.

Example performVerification_upper_case_and_spaces :
  PseudokuGame.performVerification (fun _ => Some ["7"; "12"]) true "[7, 12]"
    "  0x00 0A fF 10 "
  = PseudokuGame.Submitted sampleArtifact.
Proof. vm_compute. reflexivity. Qed.

Example performVerification_odd_length :
  PseudokuGame.performVerification (fun _ => Some ["7"; "12"]) true "[7, 12]" "abc"
  = PseudokuGame.Shown "Invalid proof hex format".
Proof. vm_compute. reflexivity. Qed.

Example handleCallback_exchanges_on_match :
  GitHubOAuth.handleCallback tokenBackend "code" "5f2a" pendingBrowser
  = (GitHubOAuth.Fulfilled (Some "gho_token"),
     {| GitHubOAuth.sessionStorage := delete "oauth_state" {[ "oauth_state" := "5f2a" ]};
        GitHubOAuth.OAUTH_API_ENDPOINT := Some "https://backend.example";
        GitHubOAuth.requests :=
          [ {| GitHubOAuth.url := "https://backend.example/auth/github/callback";
               GitHubOAuth.code := "code"; GitHubOAuth.state := "5f2a" |} ] |}).
Proof. reflexivity. Qed.

(** ** Grids *)

Lemma is9x9_challenge : is9x9 Constants.CHALLENGE_PUZZLE_default.
Proof. split; [reflexivity | repeat constructor]. Qed.

Lemma is9x9_solvedGrid : is9x9 solvedGrid.
Proof. split; [reflexivity | repeat constructor]. Qed.

Lemma is9x9_row grid i : is9x9 grid -> i < 9 -> length (gridRow grid i) = 9.
Proof.
  intros [Hlen Hrows] Hi. unfold gridRow.
  rewrite Forall_forall in Hrows. apply Hrows.
  apply list_elem_of_In, nth_In. lia.
Qed.

Lemma nth_seq_self (l : list Z) :
  map (fun j => nth j l 0%Z) (seq 0 (length l)) = l.
Proof.
  induction l as [|x l IH]; [reflexivity|].
  cbn [length seq map nth]. f_equal.
  rewrite <- seq_shift, map_map. exact IH.
Qed.

Lemma gridRow_cells grid i :
  is9x9 grid -> i < 9 -> gridRow grid i = map (cell grid i) (seq 0 9).
Proof.
  intros Hg Hi. pose proof (is9x9_row grid i Hg Hi) as Hlen.
  unfold cell. rewrite <- Hlen. symmetry. apply nth_seq_self.
Qed.

Lemma cell_setCell_same grid i j v :
  is9x9 grid -> i < 9 -> j < 9 -> cell (setCell grid i j v) i j = v.
Proof.
  intros Hg Hi Hj. pose proof (is9x9_row grid i Hg Hi) as Hlen.
  destruct Hg as [Hn _]. unfold cell, setCell, gridRow.
  rewrite !nth_lookup, list_lookup_insert_eq by lia. cbn.
  rewrite list_lookup_insert_eq; [reflexivity|].
  unfold gridRow in Hlen. rewrite nth_lookup in Hlen. lia.
Qed.

Lemma cell_setCell_other grid i j v i' j' :
  is9x9 grid -> i < 9 -> (i', j') <> (i, j) ->
  cell (setCell grid i j v) i' j' = cell grid i' j'.
Proof.
  intros [Hn _] Hi Hne. unfold cell, setCell, gridRow.
  destruct (decide (i' = i)) as [->|Hii].
  - rewrite !nth_lookup, list_lookup_insert_eq by lia. cbn.
    rewrite list_lookup_insert_ne by congruence. reflexivity.
  - rewrite !nth_lookup, list_lookup_insert_ne by congruence. reflexivity.
Qed.

Lemma is9x9_setCell grid i j v : is9x9 grid -> is9x9 (setCell grid i j v).
Proof.
  intros [Hn Hrows]. unfold setCell. split.
  - rewrite length_insert. exact Hn.
  - rewrite Forall_forall in *. intros r Hr.
    apply list_elem_of_lookup in Hr as [k Hk].
    destruct (decide (k = i)) as [->|Hki].
    + destruct (decide (i < length grid)) as [Hlt|Hge].
      * rewrite list_lookup_insert_eq in Hk by exact Hlt.
        injection Hk as <-. rewrite length_insert.
        unfold gridRow. apply Hrows, list_elem_of_In, nth_In. exact Hlt.
      * rewrite list_insert_ge in Hk by lia.
        apply Hrows, list_elem_of_lookup. eauto.
    + rewrite list_lookup_insert_ne in Hk by congruence.
      apply Hrows, list_elem_of_lookup. eauto.
Qed.

(** ** [matchesChallenge] *)

Lemma matchesChallenge_true_iff (candidate challenge : SudokuGrid) :
  matchesChallenge candidate challenge = true <->
  forall i j, i < 9 -> j < 9 ->
    cell challenge i j <> 0%Z -> cell candidate i j = cell challenge i j.
Proof.
  unfold matchesChallenge. rewrite forallb_forall. split.
  - intros H i j Hi Hj Hclue.
    specialize (H i). rewrite forallb_forall in H.
    assert (Hin : forall k, k < 9 -> In k (seq 0 9)) by (intros; apply in_seq; lia).
    specialize (H (Hin i Hi) j (Hin j Hj)).
    destruct (Z.eqb_spec (cell challenge i j) 0); [contradiction|].
    destruct (Z.eqb_spec (cell candidate i j) (cell challenge i j)); [assumption|].
    discriminate H.
  - intros H i Hi. apply forallb_forall. intros j Hj.
    apply in_seq in Hi, Hj.
    destruct (Z.eqb_spec (cell challenge i j) 0); [reflexivity|].
    rewrite (H i j) by (lia || assumption).
    rewrite Z.eqb_refl. reflexivity.
Qed.

(** C7.  On 9 x 9 grids [matchesChallenge] holds exactly when the candidate
    repeats every non-zero cell of the challenge; overwriting a clue cell of
    any candidate with another value makes it fail, and what the candidate
    holds where the challenge is zero does not matter. *)
Theorem matchesChallenge_clues (candidate challenge : SudokuGrid) :
  is9x9 candidate -> is9x9 challenge ->
  (matchesChallenge candidate challenge = true <->
   forall i j, i < 9 -> j < 9 ->
     cell challenge i j <> 0%Z -> cell candidate i j = cell challenge i j)
  /\ (forall i j d, i < 9 -> j < 9 ->
        cell challenge i j <> 0%Z -> d <> cell challenge i j ->
        matchesChallenge (setCell candidate i j d) challenge = false)
  /\ (forall i j d, i < 9 -> j < 9 ->
        cell challenge i j = 0%Z ->
        matchesChallenge (setCell candidate i j d) challenge
        = matchesChallenge candidate challenge).
Proof.
  intros Hcand Hchal. split; [apply matchesChallenge_true_iff|]. split.
  - intros i j d Hi Hj Hclue Hd.
    apply not_true_is_false. intros Hm.
    rewrite matchesChallenge_true_iff in Hm.
    specialize (Hm i j Hi Hj Hclue).
    rewrite cell_setCell_same in Hm by assumption. contradiction.
  - intros i j d Hi Hj Hzero.
    apply eq_true_iff_eq. rewrite !matchesChallenge_true_iff.
    split; intros H i' j' Hi' Hj' Hclue.
    + destruct (decide ((i', j') = (i, j))) as [[= -> ->]|Hne]; [contradiction|].
      rewrite <- (cell_setCell_other candidate i j d i' j') by assumption.
      auto.
    + destruct (decide ((i', j') = (i, j))) as [[= -> ->]|Hne]; [contradiction|].
      rewrite cell_setCell_other by assumption. auto.
Qed.

Lemma matchesChallenge_clues_witness :
  matchesChallenge solvedGrid Constants.CHALLENGE_PUZZLE_default = true
  /\ matchesChallenge (setCell solvedGrid 0 0 4) Constants.CHALLENGE_PUZZLE_default
     = false
  /\ matchesChallenge (setCell solvedGrid 0 2 1) Constants.CHALLENGE_PUZZLE_default
     = matchesChallenge solvedGrid Constants.CHALLENGE_PUZZLE_default.
Proof.
  destruct (matchesChallenge_clues solvedGrid Constants.CHALLENGE_PUZZLE_default
              is9x9_solvedGrid is9x9_challenge) as (Hiff & Hflip & Hfree).
  split; [|split].
  - apply Hiff. intros i j Hi Hj.
    do 9 (destruct i as [|i];
          [do 9 (destruct j as [|j];
                 [vm_compute; intros Hclue;
                  first [reflexivity | exfalso; apply Hclue; reflexivity]|]);
           lia|]).
    lia.
  - apply Hflip; [lia | lia | vm_compute; discriminate | vm_compute; discriminate].
  - apply Hfree; [lia | lia | reflexivity].
Defined.

(** ** [getConflicts] *)

(** C8.  On the default challenge, value 5 at the empty cell (0, 2) gives
    one conflict, the row conflict of row 0 (whose column 0 holds the 5);
    no column conflict and no box conflict is listed. *)
Theorem getConflicts_challenge_0_2_5 :
  cell Constants.CHALLENGE_PUZZLE_default 0 2 = 0%Z
  /\ cell Constants.CHALLENGE_PUZZLE_default 0 0 = 5%Z
  /\ getConflicts Constants.CHALLENGE_PUZZLE_default 0 2 5
     = [ {| type := RowConflict; position := 0 |} ].
Proof. repeat split; reflexivity. Qed.

Lemma in_box_range (k i : nat) : In i (seq (k / 3 * 3) 3) <-> i / 3 = k / 3.
Proof.
  rewrite in_seq.
  pose proof (Nat.div_mod_eq i 3) as Hi.
  pose proof (Nat.mod_upper_bound i 3) as Hm.
  generalize dependent (i mod 3). generalize dependent (i / 3).
  generalize (k / 3). intros q a b Hi Hb. lia.
Qed.

Lemma boxHit_true_iff grid row col value :
  boxHit grid row col value = true <->
  exists i j, inBoxOf row col i j /\ i <> row /\ j <> col /\ cell grid i j = value.
Proof.
  unfold boxHit, inBoxOf. rewrite existsb_exists. split.
  - intros (i & Hi & Hex). apply existsb_exists in Hex as (j & Hj & Hc).
    apply in_box_range in Hi, Hj.
    apply andb_true_iff in Hc as [Hc Hv]. apply andb_true_iff in Hc as [Hr Hc].
    apply negb_true_iff, Nat.eqb_neq in Hr, Hc. apply Z.eqb_eq in Hv.
    exists i, j. auto.
  - intros (i & j & [Hi Hj] & Hr & Hc & Hv).
    exists i. split; [apply in_box_range; exact Hi|].
    apply existsb_exists. exists j. split; [apply in_box_range; exact Hj|].
    apply Nat.eqb_neq in Hr, Hc. rewrite Hr, Hc. cbn. apply Z.eqb_eq, Hv.
Qed.

Lemma getConflicts_box grid row col value :
  (exists c, In c (getConflicts grid row col value) /\ type c = BoxConflict)
  <-> boxHit grid row col value = true.
Proof.
  unfold getConflicts. fold (boxHit grid row col value). split.
  - intros (c & Hin & Hty).
    repeat (apply in_app_or in Hin as [Hin|Hin]).
    + destruct (existsb _ _); [|destruct Hin].
      destruct Hin as [<-|[]]. discriminate Hty.
    + destruct (existsb _ _); [|destruct Hin].
      destruct Hin as [<-|[]]. discriminate Hty.
    + destruct (boxHit grid row col value); [reflexivity | destruct Hin].
  - intros ->.
    exists {| type := BoxConflict; position := row / 3 * 3 + col / 3 |}.
    split; [|reflexivity].
    apply in_or_app. right. apply in_or_app. right. left. reflexivity.
Qed.

(** C10.  For a cell of a 9 x 9 grid, [getConflicts] lists a box conflict
    exactly when some cell of the same 3 x 3 box, in another row and in
    another column, holds the value.  So when every cell of the box that
    holds the value is in the row or in the column of the target cell, no
    box conflict is listed; such a cell is listed as a row conflict, or as a
    column conflict. *)
Theorem getConflicts_box_off_axis (grid : SudokuGrid) (row col : nat) (value : Z) :
  is9x9 grid -> row < 9 -> col < 9 ->
  ((exists c, In c (getConflicts grid row col value) /\ type c = BoxConflict)
   <-> exists i j, inBoxOf row col i j /\ i <> row /\ j <> col
                   /\ cell grid i j = value)
  /\ ((forall i j, inBoxOf row col i j -> cell grid i j = value ->
         i = row \/ j = col) ->
      forall c, In c (getConflicts grid row col value) -> type c <> BoxConflict)
  /\ (forall j, inBoxOf row col row j -> j <> col -> cell grid row j = value ->
        In {| type := RowConflict; position := row |}
           (getConflicts grid row col value))
  /\ (forall i, inBoxOf row col i col -> i <> row -> cell grid i col = value ->
        In {| type := ColumnConflict; position := col |}
           (getConflicts grid row col value)).
Proof.
  intros Hg Hrow Hcol.
  assert (Hbox9 : forall k i, k < 9 -> i / 3 = k / 3 -> In i (seq 0 9)).
  { intros k i Hk Hq. apply in_seq.
    pose proof (Nat.div_mod_eq i 3). pose proof (Nat.div_mod_eq k 3).
    pose proof (Nat.mod_upper_bound i 3). pose proof (Nat.mod_upper_bound k 3).
    lia. }
  split; [|split; [|split]].
  - rewrite getConflicts_box. apply boxHit_true_iff.
  - intros Hax c Hin Hty.
    assert (Hhit : boxHit grid row col value = true)
      by (apply getConflicts_box; eauto).
    apply boxHit_true_iff in Hhit as (i & j & Hb & Hi & Hj & Hv).
    destruct (Hax i j Hb Hv); contradiction.
  - intros j [_ Hj] Hne Hv. unfold getConflicts.
    apply in_or_app. left.
    replace (existsb _ _) with true; [left; reflexivity|].
    symmetry. apply existsb_exists. exists j.
    split; [apply (Hbox9 col); assumption|].
    apply Nat.eqb_neq in Hne. rewrite Hne. cbn. apply Z.eqb_eq, Hv.
  - intros i [Hi _] Hne Hv. unfold getConflicts.
    apply in_or_app. right. apply in_or_app. left.
    replace (existsb _ (seq 0 9)) with true; [left; reflexivity|].
    symmetry. apply existsb_exists. exists i.
    split; [apply (Hbox9 row); assumption|].
    apply Nat.eqb_neq in Hne. rewrite Hne. cbn. apply Z.eqb_eq, Hv.
Qed.

Lemma getConflicts_box_off_axis_witness :
  In {| type := RowConflict; position := 0 |}
     (getConflicts Constants.CHALLENGE_PUZZLE_default 0 2 5)
  /\ forall c, In c (getConflicts Constants.CHALLENGE_PUZZLE_default 0 2 5) ->
               type c <> BoxConflict.
Proof.
  destruct (getConflicts_box_off_axis Constants.CHALLENGE_PUZZLE_default 0 2 5
              is9x9_challenge ltac:(lia) ltac:(lia)) as (_ & Hnone & Hrow & _).
  split.
  - apply (Hrow 0); [split; reflexivity | lia | reflexivity].
  - apply Hnone. intros i j [Hi Hj] Hv.
    change (0 / 3) with 0 in Hi. change (2 / 3) with 0 in Hj.
    pose proof (Nat.div_mod_eq i 3). pose proof (Nat.mod_upper_bound i 3).
    pose proof (Nat.div_mod_eq j 3). pose proof (Nat.mod_upper_bound j 3).
    assert (Hi3 : i < 3) by lia. assert (Hj3 : j < 3) by lia.
    destruct i as [|[|[|i]]]; [| | |lia];
      (destruct j as [|[|[|j]]]; [| | |lia]);
      first [ left; reflexivity | right; reflexivity
            | exfalso; vm_compute in Hv; discriminate Hv ].
Defined.

(** ** [hasAllDigits] *)

Lemma hasAllDigits_from_true_iff (arr : list Z) : forall seen : gset Z,
  hasAllDigits_from seen arr = true <->
  Forall inRange19 arr /\ List.NoDup arr
  /\ (forall v, In v arr -> v ∉ seen) /\ size seen + length arr = 9.
Proof.
  induction arr as [|val rest IH]; intros seen; cbn [hasAllDigits_from].
  - rewrite bool_decide_eq_true. cbn. split.
    + intros Hs. repeat split; [constructor | constructor | intros v [] | lia].
    + intros (_ & _ & _ & Hs). lia.
  - destruct (Z.ltb_spec val 1) as [Hlo|Hlo]; cbn [orb].
    { split; [discriminate|]. intros (Hr & _).
      inversion Hr as [|? ? Hv]; subst. unfold inRange19 in Hv. lia. }
    destruct (Z.gtb_spec val 9) as [Hhi|Hhi]; cbn [orb].
    { split; [discriminate|]. intros (Hr & _).
      inversion Hr as [|? ? Hv]; subst. unfold inRange19 in Hv. lia. }
    destruct (decide (val ∈ seen)) as [Hin|Hnin].
    { rewrite bool_decide_eq_true_2 by exact Hin.
      split; [discriminate|]. intros (_ & _ & Hfresh & _).
      exfalso. apply (Hfresh val); [left; reflexivity | exact Hin]. }
    rewrite bool_decide_eq_false_2 by exact Hnin. rewrite IH.
    assert (Hsize : size (seen ∪ {[val]}) = S (size seen)).
    { rewrite size_union by (apply disjoint_singleton_r; exact Hnin). rewrite size_singleton. lia. }
    rewrite Hsize. cbn [length]. split.
    + intros (Hr & Hnd & Hfresh & Hs). repeat split.
      * constructor; [unfold inRange19; lia | exact Hr].
      * constructor; [|exact Hnd]. intros Hin.
        apply (Hfresh val Hin), elem_of_union_r, elem_of_singleton. reflexivity.
      * intros v [<-|Hv]; [exact Hnin|].
        intros Hseen. apply (Hfresh v Hv), elem_of_union_l. exact Hseen.
      * lia.
    + intros (Hr & Hnd & Hfresh & Hs).
      inversion Hr; subst. inversion Hnd; subst. repeat split; try assumption.
      * intros v Hv Hseen. apply elem_of_union in Hseen as [Hseen|Hseen].
        -- apply (Hfresh v); [right; exact Hv | exact Hseen].
        -- apply elem_of_singleton in Hseen. subst v. contradiction.
      * lia.
Qed.

Lemma hasAllDigits_true_iff (arr : list Z) :
  hasAllDigits arr = true <->
  Forall inRange19 arr /\ List.NoDup arr /\ length arr = 9.
Proof.
  unfold hasAllDigits. rewrite hasAllDigits_from_true_iff.
  rewrite size_empty. split.
  - intros (Hr & Hnd & _ & Hl). auto.
  - intros (Hr & Hnd & Hl). repeat split; auto. intros v _. apply not_elem_of_empty.
Qed.

Lemma NoDup_digits19 : List.NoDup digits19.
Proof.
  unfold digits19.
  repeat (constructor; [cbn; lia|]).
  constructor.
Qed.

Lemma inRange19_digits19 (v : Z) : inRange19 v <-> In v digits19.
Proof.
  unfold inRange19, digits19. cbn. split.
  - intros H.
    assert (v = 1 \/ v = 2 \/ v = 3 \/ v = 4 \/ v = 5 \/ v = 6 \/ v = 7
            \/ v = 8 \/ v = 9)%Z as Hv by lia.
    decompose [or] Hv; subst; tauto.
  - intros H. lia.
Qed.

(** On nine values the loop of [hasAllDigits] decides "each of 1..9 exactly
    once". *)
Lemma hasAllDigits_eachDigitOnce (vals : list Z) :
  length vals = 9 -> hasAllDigits vals = eachDigitOnce vals.
Proof.
  intros Hlen. apply eq_true_iff_eq.
  rewrite hasAllDigits_true_iff. unfold eachDigitOnce. rewrite forallb_forall.
  split.
  - intros (Hr & Hnd & _) d Hd. apply Nat.eqb_eq.
    assert (Hincl : incl vals digits19).
    { intros v Hv. apply inRange19_digits19.
      rewrite Forall_forall in Hr. apply Hr, list_elem_of_In, Hv. }
    assert (Hin : In d vals).
    { apply (@NoDup_length_incl Z vals digits19 Hnd); [rewrite Hlen; cbn; lia | exact Hincl | exact Hd]. }
    apply (count_occ_In Z.eq_dec) in Hin.
    pose proof (proj1 (NoDup_count_occ Z.eq_dec vals) Hnd d). lia.
  - intros Hall.
    assert (Hincl : incl digits19 vals).
    { intros d Hd. apply (count_occ_In Z.eq_dec).
      specialize (Hall d Hd). apply Nat.eqb_eq in Hall. lia. }
    assert (Hle : length vals <= length digits19) by (rewrite Hlen; cbn; lia).
    repeat split.
    + apply Forall_forall. intros v Hv. apply inRange19_digits19.
      apply (@NoDup_length_incl Z digits19 vals NoDup_digits19 Hle Hincl).
      apply list_elem_of_In, Hv.
    + exact (@NoDup_incl_NoDup Z digits19 vals NoDup_digits19 Hle Hincl).
    + exact Hlen.
Qed.

Lemma getColumn_length grid j : length (getColumn grid j) = 9.
Proof. reflexivity. Qed.

Lemma getBox_cells grid b :
  getBox grid b = map (fun p => cell grid (fst p) (snd p)) (boxCells b).
Proof. reflexivity. Qed.

Lemma getBox_length grid b : length (getBox grid b) = 9.
Proof. reflexivity. Qed.

(** ** Loops with an early return and [List.find] *)

Lemma find_app {A} (p : A -> bool) (l1 l2 : list A) :
  List.find p (l1 ++ l2)
  = match List.find p l1 with Some x => Some x | None => List.find p l2 end.
Proof.
  induction l1 as [|x l1 IH]; [reflexivity|].
  cbn. destruct (p x); [reflexivity | exact IH].
Qed.

Section LoopFind.
Context {A C : Type} (bad : C -> bool) (msg : C -> A).

Lemma for_return_find (body : nat -> option A) (mk : nat -> C) (idx : list nat) :
  (forall i, In i idx ->
     body i = if bad (mk i) then Some (msg (mk i)) else None) ->
  for_return body idx = option_map msg (List.find bad (map mk idx)).
Proof.
  induction idx as [|i idx IH]; intros Hbody; [reflexivity|].
  cbn. rewrite (Hbody i) by (left; reflexivity).
  destruct (bad (mk i)); [reflexivity|].
  apply IH. intros k Hk. apply Hbody. right. exact Hk.
Qed.

Lemma for_return_find2 (body : nat -> nat -> option A) (mk : nat -> nat -> C)
    (outer inner : list nat) :
  (forall i j, In i outer -> In j inner ->
     body i j = if bad (mk i j) then Some (msg (mk i j)) else None) ->
  for_return (fun i => for_return (body i) inner) outer
  = option_map msg
      (List.find bad (flat_map (fun i => map (mk i) inner) outer)).
Proof.
  induction outer as [|i outer IH]; intros Hbody; [reflexivity|].
  cbn [for_return flat_map]. rewrite find_app.
  rewrite (for_return_find (body i) (mk i) inner)
    by (intros j Hj; apply Hbody; [left; reflexivity | exact Hj]).
  destruct (List.find bad (map (mk i) inner)); [reflexivity|].
  apply IH. intros k j Hk Hj. apply Hbody; [right; exact Hk | exact Hj].
Qed.
End LoopFind.

(** ** [isValid] reports the first violation of the scan order *)

Lemma isValid_report (grid : SudokuGrid) :
  is9x9 grid -> isValid grid = report grid (firstViolation grid).
Proof.
  intros Hg. unfold isValid, firstViolation, scanOrder.
  rewrite (for_return_find2 (violated grid) (describe grid) (cellError grid) CellCheck).
  2:{ intros i j _ _. unfold cellError. cbn [violated describe].
      destruct (cell grid i j =? 0)%Z; [reflexivity|]. cbn [orb].
      destruct ((cell grid i j <? 1)%Z || (cell grid i j >? 9)%Z); reflexivity. }
  rewrite (for_return_find (violated grid) (describe grid) (rowError grid) RowCheck).
  2:{ intros i Hi. apply in_seq in Hi. unfold rowError. cbn [violated describe].
      rewrite hasAllDigits_eachDigitOnce by (apply is9x9_row; [exact Hg | lia]).
      rewrite (gridRow_cells grid i Hg) by lia. reflexivity. }
  rewrite (for_return_find (violated grid) (describe grid) (columnError grid) ColumnCheck).
  2:{ intros j _. unfold columnError. cbn [violated describe].
      rewrite hasAllDigits_eachDigitOnce by apply getColumn_length. reflexivity. }
  rewrite (for_return_find (violated grid) (describe grid) (boxError grid) BoxCheck).
  2:{ intros b _. unfold boxError. cbn [violated describe].
      rewrite hasAllDigits_eachDigitOnce by apply getBox_length.
      rewrite getBox_cells. reflexivity. }
  rewrite !find_app.
  destruct (List.find _ (flat_map _ _)); [reflexivity|].
  destruct (List.find _ (map RowCheck _)); [reflexivity|].
  destruct (List.find _ (map ColumnCheck _)); [reflexivity|].
  destruct (List.find _ (map BoxCheck _)); reflexivity.
Qed.

Lemma find_first {A} (p : A -> bool) (l : list A) (x : A) :
  List.find p l = Some x ->
  exists before after, l = (before ++ x :: after)%list
    /\ p x = true /\ forall y, In y before -> p y = false.
Proof.
  induction l as [|a l IH]; [discriminate|]. cbn.
  destruct (p a) eqn:Ha.
  - intros [= ->]. exists [], l. repeat split; [exact Ha | intros y []].
  - intros Hf. destruct (IH Hf) as (before & after & -> & Hx & Hb).
    exists (a :: before), after. repeat split; [exact Hx|].
    intros y [<-|Hy]; [exact Ha | exact (Hb y Hy)].
Qed.

(** C2.  On a 9 x 9 grid [isValid] is the report of the first violated
    check of the scan order (cells row-major, rows 0..8, columns 0..8, boxes
    0..8): the result is valid, without error, exactly when no check of the
    order is violated; otherwise the scan order splits around a violated
    check that no violated check precedes, and the error is the message of
    that check. *)
Theorem isValid_first_violation (grid : SudokuGrid) :
  is9x9 grid ->
  isValid grid = report grid (List.find (violated grid) scanOrder)
  /\ (valid (isValid grid) = true <->
      forall c, In c scanOrder -> violated grid c = false)
  /\ (valid (isValid grid) = true -> error (isValid grid) = None)
  /\ (valid (isValid grid) = false ->
      exists before c after,
        scanOrder = (before ++ c :: after)%list
        /\ (forall c', In c' before -> violated grid c' = false)
        /\ violated grid c = true
        /\ error (isValid grid) = Some (describe grid c)).
Proof.
  intros Hg. pose proof (isValid_report grid Hg) as Hrep.
  unfold firstViolation in Hrep. split; [exact Hrep|].
  rewrite Hrep. destruct (List.find (violated grid) scanOrder) as [c|] eqn:Hfind;
    cbn [report valid error].
  - destruct (find_first _ _ _ Hfind) as (before & after & Hsplit & Hc & Hb).
    split; [|split].
    + split; [discriminate|]. intros Hall.
      rewrite Hall in Hc; [discriminate|].
      apply (find_some _ _ Hfind).
    + discriminate.
    + intros _. exists before, c, after. auto.
  - split; [|split].
    + split; [|reflexivity]. intros _. apply (find_none _ _ Hfind).
    + reflexivity.
    + discriminate.
Qed.

Lemma isValid_first_violation_witness :
  isValid Constants.CHALLENGE_PUZZLE_default
  = report Constants.CHALLENGE_PUZZLE_default
      (List.find (violated Constants.CHALLENGE_PUZZLE_default) scanOrder).
Proof.
  exact (proj1 (isValid_first_violation Constants.CHALLENGE_PUZZLE_default
                  is9x9_challenge)).
Defined.

(** ** The field-element sampler *)

Section FieldSampler.
Local Open Scope Z_scope.

Lemma land_shiftl8_byte (x b : Z) : u8 b -> Z.land (Z.shiftl x 8) b = 0.
Proof.
intros [Hlo Hhi]. apply Z.bits_inj'. intros n Hn.
rewrite Z.land_spec, Z.bits_0.
destruct (Z.lt_ge_cases n 8) as [Hlt|Hge].
- rewrite Z.shiftl_spec_low by exact Hlt. reflexivity.
- destruct (Z.eq_dec b 0) as [->|Hb0].
  + rewrite Z.bits_0. apply andb_false_r.
  + rewrite (Z.bits_above_log2 b n); [apply andb_false_r | exact Hlo |].
    assert (Z.log2 b < 8) by (apply Z.log2_lt_pow2; lia). lia.
Qed.

Lemma lor_shiftl8_byte (x b : Z) : u8 b -> Z.lor (Z.shiftl x 8) b = x * 256 + b.
Proof.
intros Hb. pose proof (land_shiftl8_byte x b Hb) as Hland.
rewrite <- Z.lxor_lor by exact Hland.
rewrite <- Z.add_nocarry_lxor by exact Hland.
rewrite Z.shiftl_mul_pow2 by lia. reflexivity.
Qed.

Lemma bigEndian_step_bound (bytes : list Z) : forall acc k,
0 <= k -> 0 <= acc < 2 ^ k -> Forall u8 bytes ->
0 <= fold_left (fun x b => Z.lor (Z.shiftl x 8) b) bytes acc
  < 2 ^ (k + 8 * Z.of_nat (length bytes)).
Proof.
induction bytes as [|b bytes IH]; intros acc k Hk Hacc Hbytes.
- cbn. rewrite Z.add_0_r. exact Hacc.
- apply Forall_cons_1 in Hbytes as [Hb Hbytes]. cbn [fold_left length].
  rewrite lor_shiftl8_byte by exact Hb.
  replace (k + 8 * Z.of_nat (S (length bytes)))
    with ((k + 8) + 8 * Z.of_nat (length bytes)) by lia.
  apply IH; [lia | | exact Hbytes].
  rewrite Z.pow_add_r by lia. change (2 ^ 8) with 256.
  destruct Hb. lia.
Qed.

Lemma maskTopBits_first (b0 : Z) : 0 <= Z.land b0 0x3f < 64.
Proof.
change 0x3f with (Z.ones 6). rewrite Z.land_ones by lia.
change (2 ^ 6) with 64. apply Z.mod_pos_bound. lia.
Qed.

(** Clearing the top two bits of the first of 32 bytes leaves a big-endian
  value below [2 ^ 254]. *)
Lemma candidate_bound (bytes : list Z) :
wellFormedDraw bytes -> 0 <= candidate bytes < 2 ^ 254.
Proof.
intros [Hlen Hbytes]. destruct bytes as [|b0 rest]; [discriminate|].
apply Forall_cons_1 in Hbytes as [Hb0 Hrest].
unfold candidate, bigEndian. cbn [maskTopBits fold_left].
rewrite Z.shiftl_0_l, Z.lor_0_l.
replace 254 with (6 + 8 * Z.of_nat (length rest))
  by (cbn [length] in Hlen; lia).
apply bigEndian_step_bound; [lia | | exact Hrest].
change (2 ^ 6) with 64. apply maskTopBits_first.
Qed.

Lemma MODULUS_below_2_254 : MODULUS < 2 ^ 254.
Proof. reflexivity. Qed.

Lemma BigInt_roundtrip (x : Z) : BigInt_ofString (BigInt_toString x) = Some x.
Proof.
unfold BigInt_ofString, BigInt_toString.
rewrite DecimalString.NilEmpty.isi. cbn. f_equal. apply DecimalZ.of_to.
Qed.

Lemma sampleLoop_first_below (draws : list (list Z)) : forall x later,
sampleLoop draws = Some (x, later) ->
exists rejected bytes,
  draws = (rejected ++ bytes :: later)%list
  /\ x = candidate bytes /\ x < MODULUS
  /\ Forall (fun d => MODULUS <= candidate d) rejected.
Proof.
induction draws as [|bytes rest IH]; intros x later; cbn [sampleLoop];
  [discriminate|].
destruct (Z.ltb_spec (candidate bytes) MODULUS) as [Hlt|Hge].
- intros [= <- <-]. exists [], bytes. repeat split; [exact Hlt | constructor].
- intros Hrest. destruct (IH _ _ Hrest) as (rej & acc & -> & Hx & Hlt & Hrej).
  exists (bytes :: rej), acc. repeat split; try assumption.
  constructor; assumption.
Qed.

(** The loop ends as soon as a draw gives a candidate below the modulus. *)
Lemma generateFieldElement_returns (draws : list (list Z)) :
Exists (fun bytes => candidate bytes < MODULUS) draws ->
exists s later, generateFieldElement draws = Some (s, later).
Proof.
unfold generateFieldElement.
induction 1 as [bytes rest Hlt | bytes rest _ IH]; cbn [sampleLoop].
- apply Z.ltb_lt in Hlt. rewrite Hlt. eauto.
- destruct (candidate bytes <? MODULUS); [eauto | exact IH].
Qed.

(** C1.  Whatever the random bytes are, a string returned by
  [generateFieldElement] is the decimal numeral of the candidate of one of
  the draws, read back as an integer [x] with [0 <= x < MODULUS]; the
  first byte of that draw, after masking, is below 64 (its top two bits
  are clear); and every draw consumed before it gave a candidate below
  [2 ^ 254] that was rejected for being at least [MODULUS]. *)
Theorem generateFieldElement_below_modulus
  (draws later : list (list Z)) (s : string) :
Forall wellFormedDraw draws ->
generateFieldElement draws = Some (s, later) ->
exists rejected bytes,
  draws = (rejected ++ bytes :: later)%list
  /\ s = BigInt_toString (candidate bytes)
  /\ BigInt_ofString s = Some (candidate bytes)
  /\ 0 <= candidate bytes < MODULUS
  /\ candidate bytes < 2 ^ 254
  /\ 0 <= nth 0 (maskTopBits bytes) 0 < 64
  /\ Forall (fun d => MODULUS <= candidate d < 2 ^ 254) rejected.
Proof.
intros Hwf. unfold generateFieldElement.
destruct (sampleLoop draws) as [[x rest]|] eqn:Hloop; [|discriminate].
intros [= <- <-].
destruct (sampleLoop_first_below _ _ _ Hloop)
  as (rejected & bytes & -> & -> & Hlt & Hrej).
apply Forall_app in Hwf as [Hwf_rej Hwf_rest].
apply Forall_cons_1 in Hwf_rest as [Hwf_bytes _].
pose proof (candidate_bound bytes Hwf_bytes) as Hbound.
exists rejected, bytes. repeat split; try lia.
- apply BigInt_roundtrip.
- destruct Hwf_bytes as [Hlen _].
  destruct bytes as [|b0 tl]; [discriminate|]. cbn. apply maskTopBits_first.
- destruct Hwf_bytes as [Hlen _].
  destruct bytes as [|b0 tl]; [discriminate|]. cbn. apply maskTopBits_first.
- rewrite Forall_forall in *. intros d Hd.
  pose proof (candidate_bound d (Hwf_rej d Hd)). specialize (Hrej d Hd). lia.
Qed.

End FieldSampler.

Lemma generateFieldElement_below_modulus_witness :
  exists x : Z,
    BigInt_ofString
      "3178606371220444580254889784552217078325058402586211561867463090413301597959"
    = Some x
    /\ (0 <= x < MODULUS)%Z.
Proof.
  destruct (generateFieldElement_below_modulus
              [repeat 255%Z 32; repeat 7%Z 32] []
              "3178606371220444580254889784552217078325058402586211561867463090413301597959")
    as (rejected & bytes & _ & _ & Hparse & Hrange & _).
  - repeat constructor; unfold u8; lia.
  - vm_compute. reflexivity.
  - exists (candidate bytes). split; [exact Hparse | exact Hrange].
Defined.

(** ** Strings *)

Lemma append_cons (c : ascii) (s t : string) : String c s ++ t = String c (s ++ t).
Proof. reflexivity. Qed.

Lemma append_nil_r (s : string) : s ++ "" = s.
Proof.
  induction s as [|c s IH]; [reflexivity|]. rewrite append_cons, IH. reflexivity.
Qed.

Lemma append_assoc (a b c : string) : (a ++ b) ++ c = a ++ (b ++ c).
Proof.
  induction a as [|x a IH]; [reflexivity|]. rewrite !append_cons, IH. reflexivity.
Qed.

Lemma length_append (a b : string) :
  String.length (a ++ b) = String.length a + String.length b.
Proof.
  induction a as [|x a IH]; [reflexivity|].
  rewrite append_cons. cbn [String.length]. rewrite IH. reflexivity.
Qed.

Lemma substring_0_length (s : string) : substring 0 (String.length s) s = s.
Proof.
  induction s as [|c s IH]; [reflexivity|].
  cbn [String.length substring]. rewrite IH. reflexivity.
Qed.

Lemma substring_0_append (a b : string) :
  substring 0 (String.length a) (a ++ b) = a.
Proof.
  induction a as [|x a IH]; [destruct b; reflexivity|].
  rewrite append_cons. cbn [String.length substring]. rewrite IH. reflexivity.
Qed.

Lemma substring_skip_append (a b : string) (m : nat) :
  substring (String.length a) m (a ++ b) = substring 0 m b.
Proof.
  induction a as [|x a IH]; [reflexivity|].
  rewrite append_cons. cbn [String.length substring]. exact IH.
Qed.

Lemma join_cons (x : string) (parts : list string) :
  join (x :: parts) = x ++ join parts.
Proof.
  unfold join. destruct parts as [|y parts]; cbn.
  - symmetry. apply append_nil_r.
  - reflexivity.
Qed.

Lemma join_app (xs ys : list string) : join (xs ++ ys) = join xs ++ join ys.
Proof.
  induction xs as [|x xs IH]; [reflexivity|].
  cbn [app]. rewrite !join_cons, IH, append_assoc. reflexivity.
Qed.

(** ** The hexadecimal rendering of bytes *)

Lemma hexByte_ok_all :
  forallb (fun n => hexByte_ok (Z.of_nat n)) (seq 0 256) = true.
Proof. vm_compute. reflexivity. Qed.

(** A byte is rendered as two lower-case digits that [parseInt] reads back. *)
Lemma hexByte_shape (b : Z) :
  u8 b ->
  exists c1 c2, hexByte b = String c1 (String c2 "")
    /\ isLowerHex c1 = true /\ isLowerHex c2 = true
    /\ parseInt16 (String c1 (String c2 "")) = Some b.
Proof.
  intros [Hlo Hhi].
  pose proof hexByte_ok_all as Hall. rewrite forallb_forall in Hall.
  specialize (Hall (Z.to_nat b)). rewrite Z2Nat.id in Hall by exact Hlo.
  assert (Hin : In (Z.to_nat b) (seq 0 256)) by (apply in_seq; lia).
  specialize (Hall Hin). unfold hexByte_ok in Hall.
  destruct (hexByte b) as [|c1 [|c2 [|c3 rest]]] eqn:Hhex; try discriminate Hall.
  apply andb_true_iff in Hall as [Hc Hparse].
  apply andb_true_iff in Hc as [Hc1 Hc2].
  exists c1, c2. repeat split; try assumption.
  destruct (parseInt16 _) as [v|]; [|discriminate Hparse].
  apply Z.eqb_eq in Hparse. subst v. reflexivity.
Qed.

Lemma isLowerHex_facts (c : ascii) :
  isLowerHex c = true ->
  isHexDigit c = true /\ isWhiteSpace c = false
  /\ isLineTerminator c = false /\ c <> "x"%char.
Proof.
  destruct c as [[] [] [] [] [] [] [] []]; vm_compute; intros H;
    try discriminate H; repeat split; discriminate.
Qed.

Lemma toHex_cons (b : Z) (rest : list Z) (c1 c2 : ascii) :
  hexByte b = String c1 (String c2 "") ->
  toHex (b :: rest) = String c1 (String c2 (toHex rest)).
Proof.
  intros Hb. unfold toHex. cbn [map]. rewrite join_cons, Hb. reflexivity.
Qed.

Lemma toHex_app (xs ys : list Z) : toHex (xs ++ ys) = toHex xs ++ toHex ys.
Proof. unfold toHex. rewrite map_app. apply join_app. Qed.

Lemma toHex_lowerHex (bytes : list Z) :
  Forall u8 bytes -> lowerHexString (toHex bytes) = true.
Proof.
  induction 1 as [|b rest Hb _ IH]; [reflexivity|].
  destruct (hexByte_shape b Hb) as (c1 & c2 & Hhex & Hc1 & Hc2 & _).
  rewrite (toHex_cons b rest c1 c2 Hhex). cbn. rewrite Hc1, Hc2, IH. reflexivity.
Qed.

Lemma toHex_length (bytes : list Z) :
  Forall u8 bytes -> String.length (toHex bytes) = 2 * length bytes.
Proof.
  induction 1 as [|b rest Hb _ IH]; [reflexivity|].
  destruct (hexByte_shape b Hb) as (c1 & c2 & Hhex & _).
  rewrite (toHex_cons b rest c1 c2 Hhex). cbn [String.length length].
  rewrite IH. lia.
Qed.

Lemma matchPairs_toHex (bytes : list Z) :
  Forall u8 bytes -> matchPairs_list (toHex bytes) = map hexByte bytes.
Proof.
  induction 1 as [|b rest Hb _ IH]; [reflexivity|].
  destruct (hexByte_shape b Hb) as (c1 & c2 & Hhex & Hc1 & Hc2 & _).
  rewrite (toHex_cons b rest c1 c2 Hhex). cbn [matchPairs_list map].
  destruct (isLowerHex_facts c1 Hc1) as (_ & _ & -> & _).
  destruct (isLowerHex_facts c2 Hc2) as (_ & _ & -> & _).
  rewrite IH, Hhex. reflexivity.
Qed.

Lemma parse_hexBytes (bytes : list Z) :
  Forall u8 bytes ->
  Uint8Array_from (map parseInt16 (map hexByte bytes)) = bytes.
Proof.
  induction 1 as [|b rest Hb _ IH]; [reflexivity|].
  destruct (hexByte_shape b Hb) as (c1 & c2 & Hhex & _ & _ & Hparse).
  cbn [map Uint8Array_from]. fold (Uint8Array_from (map parseInt16 (map hexByte rest))).
  rewrite IH, Hhex, Hparse. destruct Hb. rewrite Z.mod_small by lia. reflexivity.
Qed.

Lemma lowerHexString_cons (c : ascii) (rest : string) :
  lowerHexString (String c rest) = true ->
  isLowerHex c = true /\ lowerHexString rest = true.
Proof. cbn [lowerHexString]. apply andb_true_iff. Qed.

Lemma lowerHex_removeWhiteSpace (s : string) :
  lowerHexString s = true -> removeWhiteSpace s = s.
Proof.
  induction s as [|c rest IH]; [reflexivity|].
  intros [Hc Hrest]%lowerHexString_cons. cbn [removeWhiteSpace].
  destruct (isLowerHex_facts c Hc) as (_ & -> & _).
  rewrite (IH Hrest). reflexivity.
Qed.

Lemma lowerHex_trimEnd (s : string) :
  lowerHexString s = true -> trimEnd s = s.
Proof.
  induction s as [|c rest IH]; [reflexivity|].
  intros [Hc Hrest]%lowerHexString_cons. cbn [trimEnd].
  destruct (isLowerHex_facts c Hc) as (_ & -> & _).
  rewrite (IH Hrest). destruct rest; reflexivity.
Qed.

Lemma lowerHex_trimStart (s : string) :
  lowerHexString s = true -> trimStart s = s.
Proof.
  destruct s as [|c rest]; [reflexivity|].
  intros [Hc _]%lowerHexString_cons. cbn [trimStart].
  destruct (isLowerHex_facts c Hc) as (_ & -> & _). reflexivity.
Qed.

Lemma lowerHex_strip0x (s : string) :
  lowerHexString s = true -> strip0x s = s.
Proof.
  destruct s as [|c [|d rest]]; [reflexivity | | ].
  - intros _. destruct c as [[] [] [] [] [] [] [] []]; reflexivity.
  - intros [_ [Hd _]%lowerHexString_cons]%lowerHexString_cons.
    destruct (isLowerHex_facts d Hd) as (_ & _ & _ & Hx).
    unfold strip0x.
    destruct c as [[] [] [] [] [] [] [] []]; try reflexivity.
    destruct d as [[] [] [] [] [] [] [] []]; try reflexivity.
    contradiction Hx. reflexivity.
Qed.

(** A lower-case hexadecimal string does not start with [0x]. *)
Lemma lowerHex_no_0x (s rest : string) :
  lowerHexString s = true -> s <> String "0" (String "x" rest).
Proof.
  intros Hs ->.
  apply lowerHexString_cons in Hs as [_ [Hx _]%lowerHexString_cons].
  discriminate Hx.
Qed.

Lemma lowerHex_allHex (s : string) :
  lowerHexString s = true -> allHex s = true.
Proof.
  induction s as [|c rest IH]; [reflexivity|].
  intros [Hc Hrest]%lowerHexString_cons. cbn [allHex].
  destruct (isLowerHex_facts c Hc) as (-> & _).
  exact (IH Hrest).
Qed.

Lemma trimEnd_keep (c : ascii) (rest : string) :
  isWhiteSpace c = false -> trimEnd (String c rest) = String c (trimEnd rest).
Proof. intros Hc. cbn [trimEnd]. destruct (trimEnd rest); rewrite ?Hc; reflexivity. Qed.

Lemma cleanProofHex_lowerHex (s : string) :
  lowerHexString s = true -> PseudokuGame.cleanProofHex s = s.
Proof.
  intros Hs. unfold PseudokuGame.cleanProofHex, trim.
  rewrite (lowerHex_trimStart s Hs), (lowerHex_trimEnd s Hs).
  rewrite (lowerHex_strip0x s Hs). apply lowerHex_removeWhiteSpace, Hs.
Qed.

Lemma cleanProofHex_0x_lowerHex (s : string) :
  lowerHexString s = true ->
  PseudokuGame.cleanProofHex (String "0" (String "x" s)) = s.
Proof.
  intros Hs. unfold PseudokuGame.cleanProofHex, trim.
  change (trimStart (String "0" (String "x" s))) with (String "0" (String "x" s)).
  rewrite !trimEnd_keep by reflexivity. rewrite (lowerHex_trimEnd s Hs).
  cbn [strip0x]. apply lowerHex_removeWhiteSpace, Hs.
Qed.

Lemma toHex_nonempty (bytes : list Z) :
  Forall u8 bytes -> bytes <> [] -> toHex bytes <> "".
Proof.
  intros Hbytes Hne Hempty. pose proof (toHex_length bytes Hbytes) as Hlen.
  rewrite Hempty in Hlen. destruct bytes; [contradiction | cbn in Hlen; lia].
Qed.

(** What [performVerification] does with a well-formed, non-empty
    hexadecimal text once the white space and the prefix are gone. *)
Lemma performVerification_clean (parseArray : string -> option (list string))
    (publicInputsInput proofHexInput : string) (inputs : list string)
    (bytes : list Z) :
  publicInputsInput <> "" -> proofHexInput <> "" ->
  parseArray publicInputsInput = Some inputs ->
  Forall u8 bytes -> bytes <> [] ->
  PseudokuGame.cleanProofHex proofHexInput = toHex bytes ->
  PseudokuGame.performVerification parseArray true publicInputsInput proofHexInput
  = PseudokuGame.Submitted
      {| ProofData.proof := bytes; ProofData.publicInputs := inputs |}.
Proof.
  intros Hpub Hhex Hparse Hbytes Hne Hclean.
  unfold PseudokuGame.performVerification.
  apply String.eqb_neq in Hpub, Hhex. rewrite Hpub, Hhex. cbn [orb].
  rewrite Hparse, Hclean.
  pose proof (toHex_lowerHex bytes Hbytes) as Hlower.
  assert (Htest : testHex (toHex bytes) = true).
  { unfold testHex. rewrite (lowerHex_allHex _ Hlower).
    pose proof (toHex_nonempty bytes Hbytes Hne) as Hnonempty.
    destruct (toHex bytes); [contradiction | reflexivity]. }
  rewrite Htest, (toHex_length bytes Hbytes).
  replace (2 * length bytes) with (length bytes * 2) by lia.
  rewrite Nat.Div0.mod_mul. cbn [negb orb Nat.eqb].
  unfold matchPairs. rewrite (matchPairs_toHex bytes Hbytes).
  destruct bytes as [|b rest]; [contradiction|]. cbn [map negb].
  rewrite <- (parse_hexBytes (b :: rest) Hbytes) at 1. reflexivity.
Qed.

(** C3, for a proof of at least one byte.  The exported [proof] string is
    made of lower-case hexadecimal digits, two per byte, and does not start
    with [0x]; the exported public inputs are those of the artifact; and
    [performVerification], given that string (with or without a leading
    [0x]) and a text that parses to the exported public inputs, submits to
    the verifier the artifact itself: the same bytes and the same public
    inputs. *)
Theorem proof_hex_roundtrip (parseArray : string -> option (list string))
    (artifact : ProofData.t) (challengeId : string) (timeInMs : Z)
    (now publicInputsInput : string) :
  Forall u8 (ProofData.proof artifact) ->
  ProofData.proof artifact <> [] ->
  publicInputsInput <> "" ->
  parseArray publicInputsInput
  = Some (ProofDataExport.publicInputs
            (prepareProofExport artifact challengeId timeInMs now)) ->
  lowerHexString
    (ProofDataExport.proof (prepareProofExport artifact challengeId timeInMs now))
  = true
  /\ String.length
       (ProofDataExport.proof (prepareProofExport artifact challengeId timeInMs now))
     = 2 * length (ProofData.proof artifact)
  /\ (forall rest,
        ProofDataExport.proof (prepareProofExport artifact challengeId timeInMs now)
        <> String "0" (String "x" rest))
  /\ ProofDataExport.publicInputs
       (prepareProofExport artifact challengeId timeInMs now)
     = ProofData.publicInputs artifact
  /\ PseudokuGame.performVerification parseArray true publicInputsInput
       (ProofDataExport.proof (prepareProofExport artifact challengeId timeInMs now))
     = PseudokuGame.Submitted artifact
  /\ PseudokuGame.performVerification parseArray true publicInputsInput
       (String "0" (String "x"
          (ProofDataExport.proof
             (prepareProofExport artifact challengeId timeInMs now))))
     = PseudokuGame.Submitted artifact.
Proof.
  destruct artifact as [bytes inputs]. cbn [prepareProofExport ProofData.proof
    ProofData.publicInputs ProofDataExport.proof ProofDataExport.publicInputs].
  intros Hbytes Hne Hpub Hparse.
  pose proof (toHex_lowerHex bytes Hbytes) as Hlower.
  pose proof (toHex_nonempty bytes Hbytes Hne) as Hnonempty.
  repeat split.
  - exact Hlower.
  - apply toHex_length, Hbytes.
  - intros rest. apply lowerHex_no_0x, Hlower.
  - apply performVerification_clean; try assumption.
    apply cleanProofHex_lowerHex, Hlower.
  - apply performVerification_clean; try assumption; [discriminate|].
    apply cleanProofHex_0x_lowerHex, Hlower.
Qed.

Lemma proof_hex_roundtrip_witness :
  PseudokuGame.performVerification (fun _ => Some ["7"; "12"]) true
    "[7, 12]" "000aff10"
  = PseudokuGame.Submitted sampleArtifact.
Proof.
  refine (proj1 (proj2 (proj2 (proj2 (proj2
    (proof_hex_roundtrip (fun _ => Some ["7"; "12"]) sampleArtifact
       "1" 0%Z "2025-01-01T00:00:00.000Z" "[7, 12]" _ _ _ _)))))).
  - repeat constructor; unfold u8; lia.
  - discriminate.
  - discriminate.
  - reflexivity.
Defined.

(** The proof of no bytes is exported as the empty string, which
    [performVerification] turns down as a missing input; the test of the
    digits, which asks for at least one, would turn it down as well. *)
Lemma proof_hex_roundtrip_fails_on_empty_proof :
  ProofDataExport.proof
    (prepareProofExport emptyArtifact "1" 0%Z "2025-01-01T00:00:00.000Z") = ""
  /\ PseudokuGame.performVerification (fun _ => Some ["7"; "12"]) true "[7, 12]"
       (ProofDataExport.proof
          (prepareProofExport emptyArtifact "1" 0%Z "2025-01-01T00:00:00.000Z"))
     = PseudokuGame.Shown "Please enter both public inputs and proof hex"
  /\ PseudokuGame.performVerification (fun _ => Some ["7"; "12"]) true "[7, 12]"
       (ProofDataExport.proof
          (prepareProofExport emptyArtifact "1" 0%Z "2025-01-01T00:00:00.000Z"))
     <> PseudokuGame.Submitted emptyArtifact
  /\ testHex (PseudokuGame.cleanProofHex "") = false.
Proof. repeat split. discriminate. Qed.

(** ** The displayed fingerprint *)

Lemma slice_head (s : string) (k : nat) :
  k <= String.length s -> slice s 0 (Some (Z.of_nat k)) = substring 0 k s.
Proof.
  intros Hk. unfold slice. cbn [Z.ltb Z.compare].
  destruct (Z.ltb_spec (Z.of_nat k) 0) as [Hneg|_]; [lia|].
  rewrite Z.min_l by lia. rewrite Z.min_l by lia.
  rewrite Z.sub_0_r, Nat2Z.id. reflexivity.
Qed.

Lemma slice_tail (s : string) (k : nat) :
  0 < k <= String.length s ->
  slice s (- Z.of_nat k) None = substring (String.length s - k) k s.
Proof.
  intros Hk. unfold slice.
  destruct (Z.ltb_spec (- Z.of_nat k) 0) as [_|Hpos]; [|lia].
  rewrite Z.max_l by lia. f_equal; lia.
Qed.

Lemma slice_head_toHex (bytes : list Z) (k : nat) :
  Forall u8 bytes -> k <= length bytes ->
  slice (toHex bytes) 0 (Some (Z.of_nat (2 * k))) = toHex (firstn k bytes).
Proof.
  intros Hbytes Hk.
  assert (Hhead : Forall u8 (firstn k bytes)).
  { pose proof Hbytes as Hsplit. rewrite <- (firstn_skipn k bytes) in Hsplit.
    apply Forall_app in Hsplit. apply Hsplit. }
  rewrite slice_head by (rewrite toHex_length by exact Hbytes; lia).
  rewrite <- (firstn_skipn k bytes) at 1. rewrite toHex_app.
  replace (2 * k) with (String.length (toHex (firstn k bytes)))
    by (rewrite toHex_length by exact Hhead; rewrite length_firstn; lia).
  apply substring_0_append.
Qed.

Lemma slice_tail_toHex (bytes : list Z) (k : nat) :
  Forall u8 bytes -> 0 < k <= length bytes ->
  slice (toHex bytes) (- Z.of_nat (2 * k)) None
  = toHex (skipn (length bytes - k) bytes).
Proof.
  intros Hbytes Hk.
  assert (Hsub : forall n, Forall u8 (firstn n bytes) /\ Forall u8 (skipn n bytes)).
  { intros n. rewrite <- (firstn_skipn n bytes) in Hbytes.
    apply Forall_app in Hbytes. exact Hbytes. }
  destruct (Hsub (length bytes - k)) as [Hhead Htail].
  rewrite slice_tail by (rewrite toHex_length by exact Hbytes; lia).
  rewrite toHex_length by exact Hbytes.
  rewrite <- (firstn_skipn (length bytes - k) bytes) at 2. rewrite toHex_app.
  replace (2 * length bytes - 2 * k)
    with (String.length (toHex (firstn (length bytes - k) bytes)))
    by (rewrite toHex_length by exact Hhead; rewrite length_firstn; lia).
  rewrite substring_skip_append.
  replace (2 * k) with (String.length (toHex (skipn (length bytes - k) bytes)))
    by (rewrite toHex_length by exact Htail; rewrite length_skipn; lia).
  apply substring_0_length.
Qed.

Lemma firstn_32_parts (proof : list Z) (k : nat) :
  32 <= length proof -> k <= 32 ->
  length (firstn 32 proof) = 32
  /\ firstn k (firstn 32 proof) = firstn k proof
  /\ skipn (32 - k) (firstn 32 proof) = firstn k (skipn (32 - k) proof).
Proof.
  intros Hlen Hk. repeat split.
  - rewrite length_firstn. lia.
  - rewrite firstn_firstn. f_equal. lia.
  - rewrite firstn_skipn_comm. do 2 f_equal. lia.
Qed.

(** C9, as the code has it.  For a proof of at least 32 bytes the
    fingerprint of [ProofUtils] shows bytes 0..3 and bytes 28..31, and the
    one of the game class bytes 0..2 and bytes 29..31.  A proof that has the
    same first 32 bytes gets the same fingerprints, whatever follows. *)
Theorem hashProof_first_32_bytes (proof : list Z) :
  Forall u8 proof -> 32 <= length proof ->
  ProofUtils.hashProof proof
  = toHex (firstn 4 proof) ++ "..." ++ toHex (firstn 4 (skipn 28 proof))
  /\ PseudokuGame.hashProof proof
     = "0x" ++ toHex (firstn 3 proof) ++ "..." ++ toHex (firstn 3 (skipn 29 proof))
  /\ forall other : list Z,
       firstn 32 other = firstn 32 proof ->
       ProofUtils.hashProof other = ProofUtils.hashProof proof
       /\ PseudokuGame.hashProof other = PseudokuGame.hashProof proof.
Proof.
  intros Hbytes Hlen.
  assert (H32 : Forall u8 (firstn 32 proof)).
  { rewrite <- (firstn_skipn 32 proof) in Hbytes.
    apply Forall_app in Hbytes. apply Hbytes. }
  split; [|split].
  - unfold ProofUtils.hashProof.
    destruct (firstn_32_parts proof 4 Hlen ltac:(lia)) as (Hl & Hhead & Htail).
    change 8%Z with (Z.of_nat (2 * 4)). change (-8)%Z with (- Z.of_nat (2 * 4))%Z.
    rewrite slice_head_toHex by (assumption || lia).
    rewrite slice_tail_toHex by (assumption || lia).
    rewrite Hl, Hhead. change (32 - 4) with 28 in *. rewrite Htail. reflexivity.
  - unfold PseudokuGame.hashProof.
    destruct (firstn_32_parts proof 3 Hlen ltac:(lia)) as (Hl & Hhead & Htail).
    change 6%Z with (Z.of_nat (2 * 3)). change (-6)%Z with (- Z.of_nat (2 * 3))%Z.
    rewrite slice_head_toHex by (assumption || lia).
    rewrite slice_tail_toHex by (assumption || lia).
    rewrite Hl, Hhead. change (32 - 3) with 29 in *. rewrite Htail. reflexivity.
  - intros other Hsame. unfold ProofUtils.hashProof, PseudokuGame.hashProof.
    rewrite Hsame. split; reflexivity.
Qed.

Lemma hashProof_first_32_bytes_witness :
  ProofUtils.hashProof (proofEndingIn 1) = "00010203...1c1d1e1f"
  /\ PseudokuGame.hashProof (proofEndingIn 1) = "0x000102...1d1e1f".
Proof.
  destruct (hashProof_first_32_bytes (proofEndingIn 1)) as (Hutil & Hgame & _).
  - unfold proofEndingIn. cbn [seq map app].
    repeat constructor; unfold u8; lia.
  - cbn. lia.
  - split; [rewrite Hutil | rewrite Hgame]; reflexivity.
Defined.

(** Two proofs of 33 bytes that differ in their last byte, and only there,
    are shown with the same fingerprint. *)
Lemma hashProof_blind_to_final_byte :
  proofEndingIn 1 <> proofEndingIn 2
  /\ removelast (proofEndingIn 1) = removelast (proofEndingIn 2)
  /\ ProofUtils.hashProof (proofEndingIn 1) = ProofUtils.hashProof (proofEndingIn 2)
  /\ PseudokuGame.hashProof (proofEndingIn 1) = PseudokuGame.hashProof (proofEndingIn 2).
Proof. repeat split. discriminate. Qed.

(** ** The OAuth callback *)

Section OAuthCallback.
Import GitHubOAuth.
Variable fetch : Request -> FetchResult.

(** C4.  When the [state] of the callback is not the stored
    [oauth_state] (another value, or none stored), [handleCallback]
    rejects with the state error and leaves the browser as it was: no
    request is sent, whatever the backend would answer. *)
Theorem handleCallback_state_mismatch (code state : string) (w : Browser) :
  sessionStorage w !! "oauth_state" <> Some state ->
  handleCallback fetch code state w = (Rejected "Invalid OAuth state", w)
  /\ requests (snd (handleCallback fetch code state w)) = requests w.
Proof.
  intros Hne. unfold handleCallback.
  rewrite bool_decide_eq_false_2 by congruence.
  split; reflexivity.
Qed.

(** On a matching [state] the stored value is removed before anything
    else happens. *)
Lemma handleCallback_match_erases (code state : string) (w : Browser) :
  sessionStorage w !! "oauth_state" = Some state ->
  sessionStorage (snd (handleCallback fetch code state w)) !! "oauth_state"
  = None.
Proof.
  intros Hsaved. unfold handleCallback.
  rewrite bool_decide_eq_true_2 by congruence. cbn [negb].
  destruct (OAUTH_API_ENDPOINT (removeItem "oauth_state" w)) as [[|c url]|];
    [apply lookup_delete_eq | | apply lookup_delete_eq].
  destruct (fetch _) as [|[] [?|]]; apply lookup_delete_eq.
Qed.
End OAuthCallback.

Lemma handleCallback_state_mismatch_witness :
  GitHubOAuth.handleCallback tokenBackend "code" "0000" pendingBrowser
  = (GitHubOAuth.Rejected "Invalid OAuth state", pendingBrowser).
Proof.
  refine (proj1 (handleCallback_state_mismatch tokenBackend "code" "0000"
                   pendingBrowser _)).
  vm_compute. discriminate.
Defined.

(** C5 at a mismatching callback: the stored [oauth_state] is still there
    after the call, although the matching call removes it. *)
Theorem handleCallback_mismatch_keeps_state :
  GitHubOAuth.sessionStorage
    (snd (GitHubOAuth.handleCallback tokenBackend "code" "0000" pendingBrowser))
    !! "oauth_state" = Some "5f2a"
  /\ GitHubOAuth.sessionStorage
       (snd (GitHubOAuth.handleCallback tokenBackend "code" "5f2a" pendingBrowser))
       !! "oauth_state" = None.
Proof. split; vm_compute; reflexivity. Qed.

(** ** Loops with an early return *)

Lemma for_return_None_iff {A} (body : nat -> option A) (idx : list nat) :
  for_return body idx = None <-> forall i, In i idx -> body i = None.
Proof.
  induction idx as [|k idx IH]; cbn.
  - split; [intros _ i [] | reflexivity].
  - destruct (body k) eqn:Hk.
    + split; [discriminate|]. intros H.
      rewrite <- Hk. apply H. left. reflexivity.
    + rewrite IH. split.
      * intros H i [<-|Hi]; [exact Hk | exact (H i Hi)].
      * intros H i Hi. apply H. right. exact Hi.
Qed.

Lemma below_9_in_seq (k : nat) : In k (seq 0 9) <-> k < 9.
Proof. rewrite in_seq. lia. Qed.

(** ** What [checkSolution] decides *)

Ltac destruct_for_return H :=
  match goal with
  | |- context [match for_return ?body ?idx with _ => _ end] =>
      destruct (for_return body idx) eqn:H
  end.

Lemma checkSolution_true_iff (g : PseudokuGame.Game) :
  fst (PseudokuGame.checkSolution g) = true <->
  (forall i j, i < 9 -> j < 9 -> cell (PseudokuGame.grid g) i j <> 0%Z)
  /\ (forall i, i < 9 -> hasAllDigits (gridRow (PseudokuGame.grid g) i) = true)
  /\ (forall j, j < 9 -> hasAllDigits (getColumn (PseudokuGame.grid g) j) = true)
  /\ (forall b, b < 9 -> hasAllDigits (getBox (PseudokuGame.grid g) b) = true).
Proof.
  unfold PseudokuGame.checkSolution. cbv zeta.
  destruct_for_return H1.
  { cbn [fst]. split; [discriminate|]. intros (Hcells & _).
    rewrite (proj2 (for_return_None_iff _ _)) in H1; [discriminate|].
    intros i Hi. apply for_return_None_iff. intros j Hj.
    apply below_9_in_seq in Hi, Hj. cbn beta.
    destruct (Z.eqb_spec (cell (PseudokuGame.grid g) i j) 0) as [Hz|_];
      [exfalso; exact (Hcells i j Hi Hj Hz) | reflexivity]. }
  destruct_for_return H2.
  { cbn [fst]. split; [discriminate|]. intros (_ & Hrows & _).
    rewrite (proj2 (for_return_None_iff _ _)) in H2; [discriminate|].
    intros i Hi. apply below_9_in_seq in Hi. cbn beta.
    rewrite (Hrows i Hi). reflexivity. }
  destruct_for_return H3.
  { cbn [fst]. split; [discriminate|]. intros (_ & _ & Hcols & _).
    rewrite (proj2 (for_return_None_iff _ _)) in H3; [discriminate|].
    intros j Hj. apply below_9_in_seq in Hj. cbn beta.
    rewrite (Hcols j Hj). reflexivity. }
  destruct_for_return H4.
  { cbn [fst]. split; [discriminate|]. intros (_ & _ & _ & Hboxes).
    rewrite (proj2 (for_return_None_iff _ _)) in H4; [discriminate|].
    intros b Hb. apply below_9_in_seq in Hb. cbn beta.
    rewrite (Hboxes b Hb). reflexivity. }
  cbn [fst]. split; [intros _|reflexivity].
  rewrite for_return_None_iff in H1, H2, H3, H4.
  split; [|split; [|split]].
  - intros i j Hi Hj Hz. apply below_9_in_seq in Hi, Hj.
    specialize (H1 i Hi). rewrite for_return_None_iff in H1.
    specialize (H1 j Hj). cbn beta in H1. rewrite Hz in H1. discriminate H1.
  - intros i Hi. apply below_9_in_seq in Hi. specialize (H2 i Hi). cbn beta in H2.
    destruct (hasAllDigits _); [reflexivity | discriminate H2].
  - intros j Hj. apply below_9_in_seq in Hj. specialize (H3 j Hj). cbn beta in H3.
    destruct (hasAllDigits _); [reflexivity | discriminate H3].
  - intros b Hb. apply below_9_in_seq in Hb. specialize (H4 b Hb). cbn beta in H4.
    destruct (hasAllDigits _); [reflexivity | discriminate H4].
Qed.

Lemma checkSolution_outcome (g : PseudokuGame.Game) :
  (fst (PseudokuGame.checkSolution g) = true
   /\ snd (PseudokuGame.checkSolution g)
      = PseudokuGame.setDisabled false
          (PseudokuGame.showStatus
             "Solution is correct! You can now generate a proof."
             PseudokuGame.success (PseudokuGame.setTimer false g)))
  \/ (fst (PseudokuGame.checkSolution g) = false
      /\ exists message,
           snd (PseudokuGame.checkSolution g)
           = PseudokuGame.showStatus message PseudokuGame.error g).
Proof.
  unfold PseudokuGame.checkSolution. cbv zeta.
  repeat (destruct (for_return _ _) as [message|]; [right; cbn; eauto|]).
  left. split; reflexivity.
Qed.

Lemma checkSolution_empty_cell (g : PseudokuGame.Game) (row col : nat) :
  row < 9 -> col < 9 -> cell (PseudokuGame.grid g) row col = 0%Z ->
  fst (PseudokuGame.checkSolution g) = false.
Proof.
  intros Hr Hc Hzero.
  destruct (fst (PseudokuGame.checkSolution g)) eqn:Hcheck; [|reflexivity].
  apply checkSolution_true_iff in Hcheck as (Hcells & _).
  exfalso. exact (Hcells row col Hr Hc Hzero).
Qed.

(** ** The proof life cycle *)

Section ProofLifecycle.
Import PseudokuGame.

(** [generateProof] looks at the two fields of the proof system and at
    nothing else before it calls [noir.execute]: not at the grid, not at
    the outcome of a check. *)
Lemma generateProof_calls_execute (g : Game) (fieldValue : Z) :
  noir g = true -> backend g = true ->
  BigInt_ofString (fieldElement g) = Some fieldValue ->
  proverCalls (generateProof g)
  = (proverCalls g
     ++ [CallExecute {| solution := (BigInt_toString fieldValue, grid g);
                        challenge := (BigInt_toString fieldValue,
                                      CHALLENGE_PUZZLE) |}])%list
  /\ pending (generateProof g)
     = (pending g
        ++ [AwaitExecute {| solution := (BigInt_toString fieldValue, grid g);
                            challenge := (BigInt_toString fieldValue,
                                          CHALLENGE_PUZZLE) |}])%list.
Proof.
  intros Hnoir Hbackend Hfield. unfold generateProof.
  rewrite Hnoir, Hbackend. cbn [negb orb showStatus setDisabled fieldElement].
  rewrite Hfield. split; reflexivity.
Qed.

Variable P : Prover.

(** C6, against the code.  The claim wants [generateProof] turned down,
    with no call to the prover, whenever the last check has not succeeded
    on the grid as it is.  The code does not do that.  [generateProof] has
    no such guard, and the guard of its caller, the button, is enabled by a
    successful check and not disabled again by an edit: from any game whose
    grid is solved, a check followed by the emptying of a cell leaves a
    grid that [checkSolution] refuses, with the button enabled, and the
    invocation of [generateProof], by the click or directly, calls
    [noir.execute] with that grid. *)
Theorem generateProof_runs_while_editing
    (g : Game) (row col : nat) (fieldValue : Z) :
  is9x9 (grid g) -> row < 9 -> col < 9 ->
  noir g = true -> backend g = true ->
  BigInt_ofString (fieldElement g) = Some fieldValue ->
  fst (checkSolution g) = true ->
  fst (checkSolution (run P [ClickCheck; CellInput row col ""] g)) = false
  /\ generateProofBtnDisabled (run P [ClickCheck; CellInput row col ""] g) = false
  /\ dispatch P ClickGenerateProof (run P [ClickCheck; CellInput row col ""] g)
     = generateProof (run P [ClickCheck; CellInput row col ""] g)
  /\ proverCalls (generateProof (run P [ClickCheck; CellInput row col ""] g))
     = (proverCalls g
        ++ [CallExecute
              {| solution := (BigInt_toString fieldValue,
                              setCell (grid g) row col 0);
                 challenge := (BigInt_toString fieldValue,
                               CHALLENGE_PUZZLE) |}])%list.
Proof.
  intros Hg Hr Hc Hnoir Hbackend Hfield Hcheck.
  assert (Hedit : run P [ClickCheck; CellInput row col ""] g
                  = setGrid (setCell (grid g) row col 0)
                      (setDisabled false
                         (showStatus
                            "Solution is correct! You can now generate a proof."
                            success (setTimer false g)))).
  { unfold run. cbn [fold_left dispatch].
    destruct (checkSolution_outcome g) as [[_ ->]|[Hko _]]; [|congruence].
    reflexivity. }
  rewrite Hedit. split; [|split; [|split]].
  - apply (checkSolution_empty_cell _ row col Hr Hc).
    cbn [setGrid grid]. apply cell_setCell_same; assumption.
  - reflexivity.
  - reflexivity.
  - refine (proj1 (generateProof_calls_execute _ fieldValue _ _ _)); assumption.
Qed.

End ProofLifecycle.

Lemma generateProof_runs_while_editing_witness :
  fst (PseudokuGame.checkSolution
         (PseudokuGame.run failingProver
            [PseudokuGame.ClickCheck; PseudokuGame.CellInput 0 2 ""]
            (startedGame solvedGrid))) = false
  /\ PseudokuGame.generateProofBtnDisabled
       (PseudokuGame.run failingProver
          [PseudokuGame.ClickCheck; PseudokuGame.CellInput 0 2 ""]
          (startedGame solvedGrid)) = false
  /\ PseudokuGame.dispatch failingProver PseudokuGame.ClickGenerateProof
       (PseudokuGame.run failingProver
          [PseudokuGame.ClickCheck; PseudokuGame.CellInput 0 2 ""]
          (startedGame solvedGrid))
     = PseudokuGame.generateProof
         (PseudokuGame.run failingProver
            [PseudokuGame.ClickCheck; PseudokuGame.CellInput 0 2 ""]
            (startedGame solvedGrid))
  /\ PseudokuGame.proverCalls
       (PseudokuGame.generateProof
          (PseudokuGame.run failingProver
             [PseudokuGame.ClickCheck; PseudokuGame.CellInput 0 2 ""]
             (startedGame solvedGrid)))
     = [PseudokuGame.CallExecute
          {| PseudokuGame.solution := ("42", setCell solvedGrid 0 2 0);
             PseudokuGame.challenge := ("42", PseudokuGame.CHALLENGE_PUZZLE) |}].
Proof.
  apply (generateProof_runs_while_editing failingProver
           (startedGame solvedGrid) 0 2 42).
  - exact is9x9_solvedGrid.
  - lia.
  - lia.
  - reflexivity.
  - reflexivity.
  - vm_compute. reflexivity.
  - vm_compute. reflexivity.
Defined.

(** The button is also enabled by the end of an invocation that was
    started before a reset.  The proof asked for on the solved grid is
    still being computed when the game is reset; the invocation goes on
    after the reset, calls [backend.generateProof] and
    [backend.verifyProof], stores the proof of the earlier grid in the new
    game and enables the button, and the next click calls [noir.execute]
    with the bare challenge. *)
Example generateProof_enabled_by_proof_in_flight :
  let afterReset :=
    PseudokuGame.run acceptingProver
      [PseudokuGame.ClickCheck; PseudokuGame.ClickGenerateProof;
       PseudokuGame.ClickReset true "43";
       PseudokuGame.Settle 0; PseudokuGame.Settle 0; PseudokuGame.Settle 0]
      (startedGame solvedGrid) in
  PseudokuGame.grid afterReset = PseudokuGame.CHALLENGE_PUZZLE
  /\ fst (PseudokuGame.checkSolution afterReset) = false
  /\ PseudokuGame.generateProofBtnDisabled afterReset = false
  /\ PseudokuGame.fieldElement afterReset = "43"
  /\ PseudokuGame.proof afterReset
     = Some {| ProofData.proof := [1; 2; 3; 4]%Z;
               ProofData.publicInputs := ["42"] |}
  /\ PseudokuGame.proverCalls
       (PseudokuGame.dispatch acceptingProver PseudokuGame.ClickGenerateProof
          afterReset)
     = [PseudokuGame.CallExecute
          {| PseudokuGame.solution := ("42", solvedGrid);
             PseudokuGame.challenge := ("42", PseudokuGame.CHALLENGE_PUZZLE) |};
        PseudokuGame.CallGenerateProof [1; 2; 3]%Z;
        PseudokuGame.CallVerifyProof
          {| ProofData.proof := [1; 2; 3; 4]%Z;
             ProofData.publicInputs := ["42"] |};
        PseudokuGame.CallExecute
          {| PseudokuGame.solution := ("43", PseudokuGame.CHALLENGE_PUZZLE);
             PseudokuGame.challenge := ("43", PseudokuGame.CHALLENGE_PUZZLE) |}].
Proof. repeat split; vm_compute; reflexivity. Qed.

Example encodeURIComponent_callback :
  encodeURIComponent "https://pseudoku.qedk.xyz/callback"
  = "https%3A%2F%2Fpseudoku.qedk.xyz%2Fcallback".
Proof. vm_compute. reflexivity. Qed.

Example formatTime_examples :
  formatTime 125999 = Some "2m 5s" /\ formatTime 59999 = Some "59s"
  /\ formatTime 0 = Some "0s" /\ formatTime (-1) = Some "-1s"
  /\ formatTime MAX_SAFE_INTEGER = Some "150119987579m 0s".
Proof. repeat split; vm_compute; reflexivity. Qed.

(** * Part 4: further properties of the code *)

(** ** What a valid grid is *)

Lemma range_nodup_permutation (arr : list Z) :
  Forall inRange19 arr /\ List.NoDup arr /\ length arr = 9
  <-> Permutation arr digits19.
Proof.
  split.
  - intros (Hr & Hnd & Hlen).
    assert (Hincl : incl arr digits19).
    { intros v Hv. apply inRange19_digits19.
      rewrite Forall_forall in Hr. apply Hr, list_elem_of_In, Hv. }
    apply Permutation.NoDup_Permutation; [exact Hnd | exact NoDup_digits19|].
    intros x. split; [apply Hincl|].
    apply (@NoDup_length_incl Z arr digits19 Hnd);
      [rewrite Hlen; cbn; lia | exact Hincl].
  - intros Hperm. repeat split.
    + apply Forall_forall. intros v Hv. apply inRange19_digits19.
      apply (Permutation_in _ Hperm), list_elem_of_In, Hv.
    + apply (Permutation_NoDup (Permutation_sym Hperm)), NoDup_digits19.
    + rewrite (Permutation_length Hperm). reflexivity.
Qed.

Lemma hasAllDigits_permutation (arr : list Z) :
  hasAllDigits arr = true <-> Permutation arr digits19.
Proof. rewrite hasAllDigits_true_iff. apply range_nodup_permutation. Qed.

(** X1.  [hasAllDigits] accepts an array exactly when it is a rearrangement
    of 1, 2, ..., 9, whatever its length and its values: an array of
    another length, one with a value outside 1..9 and one with a repeated
    value are all turned down. *)
Theorem hasAllDigits_iff_permutation (arr : list Z) :
  (hasAllDigits arr = true <-> Permutation arr digits19)
  /\ (length arr <> 9 -> hasAllDigits arr = false)
  /\ ((exists v, In v arr /\ ~ (1 <= v <= 9)%Z) -> hasAllDigits arr = false)
  /\ (~ List.NoDup arr -> hasAllDigits arr = false).
Proof.
  split; [apply hasAllDigits_permutation|].
  repeat split; intros Hbad; apply not_true_is_false; intros Hok;
    apply hasAllDigits_true_iff in Hok as (Hr & Hnd & Hlen).
  - contradiction.
  - destruct Hbad as (v & Hv & Hout). apply Hout.
    rewrite Forall_forall in Hr. apply (Hr v), list_elem_of_In, Hv.
  - contradiction.
Qed.

Lemma cellError_None_iff grid i j :
  cellError grid i j = None <-> inRange19 (cell grid i j).
Proof.
  unfold cellError, inRange19.
  destruct (Z.eqb_spec (cell grid i j) 0) as [->|Hz]; [split; [discriminate | lia]|].
  destruct (Z.ltb_spec (cell grid i j) 1); cbn [orb]; [split; [discriminate | lia]|].
  destruct (Z.gtb_spec (cell grid i j) 9); [split; [discriminate | lia]|].
  split; [lia | reflexivity].
Qed.

Lemma isValid_valid_None grid :
  valid (isValid grid) = true <->
  for_return (fun i => for_return (cellError grid i) (seq 0 9)) (seq 0 9) = None
  /\ for_return (rowError grid) (seq 0 9) = None
  /\ for_return (columnError grid) (seq 0 9) = None
  /\ for_return (boxError grid) (seq 0 9) = None.
Proof.
  unfold isValid.
  destruct (for_return (fun i => _) _); [cbn; split; [discriminate | intros [H _]; discriminate H]|].
  destruct (for_return (rowError grid) _); [cbn; split; [discriminate | intros (_ & H & _); discriminate H]|].
  destruct (for_return (columnError grid) _); [cbn; split; [discriminate | intros (_ & _ & H & _); discriminate H]|].
  destruct (for_return (boxError grid) _); [cbn; split; [discriminate | intros (_ & _ & _ & H); discriminate H]|].
  cbn. tauto.
Qed.

Lemma negb_error_None (b : bool) (msg : string) :
  (if negb b then Some msg else None) = None <-> b = true.
Proof. destruct b; cbn; split; congruence. Qed.

(** [isValid] accepts a grid when its 81 cells are in 1..9 and
    [hasAllDigits] accepts its rows, columns and boxes. *)
Lemma isValid_true_iff grid :
  valid (isValid grid) = true <->
  (forall i j, i < 9 -> j < 9 -> inRange19 (cell grid i j))
  /\ (forall i, i < 9 -> hasAllDigits (gridRow grid i) = true)
  /\ (forall j, j < 9 -> hasAllDigits (getColumn grid j) = true)
  /\ (forall b, b < 9 -> hasAllDigits (getBox grid b) = true).
Proof.
  rewrite isValid_valid_None, !for_return_None_iff.
  unfold rowError, columnError, boxError.
  setoid_rewrite for_return_None_iff.
  setoid_rewrite below_9_in_seq.
  setoid_rewrite cellError_None_iff.
  setoid_rewrite negb_error_None.
  split; intros (Hcells & Hrest); (split; [|exact Hrest]); intros; auto.
Qed.

Lemma rowValues_gridRow grid k :
  is9x9 grid -> k < 9 -> rowValues grid k = gridRow grid k.
Proof. intros Hg Hk. symmetry. apply gridRow_cells; assumption. Qed.

(** X2.  On a 9 x 9 grid [isValid] answers valid exactly when every row,
    every column and every box is a rearrangement of 1..9. *)
Theorem isValid_iff_sudoku (grid : SudokuGrid) :
  is9x9 grid ->
  (valid (isValid grid) = true <->
   forall k, k < 9 ->
     Permutation (rowValues grid k) digits19
     /\ Permutation (columnValues grid k) digits19
     /\ Permutation (boxValues grid k) digits19).
Proof.
  intros Hg. rewrite isValid_true_iff. split.
  - intros (_ & Hrows & Hcols & Hboxes) k Hk. repeat split.
    + rewrite (rowValues_gridRow grid k Hg Hk).
      apply hasAllDigits_permutation, Hrows, Hk.
    + specialize (Hcols k Hk).
      apply hasAllDigits_permutation, Hcols.
    + specialize (Hboxes k Hk). rewrite getBox_cells in Hboxes.
      apply hasAllDigits_permutation, Hboxes.
  - intros Hall. split; [|split; [|split]].
    + intros i j Hi Hj. destruct (Hall i Hi) as (Hrow & _).
      apply inRange19_digits19, (Permutation_in _ Hrow).
      unfold rowValues. apply in_map_iff. exists j.
      split; [reflexivity | apply below_9_in_seq, Hj].
    + intros i Hi. destruct (Hall i Hi) as (Hrow & _).
      rewrite <- (rowValues_gridRow grid i Hg Hi).
      apply hasAllDigits_permutation, Hrow.
    + intros j Hj. destruct (Hall j Hj) as (_ & Hcol & _).
      apply hasAllDigits_permutation, Hcol.
    + intros b Hb. destruct (Hall b Hb) as (_ & _ & Hbox).
      rewrite getBox_cells.
      apply hasAllDigits_permutation, Hbox.
Qed.

Lemma isValid_iff_sudoku_witness :
  valid (isValid solvedGrid) = true <->
  forall k, k < 9 ->
    Permutation (rowValues solvedGrid k) digits19
    /\ Permutation (columnValues solvedGrid k) digits19
    /\ Permutation (boxValues solvedGrid k) digits19.
Proof. exact (isValid_iff_sudoku solvedGrid is9x9_solvedGrid). Defined.

(** ** Filled and empty cells *)

Lemma count_row_cells grid i (cols : list nat) : forall count,
  fold_left (fun count j =>
      if negb (cell grid i j =? 0)%Z then S count else count) cols count
  + length (flat_map (fun j => if (cell grid i j =? 0)%Z then [(i, j)] else []) cols)
  = count + length cols.
Proof.
  induction cols as [|j cols IH]; intros count; cbn [fold_left flat_map length].
  - lia.
  - rewrite length_app.
    destruct (cell grid i j =? 0)%Z; cbn [negb length];
      [specialize (IH count) | specialize (IH (S count))]; lia.
Qed.

Lemma count_grid_cells grid (rows : list nat) : forall count,
  fold_left (fun count i =>
      fold_left (fun count j =>
        if negb (cell grid i j =? 0)%Z then S count else count)
        (seq 0 9) count) rows count
  + length (flat_map (fun i =>
      flat_map (fun j => if (cell grid i j =? 0)%Z then [(i, j)] else [])
        (seq 0 9)) rows)
  = count + 9 * length rows.
Proof.
  induction rows as [|i rows IH]; intros count; cbn [fold_left flat_map length].
  - lia.
  - rewrite length_app.
    pose proof (count_row_cells grid i (seq 0 9) count) as Hrow.
    rewrite length_seq in Hrow.
    specialize (IH (fold_left (fun count j =>
        if negb (cell grid i j =? 0)%Z then S count else count) (seq 0 9) count)).
    lia.
Qed.

Lemma getEmptyCells_In grid i j :
  In (i, j) (getEmptyCells grid) <-> i < 9 /\ j < 9 /\ cell grid i j = 0%Z.
Proof.
  unfold getEmptyCells. rewrite in_flat_map. split.
  - intros (i' & Hi' & Hin). apply in_flat_map in Hin as (j' & Hj' & Hin).
    apply below_9_in_seq in Hi', Hj'.
    destruct (Z.eqb_spec (cell grid i' j') 0) as [Hz|_]; [|destruct Hin].
    destruct Hin as [[= <- <-]|[]]. auto.
  - intros (Hi & Hj & Hz). exists i. split; [apply below_9_in_seq, Hi|].
    apply in_flat_map. exists j. split; [apply below_9_in_seq, Hj|].
    rewrite Hz. left. reflexivity.
Qed.

(** X3.  Every one of the 81 cells is either counted by [countFilledCells]
    or listed by [getEmptyCells], never both: the two add up to 81, the
    list holds exactly the positions of the cells that are 0, and it is
    empty exactly when the count is 81. *)
Theorem filled_and_empty_cells (grid : SudokuGrid) :
  countFilledCells grid + length (getEmptyCells grid) = 81
  /\ (forall i j, In (i, j) (getEmptyCells grid)
                  <-> i < 9 /\ j < 9 /\ cell grid i j = 0%Z)
  /\ (getEmptyCells grid = [] <-> countFilledCells grid = 81).
Proof.
  pose proof (count_grid_cells grid (seq 0 9) 0) as Hsum.
  rewrite length_seq in Hsum. fold (countFilledCells grid) in Hsum.
  fold (getEmptyCells grid) in Hsum.
  split; [lia|]. split; [apply getEmptyCells_In|].
  split.
  - intros Hnil. rewrite Hnil in Hsum. cbn [length] in Hsum. lia.
  - intros Hcount. destruct (getEmptyCells grid); [reflexivity | cbn [length] in Hsum; lia].
Qed.

(** X4.  A grid that [isValid] accepts has no empty cell: [getEmptyCells]
    is empty and [countFilledCells] is 81. *)
Theorem valid_grid_is_full (grid : SudokuGrid) :
  valid (isValid grid) = true ->
  getEmptyCells grid = [] /\ countFilledCells grid = 81.
Proof.
  intros Hvalid. apply isValid_true_iff in Hvalid as (Hcells & _).
  assert (Hnil : getEmptyCells grid = []).
  { destruct (getEmptyCells grid) as [|[i j] rest] eqn:Hempty; [reflexivity|].
    assert (Hin : In (i, j) (getEmptyCells grid)) by (rewrite Hempty; left; reflexivity).
    apply getEmptyCells_In in Hin as (Hi & Hj & Hz).
    specialize (Hcells i j Hi Hj). unfold inRange19 in Hcells. lia. }
  split; [exact Hnil|].
  pose proof (count_grid_cells grid (seq 0 9) 0) as Hsum.
  rewrite length_seq in Hsum. fold (countFilledCells grid) in Hsum.
  fold (getEmptyCells grid) in Hsum. rewrite Hnil in Hsum. cbn [length] in Hsum. lia.
Qed.

Lemma valid_grid_is_full_witness :
  getEmptyCells solvedGrid = [] /\ countFilledCells solvedGrid = 81.
Proof. apply valid_grid_is_full. vm_compute. reflexivity. Defined.

(** ** Conflicts and peers *)

Lemma in_box_below_9 (k i : nat) : k < 9 -> i / 3 = k / 3 -> i < 9.
Proof.
  intros Hk Hq.
  pose proof (Nat.div_mod_eq i 3). pose proof (Nat.div_mod_eq k 3).
  pose proof (Nat.mod_upper_bound i 3). pose proof (Nat.mod_upper_bound k 3).
  lia.
Qed.

Lemma rowHit_true_iff grid row col value :
  rowHit grid row col value = true <->
  exists j, j < 9 /\ j <> col /\ cell grid row j = value.
Proof.
  unfold rowHit. rewrite existsb_exists. split.
  - intros (j & Hj & Hc). apply below_9_in_seq in Hj.
    apply andb_true_iff in Hc as [Hne Hv].
    apply negb_true_iff, Nat.eqb_neq in Hne. apply Z.eqb_eq in Hv. eauto.
  - intros (j & Hj & Hne & Hv). exists j. split; [apply below_9_in_seq, Hj|].
    apply Nat.eqb_neq in Hne. rewrite Hne. cbn. apply Z.eqb_eq, Hv.
Qed.

Lemma colHit_true_iff grid row col value :
  colHit grid row col value = true <->
  exists i, i < 9 /\ i <> row /\ cell grid i col = value.
Proof.
  unfold colHit. rewrite existsb_exists. split.
  - intros (i & Hi & Hc). apply below_9_in_seq in Hi.
    apply andb_true_iff in Hc as [Hne Hv].
    apply negb_true_iff, Nat.eqb_neq in Hne. apply Z.eqb_eq in Hv. eauto.
  - intros (i & Hi & Hne & Hv). exists i. split; [apply below_9_in_seq, Hi|].
    apply Nat.eqb_neq in Hne. rewrite Hne. cbn. apply Z.eqb_eq, Hv.
Qed.

(** Some scan of [getConflicts] finds the value exactly when a peer holds
    it. *)
Lemma some_hit_iff_peer grid row col value :
  row < 9 -> col < 9 ->
  (rowHit grid row col value || colHit grid row col value
   || boxHit grid row col value = true
   <-> exists i j, peer row col i j /\ cell grid i j = value).
Proof.
  intros Hrow Hcol. rewrite !orb_true_iff.
  rewrite rowHit_true_iff, colHit_true_iff, boxHit_true_iff. unfold peer. split.
  - intros [[(j & Hj & Hne & Hv)|(i & Hi & Hne & Hv)]|(i & j & Hbox & Hi & Hj & Hv)].
    + exists row, j. repeat split; auto; congruence.
    + exists i, col. repeat split; auto; congruence.
    + destruct Hbox as [Hbi Hbj]. exists i, j. repeat split.
      * exact (in_box_below_9 row i Hrow Hbi).
      * exact (in_box_below_9 col j Hcol Hbj).
      * congruence.
      * right. right. split; assumption.
      * exact Hv.
  - intros (i & j & (Hi & Hj & Hne & Hrel) & Hv).
    destruct (Nat.eq_dec i row) as [->|Hir].
    + left. left. exists j. repeat split; auto; congruence.
    + destruct (Nat.eq_dec j col) as [->|Hjc].
      * left. right. exists i. auto.
      * right. exists i, j. destruct Hrel as [?|[?|Hbox]]; try contradiction.
        auto.
Qed.

Lemma getConflicts_nil_iff grid row col value :
  SudokuValidator.getConflicts grid row col value = []
  <-> rowHit grid row col value || colHit grid row col value
      || boxHit grid row col value = false.
Proof.
  unfold SudokuValidator.getConflicts.
  fold (rowHit grid row col value). fold (colHit grid row col value).
  fold (boxHit grid row col value).
  destruct (rowHit _ _ _ _), (colHit _ _ _ _), (boxHit _ _ _ _); cbn;
    split; congruence.
Qed.

Lemma game_getConflicts_nil_iff (g : PseudokuGame.Game) row col value :
  PseudokuGame.getConflicts g row col value = []
  <-> rowHit (PseudokuGame.grid g) row col value
      || colHit (PseudokuGame.grid g) row col value
      || boxHit (PseudokuGame.grid g) row col value = false.
Proof.
  unfold PseudokuGame.getConflicts.
  fold (rowHit (PseudokuGame.grid g) row col value).
  fold (colHit (PseudokuGame.grid g) row col value).
  fold (boxHit (PseudokuGame.grid g) row col value).
  destruct (rowHit _ _ _ _), (colHit _ _ _ _), (boxHit _ _ _ _); cbn;
    split; congruence.
Qed.

(** X5.  For a cell of the grid, [getConflicts] returns no conflict exactly
    when no other cell of its row, of its column or of its box holds the
    value: the box scan skips the cells of the target's row and column, and
    the row and column scans cover them.  The [getConflicts] of the game
    class, which decides whether the cell is marked as an error, is empty in
    the same cases. *)
Theorem getConflicts_nil_iff_no_peer
    (g : PseudokuGame.Game) (row col : nat) (value : Z) :
  row < 9 -> col < 9 ->
  (SudokuValidator.getConflicts (PseudokuGame.grid g) row col value = []
   <-> forall i j, peer row col i j -> cell (PseudokuGame.grid g) i j <> value)
  /\ (PseudokuGame.getConflicts g row col value = []
      <-> SudokuValidator.getConflicts (PseudokuGame.grid g) row col value = []).
Proof.
  intros Hrow Hcol. split.
  - rewrite getConflicts_nil_iff.
    pose proof (some_hit_iff_peer (PseudokuGame.grid g) row col value Hrow Hcol)
      as Hhit.
    destruct (rowHit _ _ _ _ || colHit _ _ _ _ || boxHit _ _ _ _).
    + split; [discriminate|]. intros Hnone.
      destruct (proj1 Hhit eq_refl) as (i & j & Hp & Hv).
      exfalso. exact (Hnone i j Hp Hv).
    + split; [|reflexivity]. intros _ i j Hp Hv.
      assert (false = true) by (apply Hhit; eauto). discriminate.
  - rewrite getConflicts_nil_iff, game_getConflicts_nil_iff. reflexivity.
Qed.

Lemma getConflicts_nil_iff_no_peer_witness :
  SudokuValidator.getConflicts
    (PseudokuGame.grid (startedGame Constants.CHALLENGE_PUZZLE_default)) 0 2 4 = []
  <-> forall i j, peer 0 2 i j ->
        cell (PseudokuGame.grid (startedGame Constants.CHALLENGE_PUZZLE_default)) i j
        <> 4%Z.
Proof.
  apply (getConflicts_nil_iff_no_peer
           (startedGame Constants.CHALLENGE_PUZZLE_default) 0 2 4); lia.
Defined.

(** ** Valid grids and conflicts *)

Lemma getColumn_nth grid col i :
  i < 9 -> nth i (getColumn grid col) 0%Z = cell grid i col.
Proof. intros Hi. do 9 (destruct i as [|i]; [reflexivity|]). lia. Qed.

Lemma getBox_nth grid b k :
  b < 9 -> k < 9 ->
  nth k (getBox grid b) 0%Z = cell grid (b / 3 * 3 + k / 3) (b mod 3 * 3 + k mod 3).
Proof.
  intros Hb Hk.
  do 9 (destruct b as [|b];
        [do 9 (destruct k as [|k]; [reflexivity|]); lia|]).
  lia.
Qed.

(** The box of a cell and the place of the cell in it. *)
Lemma box_of_cell (row col : nat) :
  row < 9 -> col < 9 ->
  row / 3 * 3 + col / 3 < 9 /\ row mod 3 * 3 + col mod 3 < 9
  /\ (row / 3 * 3 + col / 3) / 3 * 3 + (row mod 3 * 3 + col mod 3) / 3 = row
  /\ (row / 3 * 3 + col / 3) mod 3 * 3 + (row mod 3 * 3 + col mod 3) mod 3 = col.
Proof.
  intros Hr Hc.
  do 9 (destruct row as [|row];
        [do 9 (destruct col as [|col]; [vm_compute; repeat split; lia|]); lia|]).
  lia.
Qed.

Lemma cell_of_box (b k : nat) :
  b < 9 -> k < 9 ->
  b / 3 * 3 + k / 3 < 9 /\ b mod 3 * 3 + k mod 3 < 9
  /\ (b / 3 * 3 + k / 3) / 3 * 3 + (b mod 3 * 3 + k mod 3) / 3 = b
  /\ (b / 3 * 3 + k / 3) mod 3 * 3 + (b mod 3 * 3 + k mod 3) mod 3 = k
  /\ (b / 3 * 3 + k / 3) / 3 = b / 3
  /\ (b mod 3 * 3 + k mod 3) / 3 = b mod 3.
Proof.
  intros Hb Hk.
  do 9 (destruct b as [|b];
        [do 9 (destruct k as [|k]; [vm_compute; repeat split; lia|]); lia|]).
  lia.
Qed.

Lemma getBox_cell grid row col :
  row < 9 -> col < 9 ->
  nth (row mod 3 * 3 + col mod 3) (getBox grid (row / 3 * 3 + col / 3)) 0%Z
  = cell grid row col.
Proof.
  intros Hr Hc. destruct (box_of_cell row col Hr Hc) as (Hb & Hk & Hrow & Hcol).
  rewrite getBox_nth by assumption. rewrite Hrow, Hcol. reflexivity.
Qed.

Lemma getConflicts_nil_no_peer grid row col value :
  row < 9 -> col < 9 ->
  (SudokuValidator.getConflicts grid row col value = []
   <-> forall i j, peer row col i j -> cell grid i j <> value).
Proof.
  intros Hrow Hcol. rewrite getConflicts_nil_iff.
  pose proof (some_hit_iff_peer grid row col value Hrow Hcol) as Hhit.
  destruct (rowHit _ _ _ _ || colHit _ _ _ _ || boxHit _ _ _ _).
  - split; [discriminate|]. intros Hnone.
    destruct (proj1 Hhit eq_refl) as (i & j & Hp & Hv).
    exfalso. exact (Hnone i j Hp Hv).
  - split; [|reflexivity]. intros _ i j Hp Hv.
    assert (false = true) by (apply Hhit; eauto). discriminate.
Qed.

Lemma no_conflicts_iff_distinctPeers grid :
  (forall row col, row < 9 -> col < 9 ->
     SudokuValidator.getConflicts grid row col (cell grid row col) = [])
  <-> distinctPeers grid.
Proof.
  unfold distinctPeers. split.
  - intros Hnone row col i j Hr Hc Hp.
    exact (proj1 (getConflicts_nil_no_peer grid row col _ Hr Hc) (Hnone row col Hr Hc) i j Hp).
  - intros Hdist row col Hr Hc. apply getConflicts_nil_no_peer; [assumption..|].
    intros i j Hp. exact (Hdist row col i j Hr Hc Hp).
Qed.

Lemma hasAllDigits_NoDup arr :
  hasAllDigits arr = true -> List.NoDup arr /\ length arr = 9.
Proof. intros H. apply hasAllDigits_true_iff in H. tauto. Qed.

Lemma valid_distinctPeers grid :
  valid (isValid grid) = true -> distinctPeers grid.
Proof.
  intros Hvalid. apply isValid_true_iff in Hvalid as (_ & Hrows & Hcols & Hboxes).
  intros row col i j Hr Hc (Hi & Hj & Hne & Hrel) Heq.
  destruct (Nat.eq_dec i row) as [->|Hir].
  { destruct (hasAllDigits_NoDup _ (Hrows row Hr)) as [Hnd Hlen].
    pose proof (proj1 (NoDup_nth _ 0%Z) Hnd) as Hnth.
    assert (j = col) by (apply Hnth; [lia | lia | exact Heq]). congruence. }
  destruct (Nat.eq_dec j col) as [->|Hjc].
  { destruct (hasAllDigits_NoDup _ (Hcols col Hc)) as [Hnd Hlen].
    pose proof (proj1 (NoDup_nth _ 0%Z) Hnd) as Hnth.
    assert (i = row); [|contradiction].
    apply Hnth; [lia | lia |]. rewrite !getColumn_nth by assumption. exact Heq. }
  destruct Hrel as [?|[?|[Hbi Hbj]]]; [contradiction..|].
  destruct (box_of_cell row col Hr Hc) as (Hb & Hk & _).
  destruct (box_of_cell i j Hi Hj) as (_ & Hk' & _).
  destruct (hasAllDigits_NoDup _ (Hboxes _ Hb)) as [Hnd Hlen].
  pose proof (proj1 (NoDup_nth _ 0%Z) Hnd (i mod 3 * 3 + j mod 3)
                (row mod 3 * 3 + col mod 3)) as Hnth.
  clear Hnd. rename Hnth into Hnd.
  rewrite Hlen in Hnd. specialize (Hnd Hk' Hk).
  rewrite (getBox_cell grid row col Hr Hc) in Hnd.
  rewrite <- Hbi, <- Hbj in Hnd.
  rewrite (getBox_cell grid i j Hi Hj) in Hnd. specialize (Hnd Heq).
  pose proof (Nat.div_mod_eq i 3). pose proof (Nat.div_mod_eq row 3).
  pose proof (Nat.mod_upper_bound i 3). pose proof (Nat.mod_upper_bound row 3).
  pose proof (Nat.mod_upper_bound j 3). pose proof (Nat.mod_upper_bound col 3).
  lia.
Qed.

Lemma distinctPeers_valid grid :
  is9x9 grid ->
  (forall i j, i < 9 -> j < 9 -> inRange19 (cell grid i j)) ->
  distinctPeers grid -> valid (isValid grid) = true.
Proof.
  intros Hg Hrange Hdist. apply isValid_true_iff.
  split; [exact Hrange|]. split; [|split].
  - intros row Hr. apply hasAllDigits_true_iff.
    pose proof (is9x9_row grid row Hg Hr) as Hlen.
    split; [|split; [|exact Hlen]].
    + apply Forall_nth with (d := 0%Z). intros j Hj.
      apply (Hrange row j); lia.
    + apply (NoDup_nth _ 0%Z). intros i j Hi Hj Heq.
      destruct (Nat.eq_dec i j) as [|Hij]; [assumption|]. exfalso.
      apply (Hdist row j row i); [lia | lia | | exact Heq].
      unfold peer. split; [lia|]. split; [lia|]. split; [congruence|].
      left. reflexivity.
  - intros col Hc. apply hasAllDigits_true_iff.
    split; [|split; [|reflexivity]].
    + apply Forall_nth with (d := 0%Z). intros i Hi.
      rewrite getColumn_length in Hi. rewrite getColumn_nth by exact Hi.
      apply (Hrange i col); lia.
    + apply (NoDup_nth _ 0%Z). intros i j Hi Hj Heq.
      rewrite getColumn_length in Hi, Hj.
      rewrite !getColumn_nth in Heq by assumption.
      destruct (Nat.eq_dec i j) as [|Hij]; [assumption|]. exfalso.
      apply (Hdist j col i col); [lia | lia | | exact Heq].
      unfold peer. split; [lia|]. split; [lia|]. split; [congruence|].
      right. left. reflexivity.
  - intros b Hb. apply hasAllDigits_true_iff.
    split; [|split; [|reflexivity]].
    + apply Forall_nth with (d := 0%Z). intros k Hk.
      rewrite getBox_length in Hk. rewrite getBox_nth by assumption.
      destruct (cell_of_box b k Hb Hk) as (Hi & Hj & _).
      apply Hrange; assumption.
    + apply (NoDup_nth _ 0%Z). intros k1 k2 Hk1 Hk2 Heq.
      rewrite getBox_length in Hk1, Hk2.
      rewrite !getBox_nth in Heq by assumption.
      destruct (Nat.eq_dec k1 k2) as [|Hk12]; [assumption|]. exfalso.
      destruct (cell_of_box b k1 Hb Hk1) as (Hi1 & Hj1 & _ & Hk1' & Hq1 & Hm1).
      destruct (cell_of_box b k2 Hb Hk2) as (Hi2 & Hj2 & _ & Hk2' & Hq2 & Hm2).
      remember (b / 3 * 3 + k1 / 3) as i1. remember (b mod 3 * 3 + k1 mod 3) as j1.
      remember (b / 3 * 3 + k2 / 3) as i2. remember (b mod 3 * 3 + k2 mod 3) as j2.
      apply (Hdist _ _ _ _ Hi2 Hj2) in Heq; [exact Heq|].
      unfold peer, inBoxOf. split; [exact Hi1|]. split; [exact Hj1|]. split.
      * intros Hsame. assert (Hi : i1 = i2) by congruence.
        assert (Hj : j1 = j2) by congruence.
        rewrite Hi, Hj in Hk1'. congruence.
      * right. right. split; congruence.
Qed.

(** X6.  On a 9 x 9 grid the final check and the live conflict check agree:
    [isValid] accepts the grid exactly when every cell holds a value of
    1..9 and [getConflicts], asked about each cell with the value it holds,
    reports nothing.  In particular no cell of a valid grid is in conflict. *)
Theorem isValid_iff_no_conflicts (grid : SudokuGrid) :
  is9x9 grid ->
  (valid (isValid grid) = true <->
   (forall i j, i < 9 -> j < 9 -> (1 <= cell grid i j <= 9)%Z)
   /\ (forall row col, row < 9 -> col < 9 ->
         SudokuValidator.getConflicts grid row col (cell grid row col) = [])).
Proof.
  intros Hg. rewrite no_conflicts_iff_distinctPeers. split.
  - intros Hvalid. split; [|apply valid_distinctPeers, Hvalid].
    apply isValid_true_iff in Hvalid as (Hrange & _). exact Hrange.
  - intros [Hrange Hdist]. apply distinctPeers_valid; assumption.
Qed.

Lemma isValid_iff_no_conflicts_witness :
  SudokuValidator.getConflicts solvedGrid 4 7 (cell solvedGrid 4 7) = [].
Proof.
  refine (proj2 (proj1 (isValid_iff_no_conflicts solvedGrid is9x9_solvedGrid) _)
            4 7 _ _).
  - vm_compute. reflexivity.
  - lia.
  - lia.
Defined.

(** X7.  The box number that [getConflicts] reports follows the numbering
    of [getBox]: for a cell of the grid, the reported position [b] is below
    9, the cell is entry [row mod 3 * 3 + col mod 3] of [getBox(grid, b)],
    and the value in conflict is found in that same array. *)
Theorem getConflicts_box_is_getBox (grid : SudokuGrid) (row col : nat) (value : Z)
    (c : Conflict) :
  row < 9 -> col < 9 ->
  In c (SudokuValidator.getConflicts grid row col value) ->
  type c = BoxConflict ->
  position c < 9
  /\ nth (row mod 3 * 3 + col mod 3) (getBox grid (position c)) 0%Z
     = cell grid row col
  /\ In value (getBox grid (position c)).
Proof.
  intros Hr Hc Hin Hty.
  assert (Hhit : boxHit grid row col value = true)
    by (apply getConflicts_box; eauto).
  assert (Hpos : position c = row / 3 * 3 + col / 3).
  { unfold SudokuValidator.getConflicts in Hin.
    repeat (apply in_app_or in Hin as [Hin|Hin]).
    - destruct (existsb _ _); [|destruct Hin].
      destruct Hin as [<-|[]]. discriminate Hty.
    - destruct (existsb _ _); [|destruct Hin].
      destruct Hin as [<-|[]]. discriminate Hty.
    - destruct (existsb _ _); [|destruct Hin].
      destruct Hin as [<-|[]]. reflexivity. }
  rewrite Hpos. destruct (box_of_cell row col Hr Hc) as (Hb & Hk & _).
  split; [exact Hb|]. split; [apply getBox_cell; assumption|].
  apply boxHit_true_iff in Hhit as (i & j & [Hbi Hbj] & _ & _ & Hv).
  pose proof (in_box_below_9 row i Hr Hbi) as Hi.
  pose proof (in_box_below_9 col j Hc Hbj) as Hj.
  rewrite <- Hbi, <- Hbj, <- Hv, <- (getBox_cell grid i j Hi Hj).
  apply nth_In. rewrite getBox_length.
  apply (box_of_cell i j Hi Hj).
Qed.

Lemma getConflicts_box_is_getBox_witness :
  In 8%Z (getBox Constants.CHALLENGE_PUZZLE_default 0).
Proof.
  refine (proj2 (proj2 (getConflicts_box_is_getBox
    Constants.CHALLENGE_PUZZLE_default 1 1 8
    {| type := BoxConflict; position := 0 |} _ _ _ _))).
  - lia.
  - lia.
  - vm_compute. left. reflexivity.
  - reflexivity.
Defined.

(** ** The check of the game and the validator *)

Lemma hasAllDigits_row_range grid i j :
  hasAllDigits (gridRow grid i) = true -> j < 9 -> inRange19 (cell grid i j).
Proof.
  intros Hrow Hj. apply hasAllDigits_true_iff in Hrow as (Hr & _ & Hlen).
  rewrite Forall_forall in Hr. apply Hr, list_elem_of_In.
  unfold cell. apply nth_In. lia.
Qed.

(** X8.  The check of the game and the validator agree on a 9 x 9 grid:
    [checkSolution] returns true exactly when [isValid] answers valid.
    When it does, the timer is stopped and the generate-proof button
    enabled; when it does not, neither is touched.  The grid, the proof and
    the field element are never changed. *)
Theorem checkSolution_agrees_with_isValid (g : PseudokuGame.Game) :
  is9x9 (PseudokuGame.grid g) ->
  fst (PseudokuGame.checkSolution g) = valid (isValid (PseudokuGame.grid g))
  /\ (fst (PseudokuGame.checkSolution g) = true ->
      PseudokuGame.generateProofBtnDisabled (snd (PseudokuGame.checkSolution g))
      = false
      /\ PseudokuGame.timerInterval (snd (PseudokuGame.checkSolution g)) = false)
  /\ (fst (PseudokuGame.checkSolution g) = false ->
      PseudokuGame.generateProofBtnDisabled (snd (PseudokuGame.checkSolution g))
      = PseudokuGame.generateProofBtnDisabled g
      /\ PseudokuGame.timerInterval (snd (PseudokuGame.checkSolution g))
         = PseudokuGame.timerInterval g)
  /\ PseudokuGame.grid (snd (PseudokuGame.checkSolution g)) = PseudokuGame.grid g
  /\ PseudokuGame.proof (snd (PseudokuGame.checkSolution g)) = PseudokuGame.proof g
  /\ PseudokuGame.fieldElement (snd (PseudokuGame.checkSolution g))
     = PseudokuGame.fieldElement g.
Proof.
  intros Hg. split.
  - apply eq_true_iff_eq. rewrite checkSolution_true_iff, isValid_true_iff.
    split; intros (Hcells & Hrows & Hrest); (split; [|split; assumption]).
    + intros i j Hi Hj. apply hasAllDigits_row_range; auto.
    + intros i j Hi Hj. specialize (Hcells i j Hi Hj).
      unfold inRange19 in Hcells. lia.
  - destruct (checkSolution_outcome g) as [[Hok ->]|[Hko [message ->]]];
      rewrite ?Hok, ?Hko; repeat split; intros; congruence.
Qed.

Lemma checkSolution_agrees_with_isValid_witness :
  fst (PseudokuGame.checkSolution (startedGame solvedGrid))
  = valid (isValid solvedGrid).
Proof.
  exact (proj1 (checkSolution_agrees_with_isValid (startedGame solvedGrid)
                  is9x9_solvedGrid)).
Defined.

(** ** What the handlers keep *)

Section GameInvariants.
Import PseudokuGame.
Variable P : Prover.

Lemma generateProof_keeps (g : Game) :
  grid (generateProof g) = grid g /\ proof (generateProof g) = proof g.
Proof.
  unfold generateProof.
  destruct (negb (noir g) || negb (backend g)); [split; reflexivity|]. cbn.
  destruct (BigInt_ofString (fieldElement g)); split; reflexivity.
Qed.

Lemma submitVerification_keeps publicInputsInput parsed proofHexInput (g : Game) :
  grid (submitVerification publicInputsInput parsed proofHexInput g) = grid g
  /\ proof (submitVerification publicInputsInput parsed proofHexInput g) = proof g.
Proof.
  unfold submitVerification.
  destruct (performVerification _ _ _ _); split; reflexivity.
Qed.

(** An invocation that goes on never writes the grid. *)
Lemma resume_grid (a : Await) (g : Game) : grid (resume P a g) = grid g.
Proof.
  destruct a as [inputs|witness|proofData|proofData]; cbn [resume].
  - destruct (execute P inputs); reflexivity.
  - destruct (proverGenerateProof P witness); reflexivity.
  - destruct (verifyProof P proofData) as [|[]]; reflexivity.
  - destruct (verifyProof P proofData) as [|[]]; reflexivity.
Qed.

(** The one place that writes [this.proof] comes after [verifyProof] has
    answered true on that proof. *)
Lemma resume_stored (a : Await) (g : Game) :
  storedProofVerified P g -> storedProofVerified P (resume P a g).
Proof.
  unfold storedProofVerified. intros Hinv.
  destruct a as [inputs|witness|proofData|proofData]; cbn [resume].
  - destruct (execute P inputs); exact Hinv.
  - destruct (proverGenerateProof P witness); exact Hinv.
  - destruct (verifyProof P proofData) as [|[]] eqn:Hverify; cbn;
      [exact Hinv | | exact Hinv].
    intros p [= <-]. exact Hverify.
  - destruct (verifyProof P proofData) as [|[]]; exact Hinv.
Qed.

Lemma checkSolution_keeps (g : Game) :
  grid (snd (checkSolution g)) = grid g
  /\ proof (snd (checkSolution g)) = proof g.
Proof.
  destruct (checkSolution_outcome g) as [[_ ->]|[_ [message ->]]];
    split; reflexivity.
Qed.

Lemma handleCellInput_proof row col value (g : Game) :
  proof (handleCellInput row col value g) = proof g.
Proof.
  unfold handleCellInput.
  destruct (negb (value =? "") && negb (isDigit1to9 value)); reflexivity.
Qed.

Lemma dispatch_stored (e : Event) (g : Game) :
  storedProofVerified P g -> storedProofVerified P (dispatch P e g).
Proof.
  intros Hinv.
  destruct e as [row col value| | |confirmed fe| |publicInputsInput parsed proofHexInput|k|elapsed];
    cbn [dispatch].
  - unfold storedProofVerified. rewrite handleCellInput_proof. exact Hinv.
  - unfold storedProofVerified. rewrite (proj2 (checkSolution_keeps g)). exact Hinv.
  - destruct (generateProofBtnDisabled g); [exact Hinv|].
    unfold storedProofVerified. rewrite (proj2 (generateProof_keeps g)). exact Hinv.
  - unfold reset. destruct confirmed; [|exact Hinv]. intros p Hp. discriminate Hp.
  - unfold giveHint. destruct (forallb _ _); exact Hinv.
  - unfold storedProofVerified.
    rewrite (proj2 (submitVerification_keeps _ _ _ g)). exact Hinv.
  - destruct (pending g !! k); [|exact Hinv]. apply resume_stored. exact Hinv.
  - destruct (timerInterval g); exact Hinv.
Qed.

Lemma run_stored (events : list Event) : forall g : Game,
  storedProofVerified P g -> storedProofVerified P (run P events g).
Proof.
  induction events as [|e later IH]; intros g Hinv; [exact Hinv|].
  unfold run. cbn [fold_left]. apply IH, dispatch_stored, Hinv.
Qed.

(** The value typed in a cell and the value stored for it. *)
Lemma handleCellInput_effect row col value (g : Game) :
  handleCellInput row col value g = g
  \/ exists v, (0 <= v <= 9)%Z
       /\ handleCellInput row col value g = setGrid (setCell (grid g) row col v) g.
Proof.
  unfold handleCellInput.
  destruct (String.eqb_spec value "") as [->|Hne]; cbn [negb andb].
  - right. exists 0%Z. split; [lia | reflexivity].
  - destruct (isDigit1to9 value) eqn:Hdigit; cbn [negb]; [|left; reflexivity].
    right. destruct value as [|c [|d rest]]; try discriminate Hdigit.
    unfold isDigit1to9 in Hdigit. apply andb_true_iff in Hdigit as [Hlo Hhi].
    apply Nat.leb_le in Hlo, Hhi.
    exists (Z.of_nat (nat_of_ascii c - 48)). split; [lia | reflexivity].
Qed.

Lemma cellsIn09_setCell grid row col v :
  is9x9 grid -> row < 9 -> col < 9 -> (0 <= v <= 9)%Z ->
  cellsIn09 grid -> cellsIn09 (setCell grid row col v).
Proof.
  intros Hg Hr Hc Hv Hcells i j Hi Hj.
  destruct (decide ((i, j) = (row, col))) as [[= -> ->]|Hne].
  - rewrite cell_setCell_same by assumption. exact Hv.
  - rewrite cell_setCell_other by assumption. apply Hcells; assumption.
Qed.

Lemma cellsIn09_challenge : cellsIn09 CHALLENGE_PUZZLE.
Proof.
  intros i j Hi Hj.
  do 9 (destruct i as [|i];
        [do 9 (destruct j as [|j]; [vm_compute; split; discriminate|]); lia|]).
  lia.
Qed.

Lemma dispatch_grid_shape (e : Event) (g : Game) :
  match e with CellInput row col _ => row < 9 /\ col < 9 | _ => True end ->
  is9x9 (grid g) /\ cellsIn09 (grid g) ->
  is9x9 (grid (dispatch P e g)) /\ cellsIn09 (grid (dispatch P e g)).
Proof.
  intros Hin [Hg Hcells].
  destruct e as [row col value| | |confirmed fe| |publicInputsInput parsed proofHexInput|k|elapsed];
    cbn [dispatch].
  - destruct Hin as [Hr Hc].
    destruct (handleCellInput_effect row col value g) as [->|(v & Hv & ->)];
      [split; assumption|].
    cbn [setGrid grid]. split; [apply is9x9_setCell, Hg|].
    apply cellsIn09_setCell; assumption.
  - rewrite (proj1 (checkSolution_keeps g)). split; assumption.
  - destruct (generateProofBtnDisabled g); [split; assumption|].
    rewrite (proj1 (generateProof_keeps g)). split; assumption.
  - unfold reset. destruct confirmed; [|split; assumption].
    cbn. split; [exact is9x9_challenge | exact cellsIn09_challenge].
  - unfold giveHint. destruct (forallb _ _); split; assumption.
  - rewrite (proj1 (submitVerification_keeps _ _ _ g)). split; assumption.
  - destruct (pending g !! k); [|split; assumption].
    rewrite resume_grid. split; assumption.
  - destruct (timerInterval g); split; assumption.
Qed.

(** X9.  A proof the game holds is one its own verification accepted:
    whatever the user does (inputs, checks, clicks on generate-proof,
    resets, hints, verifications of a submitted proof), however the timer
    ticks and whenever the answers of the prover arrive in between, if
    [this.proof] is set then
    [verifyProof] returned true on it.  A failed or throwing verification
    never leaves a proof behind. *)
Theorem stored_proof_is_verified (events : list Event) (g : Game) :
  proof g = None ->
  forall proofData,
    proof (run P events g) = Some proofData ->
    verifyProof P proofData = inr true.
Proof.
  intros Hnone. apply run_stored. intros p Hp. congruence.
Qed.

(** X10.  The grid keeps its shape: from a 9 x 9 grid with cells in 0..9,
    and with input events that come from cells of the grid, every state
    the game reaches has a 9 x 9 grid with cells in 0..9, also while
    proofs are being generated.  An input that is not a digit 1..9 changes
    nothing and an emptied cell becomes 0. *)
Theorem grid_stays_well_formed (events : list Event) (g : Game) :
  is9x9 (grid g) -> cellsIn09 (grid g) -> inputsInGrid events ->
  is9x9 (grid (run P events g)) /\ cellsIn09 (grid (run P events g)).
Proof.
  intros Hg Hcells Hin. revert g Hg Hcells.
  induction Hin as [|e later He _ IH]; intros g Hg Hcells; [split; assumption|].
  unfold run. cbn [fold_left].
  destruct (dispatch_grid_shape e g He (conj Hg Hcells)) as [Hg' Hcells'].
  apply IH; assumption.
Qed.

End GameInvariants.

Lemma stored_proof_is_verified_witness :
  PseudokuGame.verifyProof acceptingProver
    {| ProofData.proof := [1; 2; 3; 4]%Z; ProofData.publicInputs := ["42"] |}
  = inr true.
Proof.
  apply (stored_proof_is_verified acceptingProver
           [PseudokuGame.ClickCheck; PseudokuGame.ClickGenerateProof;
            PseudokuGame.Settle 0; PseudokuGame.Settle 0; PseudokuGame.Settle 0]
           (startedGame solvedGrid)).
  - reflexivity.
  - vm_compute. reflexivity.
Defined.

Example proof_kept_after_verification :
  PseudokuGame.proof
    (PseudokuGame.run acceptingProver
       [PseudokuGame.ClickCheck; PseudokuGame.ClickGenerateProof;
        PseudokuGame.Settle 0; PseudokuGame.Settle 0; PseudokuGame.Settle 0]
       (startedGame solvedGrid))
  = Some {| ProofData.proof := [1; 2; 3; 4]%Z; ProofData.publicInputs := ["42"] |}.
Proof. vm_compute. reflexivity. Qed.

Lemma grid_stays_well_formed_witness :
  is9x9 (PseudokuGame.grid
           (PseudokuGame.run failingProver
              [PseudokuGame.CellInput 0 2 "4"; PseudokuGame.CellInput 1 1 "x";
               PseudokuGame.CellInput 0 2 ""; PseudokuGame.ClickCheck]
              (startedGame Constants.CHALLENGE_PUZZLE_default)))
  /\ cellsIn09 (PseudokuGame.grid
           (PseudokuGame.run failingProver
              [PseudokuGame.CellInput 0 2 "4"; PseudokuGame.CellInput 1 1 "x";
               PseudokuGame.CellInput 0 2 ""; PseudokuGame.ClickCheck]
              (startedGame Constants.CHALLENGE_PUZZLE_default))).
Proof.
  apply grid_stays_well_formed.
  - exact is9x9_challenge.
  - exact cellsIn09_challenge.
  - repeat constructor; lia.
Defined.

(** ** The candidate and the challenge *)

Lemma free_cell_is_zero (row col : nat) :
  row < 9 -> col < 9 ->
  nth col (nth row PseudokuGame.fixedCells []) true = false ->
  cell PseudokuGame.CHALLENGE_PUZZLE row col = 0%Z.
Proof.
  intros Hr Hc.
  do 9 (destruct row as [|row];
        [do 9 (destruct col as [|col];
               [vm_compute; intros Hfree; first [reflexivity | discriminate Hfree]|]);
         lia|]).
  lia.
Qed.

Lemma matchesChallenge_setCell_free (candidate challenge : SudokuGrid) i j d :
  is9x9 candidate -> i < 9 -> j < 9 -> cell challenge i j = 0%Z ->
  matchesChallenge candidate challenge = true ->
  matchesChallenge (setCell candidate i j d) challenge = true.
Proof.
  intros Hg Hi Hj Hzero. rewrite !matchesChallenge_true_iff.
  intros H i' j' Hi' Hj' Hclue.
  destruct (decide ((i', j') = (i, j))) as [[= -> ->]|Hne]; [contradiction|].
  rewrite cell_setCell_other by assumption. auto.
Qed.

Section CandidateExtendsChallenge.
Import PseudokuGame.
Variable P : Prover.

Lemma dispatch_extends (e : Event) (g : Game) :
  match e with
  | CellInput row col _ =>
      row < 9 /\ col < 9 /\ nth col (nth row fixedCells []) true = false
  | _ => True
  end ->
  is9x9 (grid g) /\ matchesChallenge (grid g) CHALLENGE_PUZZLE = true ->
  is9x9 (grid (dispatch P e g))
  /\ matchesChallenge (grid (dispatch P e g)) CHALLENGE_PUZZLE = true.
Proof.
  intros Hin [Hg Hm].
  destruct e as [row col value| | |confirmed fe| |publicInputsInput parsed proofHexInput|k|elapsed];
    cbn [dispatch].
  - destruct Hin as (Hr & Hc & Hfree).
    destruct (handleCellInput_effect row col value g) as [->|(v & Hv & ->)];
      [split; assumption|].
    cbn [setGrid grid]. split; [apply is9x9_setCell, Hg|].
    apply matchesChallenge_setCell_free; try assumption.
    apply free_cell_is_zero; assumption.
  - rewrite (proj1 (checkSolution_keeps g)). split; assumption.
  - destruct (generateProofBtnDisabled g); [split; assumption|].
    rewrite (proj1 (generateProof_keeps g)). split; assumption.
  - unfold reset. destruct confirmed; [|split; assumption].
    cbn [showStatus grid]. split; [exact is9x9_challenge | reflexivity].
  - unfold giveHint. destruct (forallb _ _); split; assumption.
  - rewrite (proj1 (submitVerification_keeps _ _ _ g)). split; assumption.
  - destruct (pending g !! k); [|split; assumption].
    rewrite (resume_grid P). split; assumption.
  - destruct (timerInterval g); split; assumption.
Qed.

(** X11.  The candidate never contradicts the challenge: the cells
    [initializeGame] marks as fixed are the non-zero cells of the challenge,
    and as long as the input events come from the other cells (the fixed
    ones are read-only), every grid the game reaches repeats every clue, so
    [matchesChallenge] holds of it. *)
Theorem candidate_extends_challenge (events : list Event) (g : Game) :
  is9x9 (grid g) ->
  matchesChallenge (grid g) CHALLENGE_PUZZLE = true ->
  inputsInFreeCells events ->
  matchesChallenge (grid (run P events g)) CHALLENGE_PUZZLE = true
  /\ (forall i j, i < 9 -> j < 9 ->
        nth j (nth i fixedCells []) true = true ->
        cell (grid (run P events g)) i j = cell CHALLENGE_PUZZLE i j).
Proof.
  intros Hg Hm Hin.
  assert (Hinv : is9x9 (grid (run P events g))
                 /\ matchesChallenge (grid (run P events g)) CHALLENGE_PUZZLE = true).
  { revert g Hg Hm. induction Hin as [|e later He _ IH]; intros g Hg Hm;
      [split; assumption|].
    unfold run. cbn [fold_left].
    destruct (dispatch_extends e g He (conj Hg Hm)) as [Hg' Hm'].
    apply IH; assumption. }
  destruct Hinv as [_ Hfinal]. split; [exact Hfinal|].
  intros i j Hi Hj Hfixed.
  apply (proj1 (matchesChallenge_true_iff _ _) Hfinal i j Hi Hj).
  intros Hzero. revert Hfixed Hzero. clear -Hi Hj.
  do 9 (destruct i as [|i];
        [do 9 (destruct j as [|j];
               [vm_compute; intros Hfixed Hzero;
                first [discriminate Hfixed | discriminate Hzero]|]);
         lia|]).
  lia.
Qed.

(** X12.  The field element reaches the circuit unchanged: when the
    session's field element is a string [generateFieldElement] returned,
    converting it to a BigInt and back gives the same string, and
    [generateProof] first calls [execute] with exactly that string in both
    the solution input and the challenge input, next to the current grid
    and the challenge puzzle, and waits for its answer. *)
Theorem field_element_reaches_prover (draws later : list (list Z))
    (fe : string) (g : Game) :
  generateFieldElement draws = Some (fe, later) ->
  noir g = true -> backend g = true -> fieldElement g = fe ->
  fieldElementToString fe = Some fe
  /\ proverCalls (generateProof g)
     = (proverCalls g
        ++ [CallExecute {| solution := (fe, grid g);
                           challenge := (fe, CHALLENGE_PUZZLE) |}])%list
  /\ pending (generateProof g)
     = (pending g
        ++ [AwaitExecute {| solution := (fe, grid g);
                            challenge := (fe, CHALLENGE_PUZZLE) |}])%list.
Proof.
  unfold generateFieldElement. intros Hgen Hnoir Hbackend Hfe.
  destruct (sampleLoop draws) as [[x rest]|]; [|discriminate Hgen].
  injection Hgen as <- _.
  split; [unfold fieldElementToString; rewrite BigInt_roundtrip; reflexivity|].
  unfold generateProof. rewrite Hnoir, Hbackend. cbn [negb orb].
  cbn [showStatus setDisabled fieldElement]. rewrite Hfe, BigInt_roundtrip.
  split; reflexivity.
Qed.

End CandidateExtendsChallenge.

Lemma candidate_extends_challenge_witness :
  matchesChallenge
    (PseudokuGame.grid
       (PseudokuGame.run failingProver
          [PseudokuGame.CellInput 0 2 "4"; PseudokuGame.ClickCheck;
           PseudokuGame.CellInput 8 0 "7"]
          (startedGame Constants.CHALLENGE_PUZZLE_default)))
    PseudokuGame.CHALLENGE_PUZZLE = true.
Proof.
  refine (proj1 (candidate_extends_challenge failingProver
    [PseudokuGame.CellInput 0 2 "4"; PseudokuGame.ClickCheck;
     PseudokuGame.CellInput 8 0 "7"]
    (startedGame Constants.CHALLENGE_PUZZLE_default) _ _ _)).
  - exact is9x9_challenge.
  - reflexivity.
  - repeat constructor; lia.
Defined.

Lemma field_element_reaches_prover_witness :
  fieldElementToString
    "3178606371220444580254889784552217078325058402586211561867463090413301597959"
  = Some
      "3178606371220444580254889784552217078325058402586211561867463090413301597959".
Proof.
  refine (proj1 (field_element_reaches_prover
    [repeat 255%Z 32; repeat 7%Z 32] []
    "3178606371220444580254889784552217078325058402586211561867463090413301597959"
    (PseudokuGame.reset true
       "3178606371220444580254889784552217078325058402586211561867463090413301597959"
       (startedGame solvedGrid)) _ _ _ _)).
  - vm_compute. reflexivity.
  - reflexivity.
  - reflexivity.
  - reflexivity.
Defined.

(** ** Keyboard navigation *)

(** X13.  The arrow keys and Enter never leave the grid: from a cell of
    the grid every key leads to a cell of the grid.  Enter walks the cells
    in reading order, one cell at a time, and stays on the last cell. *)
Theorem nextCell_stays_in_grid (key : string) (row col : nat) :
  row < 9 -> col < 9 ->
  fst (PseudokuGame.nextCell key row col) < 9
  /\ snd (PseudokuGame.nextCell key row col) < 9
  /\ ((row, col) <> (8, 8) ->
      9 * fst (PseudokuGame.nextCell "Enter" row col)
      + snd (PseudokuGame.nextCell "Enter" row col) = 9 * row + col + 1)
  /\ PseudokuGame.nextCell "Enter" 8 8 = (8, 8).
Proof.
  intros Hr Hc. unfold PseudokuGame.nextCell.
  repeat split.
  - repeat (destruct (_ =? _)%string; [cbn [fst]; lia|]).
    destruct (_ =? _)%string; [|cbn [fst]; lia].
    destruct (Nat.ltb_spec col 8); [cbn [fst]; lia|].
    destruct (Nat.ltb_spec row 8); cbn [fst]; lia.
  - repeat (destruct (_ =? _)%string; [cbn [snd]; lia|]).
    destruct (_ =? _)%string; [|cbn [snd]; lia].
    destruct (Nat.ltb_spec col 8); [cbn [snd]; lia|].
    destruct (Nat.ltb_spec row 8); cbn [snd]; lia.
  - intros Hlast. cbn [String.eqb Ascii.eqb Bool.eqb].
    change ("Enter" =? "ArrowUp") with false.
    change ("Enter" =? "ArrowDown") with false.
    change ("Enter" =? "ArrowLeft") with false.
    change ("Enter" =? "ArrowRight") with false.
    change ("Enter" =? "Enter") with true. cbv iota.
    destruct (Nat.ltb_spec col 8); [cbn [fst snd]; lia|].
    destruct (Nat.ltb_spec row 8); [cbn [fst snd]; lia|].
    exfalso. apply Hlast. f_equal; lia.
Qed.

Lemma nextCell_stays_in_grid_witness :
  fst (PseudokuGame.nextCell "ArrowDown" 8 3) < 9
  /\ snd (PseudokuGame.nextCell "ArrowDown" 8 3) < 9.
Proof.
  destruct (nextCell_stays_in_grid "ArrowDown" 8 3) as (Hrow & Hcol & _);
    [lia | lia |].
  split; assumption.
Defined.

Example nextCell_examples :
  PseudokuGame.nextCell "ArrowUp" 0 4 = (0, 4)
  /\ PseudokuGame.nextCell "ArrowRight" 3 8 = (3, 8)
  /\ PseudokuGame.nextCell "Enter" 2 8 = (3, 0)
  /\ PseudokuGame.nextCell "a" 2 8 = (2, 8).
Proof. repeat split. Qed.

(** ** The hexadecimal encoding is injective *)

Lemma toHex_decode (bytes : list Z) :
  Forall u8 bytes ->
  Uint8Array_from (map parseInt16 (matchPairs_list (toHex bytes))) = bytes.
Proof.
  intros Hbytes. rewrite (matchPairs_toHex bytes Hbytes).
  apply parse_hexBytes, Hbytes.
Qed.

Lemma toHex_injective (xs ys : list Z) :
  Forall u8 xs -> Forall u8 ys -> toHex xs = toHex ys -> xs = ys.
Proof.
  intros Hxs Hys Heq.
  rewrite <- (toHex_decode xs Hxs), <- (toHex_decode ys Hys), Heq. reflexivity.
Qed.

(** X14.  Two different proofs are never exported as the same hexadecimal
    string: on byte arrays the encoding of [prepareProofExport] is
    injective, and the export keeps the public inputs, the challenge id and
    the time it is given. *)
Theorem prepareProofExport_injective (a b : ProofData.t)
    (idA idB : string) (timeA timeB : Z) (nowA nowB : string) :
  Forall u8 (ProofData.proof a) -> Forall u8 (ProofData.proof b) ->
  prepareProofExport a idA timeA nowA = prepareProofExport b idB timeB nowB ->
  a = b /\ idA = idB /\ timeA = timeB /\ nowA = nowB.
Proof.
  destruct a as [bytesA inputsA], b as [bytesB inputsB].
  unfold prepareProofExport. cbn [ProofData.proof ProofData.publicInputs].
  intros HA HB [= Hid Hhex Hinputs Htime Hnow].
  rewrite (toHex_injective bytesA bytesB HA HB Hhex), Hinputs. auto.
Qed.

Lemma prepareProofExport_injective_witness :
  sampleArtifact = sampleArtifact /\ "1" = "1" /\ 0%Z = 0%Z /\ "now" = "now".
Proof.
  apply (prepareProofExport_injective sampleArtifact sampleArtifact
           "1" "1" 0 0 "now" "now").
  - repeat constructor; unfold u8; lia.
  - repeat constructor; unfold u8; lia.
  - reflexivity.
Defined.

(** ** More on the OAuth flow *)

Section OAuthFlow.
Import GitHubOAuth.
Variable fetch : Request -> FetchResult.

Lemma generateState_toHex (randomBytes : list Z) :
  generateState randomBytes = toHex randomBytes.
Proof. reflexivity. Qed.

Lemma handleCallback_mismatch (code state : string) (w : Browser) :
  sessionStorage w !! "oauth_state" <> Some state ->
  handleCallback fetch code state w = (Rejected "Invalid OAuth state", w).
Proof.
  intros Hne. unfold handleCallback.
  rewrite bool_decide_eq_false_2 by congruence. reflexivity.
Qed.

(** X15.  What [handleCallback] does to the browser.  It never touches a
    storage entry other than [oauth_state] (the pending proof stays).  When
    it rejects, no request was sent.  When it fulfils, the stored state was
    the one supplied and is gone, and exactly one request was sent, to
    [/auth/github/callback] of the configured backend, with the code and
    the state.  A failed exchange (network error, non-ok response,
    unreadable body) fulfils with null: it is not reported as an error. *)
Theorem handleCallback_effects (code state : string) (w : Browser) :
  (forall key, key <> "oauth_state" ->
     sessionStorage (snd (handleCallback fetch code state w)) !! key
     = sessionStorage w !! key)
  /\ (forall message,
        fst (handleCallback fetch code state w) = Rejected message ->
        requests (snd (handleCallback fetch code state w)) = requests w
        /\ (message = "Invalid OAuth state"
            \/ message = "Backend server not configured for OAuth"))
  /\ (forall token,
        fst (handleCallback fetch code state w) = Fulfilled token ->
        sessionStorage w !! "oauth_state" = Some state
        /\ sessionStorage (snd (handleCallback fetch code state w)) !! "oauth_state"
           = None
        /\ exists backendUrl,
             OAUTH_API_ENDPOINT w = Some backendUrl
             /\ requests (snd (handleCallback fetch code state w))
                = (requests w
                   ++ [ {| url := backendUrl ++ "/auth/github/callback";
                           code := code; state := state |} ])%list
             /\ (token <> None ->
                 fetch {| url := backendUrl ++ "/auth/github/callback";
                          code := code; state := state |}
                 = Response true (Some token))).
Proof.
  unfold handleCallback.
  destruct (decide (Some state = sessionStorage w !! "oauth_state")) as [Hsame|Hdiff].
  2:{ rewrite bool_decide_eq_false_2 by exact Hdiff. cbn [negb fst snd].
      split; [|split];
        [reflexivity | intros message [= <-]; auto | intros token Hf; discriminate Hf]. }
  rewrite bool_decide_eq_true_2 by exact Hsame. cbn [negb].
  cbn [removeItem OAUTH_API_ENDPOINT].
  assert (Hother : forall key, key <> "oauth_state" ->
            delete "oauth_state" (sessionStorage w) !! key = sessionStorage w !! key)
    by (intros key Hkey; apply lookup_delete_ne; congruence).
  destruct (OAUTH_API_ENDPOINT w) as [[|c backendUrl]|] eqn:Hendpoint.
  - cbn [fst snd sessionStorage requests].
    split; [|split];
      [exact Hother | intros message [= <-]; auto | intros token Hf; discriminate Hf].
  - destruct (fetch _) as [|[] [tok|]] eqn:Hfetch; cbn [fst snd sessionStorage requests sent];
      (split; [exact Hother|]); (split; [intros message Hr; discriminate Hr|]);
      intros token [= <-]; (split; [symmetry; exact Hsame|]);
      (split; [apply lookup_delete_eq|]);
      exists (String c backendUrl); (split; [reflexivity|]);
      (split; [reflexivity|]); intros Hsome;
      first [contradiction | exact Hfetch].
  - cbn [fst snd sessionStorage requests].
    split; [|split];
      [exact Hother | intros message [= <-]; auto | intros token Hf; discriminate Hf].
Qed.

(** X16.  A state is good for one accepted callback: once [handleCallback]
    has accepted a callback (whatever the exchange then gave), every later
    callback, with the same state or any other, is rejected with the state
    error and sends nothing. *)
Theorem handleCallback_no_replay (code state code' state' : string) (w : Browser) :
  sessionStorage w !! "oauth_state" = Some state ->
  handleCallback fetch code' state'
    (snd (handleCallback fetch code state w))
  = (Rejected "Invalid OAuth state", snd (handleCallback fetch code state w)).
Proof.
  intros Hsaved. apply handleCallback_mismatch.
  rewrite (handleCallback_match_erases fetch code state w Hsaved). discriminate.
Qed.

(** X17.  [initiateOAuth] and [handleCallback] fit together.  The state
    stored by [initiateOAuth] is the lower-case hexadecimal rendering of the
    random bytes, two digits per byte, and it is the [state] parameter that
    ends the address the browser is sent to.  A callback that carries it
    passes the state check and uses it up; a callback that carries the
    state of any other random bytes is rejected and sends nothing. *)
Theorem initiateOAuth_then_callback (origin clientId code : string)
    (randomBytes : list Z) (w : Browser) :
  Forall u8 randomBytes ->
  sessionStorage (fst (initiateOAuth origin clientId randomBytes w)) !! "oauth_state"
  = Some (generateState randomBytes)
  /\ String.length (generateState randomBytes) = 2 * length randomBytes
  /\ lowerHexString (generateState randomBytes) = true
  /\ (exists front,
        snd (initiateOAuth origin clientId randomBytes w)
        = front ++ "&state=" ++ generateState randomBytes)
  /\ fst (handleCallback fetch code (generateState randomBytes)
            (fst (initiateOAuth origin clientId randomBytes w)))
     <> Rejected "Invalid OAuth state"
  /\ sessionStorage
       (snd (handleCallback fetch code (generateState randomBytes)
               (fst (initiateOAuth origin clientId randomBytes w))))
       !! "oauth_state" = None
  /\ (forall otherBytes, Forall u8 otherBytes -> otherBytes <> randomBytes ->
        handleCallback fetch code (generateState otherBytes)
          (fst (initiateOAuth origin clientId randomBytes w))
        = (Rejected "Invalid OAuth state",
           fst (initiateOAuth origin clientId randomBytes w))).
Proof.
  intros Hbytes.
  assert (Hstored :
    sessionStorage (fst (initiateOAuth origin clientId randomBytes w)) !! "oauth_state"
    = Some (generateState randomBytes)) by apply lookup_insert_eq.
  split; [exact Hstored|].
  split; [rewrite generateState_toHex; apply toHex_length, Hbytes|].
  split; [rewrite generateState_toHex; apply toHex_lowerHex, Hbytes|].
  split.
  { eexists. unfold initiateOAuth. cbn [snd].
    rewrite <- !append_assoc. reflexivity. }
  split.
  { unfold handleCallback. rewrite Hstored.
    rewrite bool_decide_eq_true_2 by reflexivity. cbn [negb].
    destruct (OAUTH_API_ENDPOINT _) as [[|c url]|]; [discriminate | | discriminate].
    destruct (fetch _) as [|[] [?|]]; discriminate. }
  split; [apply handleCallback_match_erases, Hstored|].
  intros otherBytes Hother Hne. apply handleCallback_mismatch.
  rewrite Hstored. intros [= Heq]. apply Hne. symmetry.
  rewrite !generateState_toHex in Heq.
  apply toHex_injective; assumption.
Qed.

End OAuthFlow.

Lemma handleCallback_no_replay_witness :
  GitHubOAuth.handleCallback tokenBackend "code" "5f2a"
    (snd (GitHubOAuth.handleCallback tokenBackend "code" "5f2a" pendingBrowser))
  = (GitHubOAuth.Rejected "Invalid OAuth state",
     snd (GitHubOAuth.handleCallback tokenBackend "code" "5f2a" pendingBrowser)).
Proof.
  apply (handleCallback_no_replay tokenBackend "code" "5f2a" "code" "5f2a"
           pendingBrowser).
  vm_compute. reflexivity.
Defined.

Lemma initiateOAuth_then_callback_witness :
  GitHubOAuth.sessionStorage
    (fst (GitHubOAuth.initiateOAuth "https://pseudoku.qedk.xyz" "client"
            [95; 42]%Z pendingBrowser)) !! "oauth_state"
  = Some (GitHubOAuth.generateState [95; 42]%Z).
Proof.
  refine (proj1 (initiateOAuth_then_callback tokenBackend
    "https://pseudoku.qedk.xyz" "client" "code" [95; 42]%Z pendingBrowser _)).
  repeat constructor; unfold u8; lia.
Defined.

Example initiateOAuth_address :
  snd (GitHubOAuth.initiateOAuth "https://pseudoku.qedk.xyz" "client"
         [95; 42]%Z pendingBrowser)
  = "https://github.com/login/oauth/authorize?client_id=client&redirect_uri=https%3A%2F%2Fpseudoku.qedk.xyz%2Fcallback&scope=gist&state=5f2a".
Proof. vm_compute. reflexivity. Qed.

(** ** Decoding, then encoding *)

Lemma hexPair_ok_all :
  forallb (fun c => forallb (hexPair_ok c) hexChars) hexChars = true.
Proof. vm_compute. reflexivity. Qed.

Lemma isHexDigit_hexChars (c : ascii) : isHexDigit c = true -> In c hexChars.
Proof.
  destruct c as [[] [] [] [] [] [] [] []]; vm_compute; intros H;
    try discriminate H; tauto.
Qed.

Lemma hexPair_decodes (c d : ascii) :
  isHexDigit c = true -> isHexDigit d = true ->
  isLineTerminator c = false /\ isLineTerminator d = false
  /\ exists v, parseInt16 (String c (String d "")) = Some v
       /\ u8 v /\ hexByte v = String (lowerChar c) (String (lowerChar d) "").
Proof.
  intros Hc Hd. apply isHexDigit_hexChars in Hc, Hd.
  pose proof hexPair_ok_all as Hall. rewrite forallb_forall in Hall.
  specialize (Hall c Hc). rewrite forallb_forall in Hall. specialize (Hall d Hd).
  unfold hexPair_ok in Hall.
  apply andb_true_iff in Hall as [Hlt Hparse].
  apply andb_true_iff in Hlt as [Hlc Hld]. apply negb_true_iff in Hlc, Hld.
  split; [exact Hlc|]. split; [exact Hld|].
  destruct (parseInt16 _) as [v|]; [|discriminate Hparse].
  apply andb_true_iff in Hparse as [Hrange Hback].
  apply andb_true_iff in Hrange as [Hlo Hhi].
  exists v. split; [reflexivity|]. split; [unfold u8; lia|].
  apply String.eqb_eq, Hback.
Qed.

Lemma decodeHex_encodes (n : nat) : forall s : string,
  String.length s = 2 * n -> allHex s = true ->
  Forall u8 (decodeHex s) /\ length (decodeHex s) = n
  /\ toHex (decodeHex s) = toLowerCase s.
Proof.
  induction n as [|n IH]; intros s Hlen Hhex.
  - destruct s; [|discriminate Hlen]. repeat split. constructor.
  - destruct s as [|c [|d rest]]; try (cbn in Hlen; lia).
    cbn [allHex] in Hhex. apply andb_true_iff in Hhex as [Hc Hhex].
    apply andb_true_iff in Hhex as [Hd Hrest].
    destruct (hexPair_decodes c d Hc Hd) as (Hlc & Hld & v & Hparse & Hv & Hback).
    destruct (IH rest) as (Hu8 & Hn & Henc); [cbn in Hlen; lia | exact Hrest|].
    assert (Hdecode : decodeHex (String c (String d rest)) = v :: decodeHex rest).
    { unfold decodeHex. cbn [matchPairs_list]. rewrite Hlc, Hld.
      cbn [map Uint8Array_from]. rewrite Hparse.
      destruct Hv. rewrite Z.mod_small by lia. reflexivity. }
    rewrite Hdecode. split; [constructor; assumption|].
    split; [cbn [length]; lia|].
    unfold toHex. cbn [map]. rewrite join_cons. fold (toHex (decodeHex rest)).
    rewrite Hback, Henc. reflexivity.
Qed.

(** X18.  What [performVerification] hands to the verifier is what was
    typed: it submits only when the backend exists, the public inputs
    parsed and the proof text, once trimmed, rid of a leading [0x] and of
    white space, is a non-empty, even-length string of hexadecimal digits;
    the bytes submitted are then those digits, two per byte, so that
    encoding them gives the cleaned text back in lower case. *)
Theorem performVerification_submits_the_text
    (parseArray : string -> option (list string)) (backend : bool)
    (publicInputsInput proofHexInput : string) (submitted : ProofData.t) :
  PseudokuGame.performVerification parseArray backend publicInputsInput
    proofHexInput = PseudokuGame.Submitted submitted ->
  backend = true
  /\ parseArray publicInputsInput = Some (ProofData.publicInputs submitted)
  /\ testHex (PseudokuGame.cleanProofHex proofHexInput) = true
  /\ String.length (PseudokuGame.cleanProofHex proofHexInput)
     = 2 * length (ProofData.proof submitted)
  /\ Forall u8 (ProofData.proof submitted)
  /\ ProofData.proof submitted <> []
  /\ toHex (ProofData.proof submitted)
     = toLowerCase (PseudokuGame.cleanProofHex proofHexInput).
Proof.
  unfold PseudokuGame.performVerification.
  destruct ((publicInputsInput =? "") || (proofHexInput =? "")); [discriminate|].
  destruct (parseArray publicInputsInput) as [inputs|]; [|discriminate].
  set (clean := PseudokuGame.cleanProofHex proofHexInput).
  destruct (testHex clean) eqn:Htest; [|discriminate]. cbn [negb orb].
  destruct (Nat.eqb_spec (String.length clean mod 2) 0) as [Heven|]; [|discriminate].
  cbn [negb]. unfold matchPairs.
  destruct (matchPairs_list clean) as [|pair pairs] eqn:Hpairs; [discriminate|].
  destruct backend; cbn [negb]; [|discriminate].
  intros Heq.
  assert (Hsub : submitted = {| ProofData.proof := decodeHex clean;
                                ProofData.publicInputs := inputs |})
    by (unfold decodeHex; rewrite Hpairs; congruence).
  rewrite Hsub. cbn [ProofData.proof ProofData.publicInputs].
  assert (Hhex : allHex clean = true)
    by (unfold testHex in Htest; destruct clean; [discriminate | exact Htest]).
  assert (Hlen : String.length clean = 2 * (String.length clean / 2))
    by (apply Nat.Div0.div_exact; exact Heven).
  destruct (decodeHex_encodes _ clean Hlen Hhex) as (Hu8 & Hn & Henc).
  repeat split; try assumption.
  - lia.
  - unfold decodeHex. rewrite Hpairs. discriminate.
Qed.

Lemma performVerification_submits_the_text_witness :
  toHex (ProofData.proof sampleArtifact)
  = toLowerCase (PseudokuGame.cleanProofHex "  0x00 0A fF 10 ").
Proof.
  refine (proj2 (proj2 (proj2 (proj2 (proj2 (proj2
    (performVerification_submits_the_text (fun _ => Some ["7"; "12"]) true
       "[7, 12]" "  0x00 0A fF 10 " sampleArtifact _))))))).
  vm_compute. reflexivity.
Defined.

(** ** Fingerprints of short proofs *)

Lemma slice_head_all (s : string) (k : nat) :
  String.length s <= k -> slice s 0 (Some (Z.of_nat k)) = s.
Proof.
  intros Hk. unfold slice. cbn [Z.ltb Z.compare].
  destruct (Z.ltb_spec (Z.of_nat k) 0) as [Hneg|_]; [lia|].
  rewrite Z.min_l by lia. rewrite Z.min_r by lia.
  rewrite Z.sub_0_r, Nat2Z.id. apply substring_0_length.
Qed.

Lemma slice_tail_all (s : string) (k : nat) :
  0 < k -> String.length s <= k -> slice s (- Z.of_nat k) None = s.
Proof.
  intros Hpos Hk. unfold slice.
  destruct (Z.ltb_spec (- Z.of_nat k) 0) as [_|Hge]; [|lia].
  rewrite Z.max_r by lia. rewrite Z.sub_0_r, Nat2Z.id. apply substring_0_length.
Qed.

Lemma slice_head_toHex_any (bytes : list Z) (k : nat) :
  Forall u8 bytes ->
  slice (toHex bytes) 0 (Some (Z.of_nat (2 * k))) = toHex (firstn k bytes).
Proof.
  intros Hbytes. destruct (Nat.le_gt_cases k (length bytes)) as [Hle|Hgt].
  - apply slice_head_toHex; assumption.
  - rewrite firstn_all2 by lia.
    apply slice_head_all. rewrite toHex_length by exact Hbytes. lia.
Qed.

Lemma slice_tail_toHex_any (bytes : list Z) (k : nat) :
  Forall u8 bytes -> 0 < k ->
  slice (toHex bytes) (- Z.of_nat (2 * k)) None
  = toHex (skipn (length bytes - k) bytes).
Proof.
  intros Hbytes Hpos. destruct (Nat.le_gt_cases k (length bytes)) as [Hle|Hgt].
  - apply slice_tail_toHex; [assumption | lia].
  - replace (length bytes - k) with 0 by lia. change (skipn 0 bytes) with bytes.
    apply slice_tail_all; [lia|]. rewrite toHex_length by exact Hbytes. lia.
Qed.

(** X19.  For a proof of at most 32 bytes the fingerprint does show the
    start and the end of the proof: the hex of its first four bytes and of
    its last four (three and three, behind [0x], for the game class).  A
    proof shorter than that is shown whole on both sides, and the empty
    proof as the bare dots. *)
Theorem hashProof_short_proof (proof : list Z) :
  Forall u8 proof -> length proof <= 32 ->
  ProofUtils.hashProof proof
  = toHex (firstn 4 proof) ++ "..." ++ toHex (skipn (length proof - 4) proof)
  /\ PseudokuGame.hashProof proof
     = "0x" ++ toHex (firstn 3 proof) ++ "..."
       ++ toHex (skipn (length proof - 3) proof).
Proof.
  intros Hbytes Hlen.
  unfold ProofUtils.hashProof, PseudokuGame.hashProof.
  rewrite firstn_all2 by exact Hlen. split.
  - change 8%Z with (Z.of_nat (2 * 4)). change (-8)%Z with (- Z.of_nat (2 * 4))%Z.
    rewrite slice_head_toHex_any by exact Hbytes.
    rewrite slice_tail_toHex_any by (assumption || lia). reflexivity.
  - change 6%Z with (Z.of_nat (2 * 3)). change (-6)%Z with (- Z.of_nat (2 * 3))%Z.
    rewrite slice_head_toHex_any by exact Hbytes.
    rewrite slice_tail_toHex_any by (assumption || lia). reflexivity.
Qed.

Lemma hashProof_short_proof_witness :
  ProofUtils.hashProof [0; 1; 2; 3; 4; 5]%Z = "00010203...02030405"
  /\ PseudokuGame.hashProof [0; 1; 2; 3; 4; 5]%Z = "0x000102...030405".
Proof.
  destruct (hashProof_short_proof [0; 1; 2; 3; 4; 5]%Z) as [Hutil Hgame].
  - repeat constructor; unfold u8; lia.
  - cbn. lia.
  - split; [rewrite Hutil | rewrite Hgame]; reflexivity.
Defined.

(** ** Displayed times *)

Section FormatTime.
Local Open Scope Z_scope.

(** X20.  [formatTime] of a non-negative whole number of milliseconds, up
    to [Number.MAX_SAFE_INTEGER], drops the part below a second and shows
    whole minutes and seconds that add up to the whole seconds elapsed, the
    seconds being below 60; under a minute only the seconds are shown. *)
Theorem formatTime_minutes_and_seconds (milliseconds : Z) :
  0 <= milliseconds <= MAX_SAFE_INTEGER ->
  formatTime milliseconds
  = Some (if milliseconds <? 60000
          then (showInt (milliseconds / 1000)%Z ++ "s")%string
          else (showInt (milliseconds / 60000)%Z ++ "m "
                ++ showInt ((milliseconds / 1000) mod 60)%Z ++ "s")%string)
  /\ 0 <= (milliseconds / 1000) mod 60 < 60
  /\ milliseconds / 1000 = 60 * (milliseconds / 60000) + (milliseconds / 1000) mod 60
  /\ formatTime milliseconds = formatTime (1000 * (milliseconds / 1000)).
Proof.
  intros Hms.
  assert (Hsec : 0 <= milliseconds / 1000) by (apply Z.div_pos; lia).
  assert (Hmin : milliseconds / 1000 / 60 = milliseconds / 60000)
    by (rewrite Z.div_div by lia; reflexivity).
  assert (Hsafe : forall ms, 0 <= ms <= MAX_SAFE_INTEGER -> isSafeInteger ms = true).
  { intros ms Hrange. unfold isSafeInteger, MAX_SAFE_INTEGER in *.
    apply andb_true_iff. split; apply Z.leb_le; lia. }
  assert (Hform : forall ms, 0 <= ms <= MAX_SAFE_INTEGER ->
    formatTime ms
    = Some (if ms <? 60000 then (showInt (ms / 1000)%Z ++ "s")%string
            else (showInt (ms / 60000)%Z ++ "m "
                  ++ showInt ((ms / 1000) mod 60)%Z ++ "s")%string)).
  { intros ms Hrange. unfold formatTime. rewrite (Hsafe ms Hrange).
    assert (0 <= ms / 1000) by (apply Z.div_pos; lia).
    rewrite Z.rem_mod_nonneg by lia.
    rewrite Z.div_div by lia. change (1000 * 60) with 60000.
    destruct (Z.ltb_spec ms 60000) as [Hlt|Hge].
    - rewrite (Z.div_small ms 60000) by lia. cbn [Z.gtb Z.compare].
      rewrite Z.mod_small; [reflexivity|].
      split; [assumption|]. apply Z.div_lt_upper_bound; lia.
    - assert (1 <= ms / 60000) by (apply Z.div_le_lower_bound; lia).
      destruct (Z.gtb_spec (ms / 60000) 0); [reflexivity | lia]. }
  split; [apply Hform, Hms|]. split; [apply Z.mod_pos_bound; lia|].
  split; [rewrite <- Hmin; apply Z.div_mod; lia|].
  assert (Hfloor : 0 <= 1000 * (milliseconds / 1000) <= MAX_SAFE_INTEGER).
  { pose proof (Z.mul_div_le milliseconds 1000 ltac:(lia)). lia. }
  unfold formatTime. rewrite (Hsafe _ Hms), (Hsafe _ Hfloor).
  rewrite Z.mul_comm, Z.div_mul by lia. reflexivity.
Qed.

End FormatTime.

Lemma formatTime_minutes_and_seconds_witness :
  formatTime 125999 = Some "2m 5s" /\ formatTime 125999 = formatTime 125000.
Proof.
  destruct (formatTime_minutes_and_seconds 125999) as (Hform & _ & _ & Hround);
    [unfold MAX_SAFE_INTEGER; lia|].
  split; [rewrite Hform; reflexivity | exact Hround].
Defined.

(** ** The sampler keeps all but two bits *)

Section SamplerEntropy.
Local Open Scope Z_scope.

Lemma bigEndian_fold_injective (xs : list Z) : forall (ys : list Z) (a b : Z),
  length xs = length ys -> Forall u8 xs -> Forall u8 ys ->
  fold_left (fun x byte => Z.lor (Z.shiftl x 8) byte) xs a
  = fold_left (fun x byte => Z.lor (Z.shiftl x 8) byte) ys b ->
  a = b /\ xs = ys.
Proof.
  induction xs as [|x xs IH]; intros [|y ys] a b Hlen Hxs Hys; try discriminate Hlen.
  - cbn. auto.
  - apply Forall_cons_1 in Hxs as [Hx Hxs]. apply Forall_cons_1 in Hys as [Hy Hys].
    cbn [fold_left]. rewrite !lor_shiftl8_byte by assumption. intros Heq.
    destruct (IH ys _ _ ltac:(cbn in Hlen; lia) Hxs Hys Heq) as [Hacc ->].
    destruct Hx, Hy. split; [lia | f_equal; lia].
Qed.

Lemma maskTopBits_wellFormed (bytes : list Z) :
  wellFormedDraw bytes -> wellFormedDraw (maskTopBits bytes).
Proof.
  intros [Hlen Hbytes]. destruct bytes as [|b0 rest]; [discriminate Hlen|].
  apply Forall_cons_1 in Hbytes as [_ Hrest]. split; [exact Hlen|].
  constructor; [|exact Hrest].
  pose proof (maskTopBits_first b0). unfold u8. lia.
Qed.

(** X21.  The sampler discards the two masked bits and nothing else: two
    draws of 32 bytes give the same candidate exactly when they are equal
    once the top two bits of the first byte are cleared. *)
Theorem candidate_injective_after_mask (a b : list Z) :
  wellFormedDraw a -> wellFormedDraw b ->
  (candidate a = candidate b <-> maskTopBits a = maskTopBits b).
Proof.
  intros Ha Hb. split; [|unfold candidate; intros ->; reflexivity].
  destruct (maskTopBits_wellFormed a Ha) as [Hlena Hma].
  destruct (maskTopBits_wellFormed b Hb) as [Hlenb Hmb].
  unfold candidate, bigEndian. intros Heq.
  apply (bigEndian_fold_injective _ _ 0 0); [congruence | assumption..].
Qed.

End SamplerEntropy.

Lemma candidate_injective_after_mask_witness :
  candidate (255%Z :: repeat 7%Z 31) = candidate (63%Z :: repeat 7%Z 31)
  <-> maskTopBits (255%Z :: repeat 7%Z 31) = maskTopBits (63%Z :: repeat 7%Z 31).
Proof.
  apply candidate_injective_after_mask;
    (split; [reflexivity | repeat constructor; unfold u8; lia]).
Defined.

(** ** Typing a digit *)

Lemma digit_shown_back (c : ascii) :
  (49 <=? nat_of_ascii c)%nat && (nat_of_ascii c <=? 57)%nat = true ->
  showInt (Z.of_nat (nat_of_ascii c - 48)) = String c "".
Proof.
  destruct c as [[] [] [] [] [] [] [] []]; vm_compute; intros H;
    first [discriminate H | reflexivity].
Qed.

(** X22.  What is typed in a cell is what the grid holds and what the cell
    shows again: after [handleCellInput] with a digit 1..9, the number
    stored for the cell is rendered ([toString]) as that same digit; with
    the empty text the cell becomes 0; any other text leaves the game as it
    was; and no other cell of the grid ever changes. *)
Theorem handleCellInput_stores_what_is_typed
    (g : PseudokuGame.Game) (row col : nat) (value : string) :
  is9x9 (PseudokuGame.grid g) -> row < 9 -> col < 9 ->
  (PseudokuGame.isDigit1to9 value = true ->
   showInt (cell (PseudokuGame.grid (PseudokuGame.handleCellInput row col value g))
              row col) = value)
  /\ (value = "" ->
      cell (PseudokuGame.grid (PseudokuGame.handleCellInput row col value g))
        row col = 0%Z)
  /\ (value <> "" -> PseudokuGame.isDigit1to9 value = false ->
      PseudokuGame.handleCellInput row col value g = g)
  /\ (forall i j, (i, j) <> (row, col) ->
        cell (PseudokuGame.grid (PseudokuGame.handleCellInput row col value g)) i j
        = cell (PseudokuGame.grid g) i j).
Proof.
  intros Hg Hr Hc. unfold PseudokuGame.handleCellInput.
  split; [|split; [|split]].
  - intros Hdigit. rewrite Hdigit. cbn [negb andb].
    destruct value as [|c [|d rest]]; try discriminate Hdigit.
    cbn [String.eqb negb andb PseudokuGame.setGrid PseudokuGame.grid].
    rewrite cell_setCell_same by assumption.
    apply digit_shown_back, Hdigit.
  - intros ->. cbn. apply cell_setCell_same; assumption.
  - intros Hne Hdigit. apply String.eqb_neq in Hne. rewrite Hne, Hdigit. reflexivity.
  - intros i j Hother.
    destruct (negb (value =? "") && negb (PseudokuGame.isDigit1to9 value));
      [reflexivity|].
    cbn [PseudokuGame.setGrid PseudokuGame.grid].
    apply cell_setCell_other; assumption.
Qed.

Lemma handleCellInput_stores_what_is_typed_witness :
  showInt (cell (PseudokuGame.grid
                   (PseudokuGame.handleCellInput 0 2 "4"
                      (startedGame Constants.CHALLENGE_PUZZLE_default))) 0 2)
  = "4".
Proof.
  refine (proj1 (handleCellInput_stores_what_is_typed
    (startedGame Constants.CHALLENGE_PUZZLE_default) 0 2 "4" _ _ _) _).
  - exact is9x9_challenge.
  - lia.
  - lia.
  - reflexivity.
Defined.

(** ** The order of the calls to the prover *)

Ltac count_arith :=
  unfold count in *;
  repeat rewrite List.filter_app in *; repeat rewrite length_app in *;
  cbn [List.filter length isExecute isGenerateProof isVerifyProof
       waitsForExecute waitsForGenerateProof] in *;
  lia.

Lemma comesAfter_snoc (log : list PseudokuGame.ProverCall)
    (c last : PseudokuGame.ProverCall) justifies :
  comesAfter log c justifies ->
  (last = c -> exists earlier, In earlier log /\ justifies earlier) ->
  comesAfter (log ++ [last]) c justifies.
Proof.
  intros Hlog Hlast before after Heq.
  destruct (exists_last (l := c :: after) ltac:(discriminate))
    as (front & final & Hsplit).
  rewrite Hsplit, app_assoc in Heq.
  apply app_inj_tail in Heq as [Hfront Hfinal].
  destruct after as [|a after'].
  - destruct front as [|x front']; cbn in Hsplit;
      [|injection Hsplit as _ Hbad; destruct front'; discriminate Hbad].
    injection Hsplit as <-. rewrite app_nil_r in Hfront. subst before.
    apply Hlast. exact Hfinal.
  - destruct front as [|x front']; [discriminate Hsplit|].
    injection Hsplit as <- Hrest.
    destruct (Hlog before front' Hfront) as (earlier & Hin & Hj).
    exists earlier. split; assumption.
Qed.

Section ProverOrder.
Import PseudokuGame.
Variable P : Prover.

Lemma inOrder_snoc (log : list ProverCall) (last : ProverCall) :
  inOrder P log ->
  match last with
  | CallGenerateProof witness =>
      exists inputs, In (CallExecute inputs) log
                     /\ execute P inputs = inr witness
  | CallVerifyProof proofData =>
      exists witness, In (CallGenerateProof witness) log
                      /\ proverGenerateProof P witness = inr proofData
  | _ => True
  end ->
  inOrder P (log ++ [last]).
Proof.
  intros [Hgen Hver] Hlast. split.
  - intros witness. apply comesAfter_snoc; [apply Hgen|].
    intros ->. destruct Hlast as (inputs & Hin & Hexec).
    exists (CallExecute inputs). split; [exact Hin | eauto].
  - intros proofData. apply comesAfter_snoc; [apply Hver|].
    intros ->. destruct Hlast as (witness & Hin & Hgenerated).
    exists (CallGenerateProof witness). split; [exact Hin | eauto].
Qed.

(** What a listener that does not call the prover leaves alone. *)
Lemma callsConsistent_same (g g' : Game) :
  proverCalls g' = proverCalls g -> pending g' = pending g ->
  callsConsistent P g -> callsConsistent P g'.
Proof. unfold callsConsistent. intros -> ->. auto. Qed.

Lemma generateProof_consistent (g : Game) :
  callsConsistent P g -> callsConsistent P (generateProof g).
Proof.
  intros Hinv. unfold generateProof.
  destruct (negb (noir g) || negb (backend g));
    [exact (callsConsistent_same g _ eq_refl eq_refl Hinv)|].
  cbn [showStatus setDisabled fieldElement].
  destruct (BigInt_ofString (fieldElement g)) as [fieldValue|];
    [|exact (callsConsistent_same g _ eq_refl eq_refl Hinv)].
  destruct Hinv as (Horder & Hexec & Hgen & Hcount1 & Hcount2).
  unfold callsConsistent.
  cbn [suspend called showStatus setDisabled proverCalls pending grid].
  split; [apply inOrder_snoc; [exact Horder | exact I]|].
  split; [|split; [|count_arith]].
  - intros inputs Hin. apply in_app_iff.
    apply in_app_iff in Hin as [Hin|[[= <-]|[]]];
      [left; auto | right; left; reflexivity].
  - intros witness Hin. apply in_app_iff. left. apply Hgen.
    apply in_app_iff in Hin as [Hin|[Hbad|[]]]; [exact Hin | discriminate Hbad].
Qed.

Lemma submitVerification_consistent publicInputsInput parsed proofHexInput
    (g : Game) :
  callsConsistent P g ->
  callsConsistent P (submitVerification publicInputsInput parsed proofHexInput g).
Proof.
  intros Hinv. unfold submitVerification.
  destruct (performVerification _ _ _ _) as [message|proofData];
    [exact (callsConsistent_same g _ eq_refl eq_refl Hinv)|].
  destruct Hinv as (Horder & Hexec & Hgen & Hcount1 & Hcount2).
  unfold callsConsistent. cbn [suspend called proverCalls pending].
  split; [apply inOrder_snoc; [exact Horder | exact I]|].
  split; [|split; [|count_arith]].
  - intros inputs Hin. apply in_app_iff. left. apply Hexec.
    apply in_app_iff in Hin as [Hin|[Hbad|[]]]; [exact Hin | discriminate Hbad].
  - intros witness Hin. apply in_app_iff. left. apply Hgen.
    apply in_app_iff in Hin as [Hin|[Hbad|[]]]; [exact Hin | discriminate Hbad].
Qed.

Lemma settle_consistent (k : nat) (a : Await) (g : Game) :
  pending g !! k = Some a ->
  callsConsistent P g ->
  callsConsistent P (resume P a (setPending (delete k (pending g)) g)).
Proof.
  intros Hk (Horder & Hexec & Hgen & Hcount1 & Hcount2).
  pose proof (take_drop_middle _ _ _ Hk) as Hsplit.
  rewrite delete_take_drop.
  set (before := take k (pending g)) in *.
  set (after := drop (S k) (pending g)) in *.
  rewrite <- Hsplit in Hexec, Hgen, Hcount1, Hcount2.
  assert (Hexec' : forall inputs, In (AwaitExecute inputs) (before ++ after) ->
                     In (CallExecute inputs) (proverCalls g)).
  { intros inputs Hin. apply Hexec. apply in_app_iff.
    apply in_app_iff in Hin as [Hin|Hin]; [left | right; right]; exact Hin. }
  assert (Hgen' : forall witness, In (AwaitGenerateProof witness) (before ++ after) ->
                    In (CallGenerateProof witness) (proverCalls g)).
  { intros witness Hin. apply Hgen. apply in_app_iff.
    apply in_app_iff in Hin as [Hin|Hin]; [left | right; right]; exact Hin. }
  assert (Hhere_exec : forall inputs, a = AwaitExecute inputs ->
                         In (CallExecute inputs) (proverCalls g)).
  { intros inputs ->. apply Hexec, in_app_iff. right. left. reflexivity. }
  assert (Hhere_gen : forall witness, a = AwaitGenerateProof witness ->
                        In (CallGenerateProof witness) (proverCalls g)).
  { intros witness ->. apply Hgen, in_app_iff. right. left. reflexivity. }
  clear Hexec Hgen Hsplit Hk.
  unfold callsConsistent.
  destruct a as [inputs|witness|proofData|proofData]; cbn [resume].
  - destruct (execute P inputs) as [message|witness] eqn:Hresult;
      cbn [proofError showStatus setDisabled setPending suspend called
           proverCalls pending].
    + split; [exact Horder|]. split; [exact Hexec'|]. split; [exact Hgen'|].
      count_arith.
    + split; [apply inOrder_snoc; [exact Horder|]; eauto|].
      split; [|split; [|count_arith]].
      * intros i Hin. apply in_app_iff. left. apply Hexec'.
        apply in_app_iff in Hin as [Hin|[Hbad|[]]]; [exact Hin | discriminate Hbad].
      * intros w Hin. apply in_app_iff.
        apply in_app_iff in Hin as [Hin|[[= <-]|[]]];
          [left; auto | right; left; reflexivity].
  - destruct (proverGenerateProof P witness) as [message|proofData] eqn:Hresult;
      cbn [proofError showStatus setDisabled setPending suspend called
           proverCalls pending].
    + split; [exact Horder|]. split; [exact Hexec'|]. split; [exact Hgen'|].
      count_arith.
    + split; [apply inOrder_snoc; [exact Horder|]; eauto|].
      split; [|split; [|count_arith]].
      * intros i Hin. apply in_app_iff. left. apply Hexec'.
        apply in_app_iff in Hin as [Hin|[Hbad|[]]]; [exact Hin | discriminate Hbad].
      * intros w Hin. apply in_app_iff. left. apply Hgen'.
        apply in_app_iff in Hin as [Hin|[Hbad|[]]]; [exact Hin | discriminate Hbad].
  - destruct (verifyProof P proofData) as [message|[]];
      cbn [proofError showStatus setDisabled setPending keepProof
           proverCalls pending];
      (split; [exact Horder|]; split; [exact Hexec'|]; split; [exact Hgen'|];
       count_arith).
  - destruct (verifyProof P proofData) as [message|[]];
      cbn [showVerifyResult setPending proverCalls pending];
      (split; [exact Horder|]; split; [exact Hexec'|]; split; [exact Hgen'|];
       count_arith).
Qed.

Lemma dispatch_consistent (e : Event) (g : Game) :
  callsConsistent P g -> callsConsistent P (dispatch P e g).
Proof.
  intros Hinv.
  destruct e as [row col value| | |confirmed fe| |publicInputsInput parsed proofHexInput|k|elapsed];
    cbn [dispatch].
  - unfold handleCellInput.
    destruct (negb (value =? "") && negb (isDigit1to9 value));
      exact (callsConsistent_same g _ eq_refl eq_refl Hinv).
  - destruct (checkSolution_outcome g) as [[_ ->]|[_ [message ->]]];
      exact (callsConsistent_same g _ eq_refl eq_refl Hinv).
  - destruct (generateProofBtnDisabled g); [exact Hinv|].
    apply generateProof_consistent, Hinv.
  - unfold reset. destruct confirmed;
      exact (callsConsistent_same g _ eq_refl eq_refl Hinv).
  - unfold giveHint. destruct (forallb _ _);
      exact (callsConsistent_same g _ eq_refl eq_refl Hinv).
  - apply submitVerification_consistent, Hinv.
  - destruct (pending g !! k) as [a|] eqn:Hk; [|exact Hinv].
    apply settle_consistent; assumption.
  - destruct (timerInterval g);
      exact (callsConsistent_same g _ eq_refl eq_refl Hinv).
Qed.

(** X23.  The calls to the prover keep the order of what they depend on,
    however the invocations of [generateProof] overlap with each other, with
    a reset or with the verification of a submitted proof.  From a game
    that has called nothing and waits for nothing, in every state reached:
    each [backend.generateProof] call is made on a witness that an earlier
    [noir.execute] call returned; each [backend.verifyProof] call of
    [generateProof] is made on a proof that an earlier
    [backend.generateProof] call returned; and there are never more
    [backend.generateProof] calls than [noir.execute] calls, nor more
    [backend.verifyProof] calls of [generateProof] than
    [backend.generateProof] calls. *)
Theorem prover_calls_in_order (events : list Event) (g : Game) :
  proverCalls g = [] -> pending g = [] ->
  inOrder P (proverCalls (run P events g))
  /\ count isGenerateProof (proverCalls (run P events g))
     <= count isExecute (proverCalls (run P events g))
  /\ count isVerifyProof (proverCalls (run P events g))
     <= count isGenerateProof (proverCalls (run P events g)).
Proof.
  intros Hlog Hwait.
  assert (Hinv : callsConsistent P g).
  { unfold callsConsistent, inOrder, comesAfter. rewrite Hlog, Hwait.
    split; [split; intros ? [|? ?] ? Hbad; discriminate Hbad|].
    split; [intros ? []|]. split; [intros ? []|]. cbn. lia. }
  clear Hlog Hwait.
  assert (Hend : callsConsistent P (run P events g)).
  { revert g Hinv. induction events as [|e later IH]; intros g Hinv; [exact Hinv|].
    unfold run. cbn [fold_left]. apply IH, dispatch_consistent, Hinv. }
  destruct Hend as (Horder & _ & _ & Hcount1 & Hcount2).
  split; [exact Horder|]. lia.
Qed.

End ProverOrder.

Lemma prover_calls_in_order_witness :
  inOrder acceptingProver
    (PseudokuGame.proverCalls
       (PseudokuGame.run acceptingProver
          [PseudokuGame.ClickCheck; PseudokuGame.ClickGenerateProof;
           PseudokuGame.ClickCheck; PseudokuGame.ClickGenerateProof;
           PseudokuGame.Settle 1; PseudokuGame.Settle 0;
           PseudokuGame.ClickVerify "[7]" (Some ["7"]) "0x0a0b";
           PseudokuGame.Settle 0]
          (startedGame solvedGrid)))
  /\ count isGenerateProof
       (PseudokuGame.proverCalls
          (PseudokuGame.run acceptingProver
             [PseudokuGame.ClickCheck; PseudokuGame.ClickGenerateProof;
              PseudokuGame.ClickCheck; PseudokuGame.ClickGenerateProof;
              PseudokuGame.Settle 1; PseudokuGame.Settle 0;
              PseudokuGame.ClickVerify "[7]" (Some ["7"]) "0x0a0b";
              PseudokuGame.Settle 0]
             (startedGame solvedGrid)))
     <= count isExecute
          (PseudokuGame.proverCalls
             (PseudokuGame.run acceptingProver
                [PseudokuGame.ClickCheck; PseudokuGame.ClickGenerateProof;
                 PseudokuGame.ClickCheck; PseudokuGame.ClickGenerateProof;
                 PseudokuGame.Settle 1; PseudokuGame.Settle 0;
                 PseudokuGame.ClickVerify "[7]" (Some ["7"]) "0x0a0b";
                 PseudokuGame.Settle 0]
                (startedGame solvedGrid)))
  /\ count isVerifyProof
       (PseudokuGame.proverCalls
          (PseudokuGame.run acceptingProver
             [PseudokuGame.ClickCheck; PseudokuGame.ClickGenerateProof;
              PseudokuGame.ClickCheck; PseudokuGame.ClickGenerateProof;
              PseudokuGame.Settle 1; PseudokuGame.Settle 0;
              PseudokuGame.ClickVerify "[7]" (Some ["7"]) "0x0a0b";
              PseudokuGame.Settle 0]
             (startedGame solvedGrid)))
     <= count isGenerateProof
          (PseudokuGame.proverCalls
             (PseudokuGame.run acceptingProver
                [PseudokuGame.ClickCheck; PseudokuGame.ClickGenerateProof;
                 PseudokuGame.ClickCheck; PseudokuGame.ClickGenerateProof;
                 PseudokuGame.Settle 1; PseudokuGame.Settle 0;
                 PseudokuGame.ClickVerify "[7]" (Some ["7"]) "0x0a0b";
                 PseudokuGame.Settle 0]
                (startedGame solvedGrid))).
Proof. apply prover_calls_in_order; reflexivity. Defined.

(** Two invocations of [generateProof] overlap when a check succeeds while
    the first one waits: the check enables the button again, the second
    click calls [noir.execute] before the first call has been followed up,
    and a verification asked for in the dialog calls [backend.verifyProof]
    in between. *)
Example generateProof_invocations_overlap :
  PseudokuGame.proverCalls
    (PseudokuGame.run acceptingProver
       [PseudokuGame.ClickCheck; PseudokuGame.ClickGenerateProof;
        PseudokuGame.ClickCheck; PseudokuGame.ClickGenerateProof;
        PseudokuGame.ClickVerify "[7]" (Some ["7"]) "0x0a0b";
        PseudokuGame.Settle 1]
       (startedGame solvedGrid))
  = [PseudokuGame.CallExecute
       {| PseudokuGame.solution := ("42", solvedGrid);
          PseudokuGame.challenge := ("42", PseudokuGame.CHALLENGE_PUZZLE) |};
     PseudokuGame.CallExecute
       {| PseudokuGame.solution := ("42", solvedGrid);
          PseudokuGame.challenge := ("42", PseudokuGame.CHALLENGE_PUZZLE) |};
     PseudokuGame.CallVerifySubmitted
       {| ProofData.proof := [10; 11]%Z; ProofData.publicInputs := ["7"] |};
     PseudokuGame.CallGenerateProof [1; 2; 3]%Z].
Proof. vm_compute. reflexivity. Qed.

(** ** The sampler returns *)

Lemma generateFieldElement_below_first (draws : list (list Z)) :
  Exists (fun bytes => (candidate bytes < MODULUS)%Z) draws ->
  exists rejected bytes later,
    draws = (rejected ++ bytes :: later)%list
    /\ Forall (fun d => (MODULUS <= candidate d)%Z) rejected
    /\ (candidate bytes < MODULUS)%Z
    /\ generateFieldElement draws = Some (BigInt_toString (candidate bytes), later).
Proof.
  unfold generateFieldElement.
  induction draws as [|bytes rest IH]; intros Hex; [inversion Hex|].
  cbn [sampleLoop].
  destruct (Z.ltb_spec (candidate bytes) MODULUS) as [Hlt|Hge].
  - exists [], bytes, rest. repeat split; [constructor | exact Hlt].
  - apply Exists_cons in Hex as [Hhere|Hlater]; [lia|].
    destruct (IH Hlater) as (rejected & accepted & later & -> & Hrej & Hlt & Hgen).
    exists (bytes :: rejected), accepted, later.
    repeat split; [constructor; assumption | exact Hlt | exact Hgen].
Qed.

(** X24.  The sampling loop ends at the first acceptable draw: as soon as
    the random source gives 32 bytes whose candidate is below the modulus,
    [generateFieldElement] returns the decimal numeral of that candidate,
    having rejected every draw before it and consumed none after it.  A
    draw whose first byte has its six low bits clear is always acceptable,
    so the loop cannot run forever on such a source. *)
Theorem generateFieldElement_returns_at_first_acceptable (draws : list (list Z)) :
  Forall wellFormedDraw draws ->
  Exists (fun bytes => (candidate bytes < MODULUS)%Z
                       \/ Z.land (nth 0 bytes 0%Z) 0x3f = 0%Z) draws ->
  exists rejected bytes later,
    draws = (rejected ++ bytes :: later)%list
    /\ Forall (fun d => (MODULUS <= candidate d)%Z) rejected
    /\ (candidate bytes < MODULUS)%Z
    /\ generateFieldElement draws = Some (BigInt_toString (candidate bytes), later).
Proof.
  intros Hwf Hex. apply generateFieldElement_below_first.
  rewrite Exists_exists in *. destruct Hex as (bytes & Hin & [Hlt|Hzero]);
    exists bytes; (split; [exact Hin|]); [exact Hlt|].
  rewrite Forall_forall in Hwf. destruct (Hwf bytes Hin) as [Hlen Hbytes].
  destruct bytes as [|b0 rest]; [discriminate Hlen|].
  apply Forall_cons_1 in Hbytes as [_ Hrest]. cbn [nth] in Hzero.
  unfold candidate, bigEndian. cbn [maskTopBits fold_left].
  rewrite Hzero, Z.shiftl_0_l, Z.lor_0_l.
  pose proof (bigEndian_step_bound rest 0 0 ltac:(lia) ltac:(cbn; lia) Hrest) as Hb.
  cbn [length] in Hlen. replace (0 + 8 * Z.of_nat (length rest))%Z with 248%Z in Hb by lia.
  assert (2 ^ 248 < MODULUS)%Z by reflexivity. lia.
Qed.

Lemma generateFieldElement_returns_at_first_acceptable_witness :
  exists rejected bytes later,
    [repeat 255%Z 32; repeat 7%Z 32] = (rejected ++ bytes :: later)%list
    /\ Forall (fun d => (MODULUS <= candidate d)%Z) rejected
    /\ (candidate bytes < MODULUS)%Z
    /\ generateFieldElement [repeat 255%Z 32; repeat 7%Z 32]
       = Some (BigInt_toString (candidate bytes), later).
Proof.
  apply generateFieldElement_returns_at_first_acceptable.
  - repeat constructor; unfold u8; lia.
  - right. left. left. vm_compute. reflexivity.
Defined.
